(** * CoreSnake: the grid simulation and the tabular Q-learning agent

    A shallow embedding of [src/game/SnakeGame.ts] (class [SnakeGame]) and of
    the agent class [QLearningAgent], followed by the properties of the
    specification that concern them.

    Conventions of the embedding.
    - JavaScript numbers that the program only ever uses as integers (cell
      coordinates, score, step counters, level) are [Z]; the other numbers
      (rewards, action values, exploration rate, the wall hash) are exact
      rationals [Q], so rounding of IEEE doubles is not part of the model.
    - [Math.random()] reads the next element of an infinite tape of numbers
      of the half-open unit interval; the tape position is threaded through
      every function that draws.
    - [Math.sin] is a platform function; it is a parameter of the development.
    - A method that mutates [this] returns the new object.  A JavaScript
      [TypeError] is the result [None].
    - [loadFromStorage] is modelled apart, in [Persist], on the values the
      parsers of the platform can return ([NaN] included); [JSON.parse] is a
      parameter there. *)

From Stdlib Require Import ZArith QArith Qround Qabs Qpower Lia Lqa Bool Ascii String.
From stdpp Require Import gmap strings list pretty.

Local Open Scope Z_scope.

(** ** Numbers *)

Definition Qltb (a b : Q) : bool := negb (Qle_bool b a).

(** [Math.min] on two rationals. *)
Definition Math_min (a b : Q) : Q := if Qle_bool a b then a else b.

(** ** The ambient random source *)

(** A result of [Math.random()]: a number [u] with [0 <= u < 1]. *)
Record Unit01 : Type := mkUnit01 {
  u_val : Q;
  u_range : Qle_bool 0 u_val && Qltb u_val 1 = true
}.

Record RNG : Type := mkRNG {
  tape : nat -> Unit01;
  pos : nat
}.

Definition Math_random (r : RNG) : Q * RNG :=
  (u_val (tape r (pos r)), {| tape := tape r; pos := S (pos r) |}).

(** [Math.floor(Math.random() * n)] *)
Definition randomBelow (n : Z) (r : RNG) : Z * RNG :=
  let '(u, r) := Math_random r in (Qfloor (u * inject_Z n), r).

(** ** types.ts *)

Inductive ItemType : Type := FOOD | GOLD | SCISSORS | ICE.

Inductive Direction : Type := UP | DOWN | LEFT | RIGHT.

Record Point : Type := mkPoint { p_x : Z; p_y : Z }.

Record SpecialItem : Type := mkItem {
  point : Point;
  type : ItemType;
  expires : Z
}.

Record GameState : Type := mkGameState {
  snake : list Point;
  food : Point;
  specialItems : list SpecialItem;
  walls : list Point;
  score : Z;
  level : Z;
  itemsCollectedInLevel : Z;
  isGameOver : bool;
  steps : Z;
  slowEffectSteps : Z;
  portalOpen : bool;
  portalPoint : option Point
}.

Definition point_eqb (p q : Point) : bool :=
  (p_x p =? p_x q) && (p_y p =? p_y q).

(** Field assignments [this.state.f = v]. *)
Definition set_snake (v : list Point) (s : GameState) : GameState :=
  mkGameState v (food s) (specialItems s) (walls s) (score s) (level s)
    (itemsCollectedInLevel s) (isGameOver s) (steps s) (slowEffectSteps s)
    (portalOpen s) (portalPoint s).
Definition set_food (v : Point) (s : GameState) : GameState :=
  mkGameState (snake s) v (specialItems s) (walls s) (score s) (level s)
    (itemsCollectedInLevel s) (isGameOver s) (steps s) (slowEffectSteps s)
    (portalOpen s) (portalPoint s).
Definition set_specialItems (v : list SpecialItem) (s : GameState) : GameState :=
  mkGameState (snake s) (food s) v (walls s) (score s) (level s)
    (itemsCollectedInLevel s) (isGameOver s) (steps s) (slowEffectSteps s)
    (portalOpen s) (portalPoint s).
Definition set_walls (v : list Point) (s : GameState) : GameState :=
  mkGameState (snake s) (food s) (specialItems s) v (score s) (level s)
    (itemsCollectedInLevel s) (isGameOver s) (steps s) (slowEffectSteps s)
    (portalOpen s) (portalPoint s).
Definition set_score (v : Z) (s : GameState) : GameState :=
  mkGameState (snake s) (food s) (specialItems s) (walls s) v (level s)
    (itemsCollectedInLevel s) (isGameOver s) (steps s) (slowEffectSteps s)
    (portalOpen s) (portalPoint s).
Definition set_level (v : Z) (s : GameState) : GameState :=
  mkGameState (snake s) (food s) (specialItems s) (walls s) (score s) v
    (itemsCollectedInLevel s) (isGameOver s) (steps s) (slowEffectSteps s)
    (portalOpen s) (portalPoint s).
Definition set_itemsCollectedInLevel (v : Z) (s : GameState) : GameState :=
  mkGameState (snake s) (food s) (specialItems s) (walls s) (score s) (level s)
    v (isGameOver s) (steps s) (slowEffectSteps s)
    (portalOpen s) (portalPoint s).
Definition set_isGameOver (v : bool) (s : GameState) : GameState :=
  mkGameState (snake s) (food s) (specialItems s) (walls s) (score s) (level s)
    (itemsCollectedInLevel s) v (steps s) (slowEffectSteps s)
    (portalOpen s) (portalPoint s).
Definition set_steps (v : Z) (s : GameState) : GameState :=
  mkGameState (snake s) (food s) (specialItems s) (walls s) (score s) (level s)
    (itemsCollectedInLevel s) (isGameOver s) v (slowEffectSteps s)
    (portalOpen s) (portalPoint s).
Definition set_slowEffectSteps (v : Z) (s : GameState) : GameState :=
  mkGameState (snake s) (food s) (specialItems s) (walls s) (score s) (level s)
    (itemsCollectedInLevel s) (isGameOver s) (steps s) v
    (portalOpen s) (portalPoint s).
Definition set_portalOpen (v : bool) (s : GameState) : GameState :=
  mkGameState (snake s) (food s) (specialItems s) (walls s) (score s) (level s)
    (itemsCollectedInLevel s) (isGameOver s) (steps s) (slowEffectSteps s)
    v (portalPoint s).
Definition set_portalPoint (v : option Point) (s : GameState) : GameState :=
  mkGameState (snake s) (food s) (specialItems s) (walls s) (score s) (level s)
    (itemsCollectedInLevel s) (isGameOver s) (steps s) (slowEffectSteps s)
    (portalOpen s) v.

(** ** game/SnakeGame.ts *)

Definition GRID_SIZE : Z := 30.
Definition LEVEL_GOAL : Z := 10.
Definition maxSteps : Z := 3000.

(** [wallMap[y][x]]: a list of rows.  Every read in the source is guarded by
    a range test (or by the range of [Math.random]); outside the array the
    lookup below answers [false]. *)
Definition WallMap : Type := list (list bool).

Definition wallAt (wm : WallMap) (x y : Z) : bool :=
  if (0 <=? x) && (0 <=? y) then
    match wm !! Z.to_nat y with
    | Some row => default false (row !! Z.to_nat x)
    | None => false
    end
  else false.

Record SnakeGame : Type := mkGame {
  state : GameState;
  wallMap : WallMap
}.

Definition isPointWall (g : SnakeGame) (x y : Z) : bool :=
  if (x <? 0) || (GRID_SIZE <=? x) || (y <? 0) || (GRID_SIZE <=? y) then true
  else wallAt (wallMap g) x y.

Definition hitsSnake (sn : list Point) (p : Point) : bool :=
  existsb (fun s => point_eqb s p) sn.

Definition hitsItems (items : list SpecialItem) (p : Point) : bool :=
  existsb (fun i => point_eqb (point i) p) items.

(** The [while (attempts < 500)] loop of [getRandomEmptyPoint]; [n] is the
    number of attempts left. *)
Fixpoint getRandomEmptyPoint_loop (n : nat) (wm : WallMap) (sn : list Point)
    (otherItems : list SpecialItem) (r : RNG) : Point * RNG :=
  match n with
  | O => (mkPoint 0 0, r)
  | S n' =>
      let '(x, r) := randomBelow GRID_SIZE r in
      let '(y, r) := randomBelow GRID_SIZE r in
      let p := mkPoint x y in
      if wallAt wm x y then getRandomEmptyPoint_loop n' wm sn otherItems r
      else if hitsSnake sn p then getRandomEmptyPoint_loop n' wm sn otherItems r
      else if hitsItems otherItems p then getRandomEmptyPoint_loop n' wm sn otherItems r
      else (p, r)
  end.

(** The parameter [walls] of the source is not read by its body, which
    consults [this.wallMap]. *)
Definition getRandomEmptyPoint (g : SnakeGame) (sn : list Point)
    (_walls : list Point) (otherItems : list SpecialItem) (r : RNG)
    : Point * RNG :=
  getRandomEmptyPoint_loop 500 (wallMap g) sn otherItems r.

Definition initialSnake : list Point :=
  [mkPoint 15 15; mkPoint 15 16; mkPoint 15 17].

Definition clearWallMap (wm : WallMap) : WallMap :=
  map (map (fun _ => false)) wm.

Definition markWall (wm : WallMap) (w : Point) : WallMap :=
  if (0 <=? p_x w) && (p_x w <? GRID_SIZE) && (0 <=? p_y w) && (p_y w <? GRID_SIZE)
  then alter (fun row => <[Z.to_nat (p_x w) := true]> row) (Z.to_nat (p_y w)) wm
  else wm.

Definition updateWallMap (g : SnakeGame) (r : RNG) : SnakeGame * RNG :=
  let wm := fold_left markWall (walls (state g)) (clearWallMap (wallMap g)) in
  let g := mkGame (state g) wm in
  let '(f, r) := getRandomEmptyPoint g (snake (state g)) (walls (state g)) [] r in
  (mkGame (set_food f (state g)) wm, r).

(** [Math.abs(v) % 1] on a rational: the fractional part of [|v|]. *)
Definition absFrac (v : Q) : Q := (Qabs v - inject_Z (Qfloor (Qabs v)))%Q.

Definition moveHead (direction : Direction) (h : Point) : Point :=
  match direction with
  | UP => mkPoint (p_x h) (p_y h - 1)
  | DOWN => mkPoint (p_x h) (p_y h + 1)
  | LEFT => mkPoint (p_x h - 1) (p_y h)
  | RIGHT => mkPoint (p_x h + 1) (p_y h)
  end.

(** The index of the first item lying on [head] (the [for] loop with
    [break] that computes [pickedItemIndex]). *)
Fixpoint findPicked (items : list SpecialItem) (head : Point) : option nat :=
  match items with
  | [] => None
  | si :: rest =>
      if point_eqb (point si) head then Some O
      else option_map S (findPicked rest head)
  end.

(** [k] times [newSnake.pop()]. *)
Fixpoint popN (k : nat) (l : list Point) : list Point :=
  match k with
  | O => l
  | S k' => popN k' (removelast l)
  end.

Definition itemTypes : list ItemType := [GOLD; SCISSORS; ICE].

Section Simulation.

(** The platform's sine. *)
Variable Math_sin : Q -> Q.

Definition wallDensity (lvl : Z) : Q :=
  Math_min 0.15 (0.05 + inject_Z lvl * 0.0001).

Definition wallHash (lvl i j : Z) : Q :=
  let seed := (inject_Z lvl * 1.618)%Q in
  absFrac (Math_sin (seed + inject_Z i * 12.9898 + inject_Z j * 78.233)
           * 43758.5453)%Q.

Definition inSpawnArea (i j : Z) : bool :=
  (Z.abs (i - 15) <? 3) && (Z.abs (j - 15) <? 3).

Definition getLevelWalls (lvl : Z) : list Point :=
  if lvl =? 2 then
    flat_map (fun i =>
      [mkPoint i 10; mkPoint i 20] ++
      (if (10 <? i) && (i <? 20) && negb (i =? 15)
       then [mkPoint 10 i; mkPoint 20 i] else []))
      (seqZ 10 10)
  else if lvl =? 3 then
    flat_map (fun i =>
      [mkPoint 15 i; mkPoint 15 (GRID_SIZE - i - 1);
       mkPoint i 15; mkPoint (GRID_SIZE - i - 1) 15])
      (seqZ 0 12)
  else if 4 <=? lvl then
    flat_map (fun i =>
      flat_map (fun j =>
        if inSpawnArea i j then []
        else if Qltb (wallHash lvl i j) (wallDensity lvl) then [mkPoint i j]
        else [])
        (seqZ 0 GRID_SIZE))
      (seqZ 0 GRID_SIZE)
  else [].

Definition getInitialState (lvl : Z) : GameState :=
  {| snake := initialSnake;
     food := mkPoint 0 0;
     specialItems := [];
     walls := getLevelWalls lvl;
     score := 0;
     level := lvl;
     itemsCollectedInLevel := 0;
     isGameOver := false;
     steps := 0;
     slowEffectSteps := 0;
     portalOpen := false;
     portalPoint := None |}.

(** [new SnakeGame(level)] *)
Definition newSnakeGame (lvl : Z) (r : RNG) : SnakeGame * RNG :=
  let wm := replicate (Z.to_nat GRID_SIZE) (replicate (Z.to_nat GRID_SIZE) false) in
  updateWallMap (mkGame (getInitialState lvl) wm) r.

Definition advanceLevel (g : SnakeGame) (r : RNG) : SnakeGame * RNG :=
  let st := state g in
  let st := set_level (level st + 1) st in
  let st := set_itemsCollectedInLevel 0 st in
  let st := set_portalOpen false st in
  let st := set_portalPoint None st in
  let st := set_walls (getLevelWalls (level st)) st in
  let st := set_specialItems [] st in
  let st := set_steps 0 st in
  let st := set_snake initialSnake st in
  updateWallMap (mkGame st (wallMap g)) r.

(** The death test of [step], on the candidate head. *)
Definition isDeadly (g : SnakeGame) (st : GameState) (head : Point) : bool :=
  (p_x head <? 0) || (GRID_SIZE <=? p_x head) ||
  (p_y head <? 0) || (GRID_SIZE <=? p_y head) ||
  wallAt (wallMap g) (p_x head) (p_y head) ||
  hitsSnake (snake st) head ||
  (maxSteps + score st * 50 <? steps st).

Definition entersPortal (st : GameState) (head : Point) : bool :=
  match portalPoint st with
  | Some pp => portalOpen st && point_eqb head pp
  | None => false
  end.

(** The [switch (item.type)] of [step]: the effect of a picked item on the
    state, the body under construction and the reward. *)
Definition applyItem (it : SpecialItem) (st : GameState)
    (newSnake : list Point) (reward : Q) : GameState * list Point * Q :=
  match type it with
  | GOLD => (set_score (score st + 15) st, newSnake, 60%Q)
  | SCISSORS =>
      let reduceAmount := Z.max 0 (Z.of_nat (length newSnake) - 5) in
      (set_score (score st + 5) st,
       popN (Z.to_nat (Z.min 3 reduceAmount)) newSnake, 40%Q)
  | ICE => (set_slowEffectSteps 20 (set_score (score st + 2) st), newSnake, 15%Q)
  | FOOD => (st, newSnake, reward)
  end.

(** Lines 217-238: item pick-up. *)
Definition pickItem (st : GameState) (head : Point) (newSnake : list Point)
    (reward : Q) : GameState * list Point * Q :=
  match findPicked (specialItems st) head with
  | Some i =>
      match specialItems st !! i with
      | Some it =>
          applyItem it (set_specialItems (delete i (specialItems st)) st)
            newSnake reward
      | None => (st, newSnake, reward)
      end
  | None => (st, newSnake, reward)
  end.

(** Lines 240-251: goal consumption, or the tail drop. *)
Definition eatFood (g : SnakeGame) (st : GameState) (head : Point)
    (newSnake : list Point) (reward : Q) (r : RNG)
    : GameState * list Point * Q * RNG :=
  if point_eqb head (food st) then
    let st := set_score (score st + 1) st in
    let st := set_itemsCollectedInLevel (itemsCollectedInLevel st + 1) st in
    let '(st, r) :=
      if (LEVEL_GOAL <=? itemsCollectedInLevel st) && negb (portalOpen st) then
        let st := set_portalOpen true st in
        let '(pp, r) :=
          getRandomEmptyPoint g newSnake (walls st) (specialItems st) r in
        (set_portalPoint (Some pp) st, r)
      else (st, r) in
    let '(f, r) := getRandomEmptyPoint g newSnake (walls st) (specialItems st) r in
    (set_food f st, newSnake, 30%Q, r)
  else (st, removelast newSnake, reward, r).

(** Lines 253-261: the periodic item spawn. *)
Definition spawnItem (g : SnakeGame) (st : GameState) (newSnake : list Point)
    (r : RNG) : GameState * RNG :=
  if Z.rem (steps st) 75 =? 0 then
    let '(u, r) := Math_random r in
    if Qltb u 0.3 && (Z.of_nat (length (specialItems st)) <? 3) then
      let '(k, r) := randomBelow (Z.of_nat (length itemTypes)) r in
      match itemTypes !! Z.to_nat k with
      | Some ty =>
          let '(p, r) :=
            getRandomEmptyPoint g newSnake (walls st) (specialItems st) r in
          (set_specialItems
             (specialItems st ++ [mkItem p ty (steps st + 150)]) st, r)
      | None => (st, r)
      end
    else (st, r)
  else (st, r).

Definition expireItems (st : GameState) : GameState :=
  set_specialItems
    (filter (fun i => steps st < expires i) (specialItems st)) st.

(** Lines 186-187: the two counters. *)
Definition tick (st : GameState) : GameState :=
  let st := set_steps (steps st + 1) st in
  if 0 <? slowEffectSteps st
  then set_slowEffectSteps (slowEffectSteps st - 1) st else st.

(** [step(direction)]: the reward and the game after the call; [None] when
    the body is empty and the source reads a coordinate of [undefined]. *)
Definition step (direction : Direction) (g : SnakeGame) (r : RNG)
    : option (Q * SnakeGame) * RNG :=
  if isGameOver (state g) then (Some ((-20)%Q, g), r)
  else
    let st := tick (state g) in
    match snake st with
    | [] => (None, r)
    | h :: _ =>
        let head := moveHead direction h in
        if isDeadly g st head then
          (Some ((-100)%Q, mkGame (set_isGameOver true st) (wallMap g)), r)
        else if entersPortal st head then
          let '(g', r) := advanceLevel (mkGame st (wallMap g)) r in
          (Some (250%Q, g'), r)
        else
          let newSnake := head :: snake st in
          let reward := (-0.05)%Q in
          let '(st, newSnake, reward) := pickItem st head newSnake reward in
          let '(st, newSnake, reward, r) := eatFood g st head newSnake reward r in
          let '(st, r) := spawnItem g st newSnake r in
          let st := expireItems st in
          (Some (reward, mkGame (set_snake newSnake st) (wallMap g)), r)
    end.

(** A sequence of calls of [step], one per direction, with the rewards. *)
Fixpoint stepMany (ds : list Direction) (g : SnakeGame) (r : RNG)
    : option (list Q * SnakeGame) * RNG :=
  match ds with
  | [] => (Some ([], g), r)
  | d :: ds' =>
      match step d g r with
      | (Some (rw, g'), r') =>
          match stepMany ds' g' r' with
          | (Some (rws, g''), r'') => (Some (rw :: rws, g''), r'')
          | (None, r'') => (None, r'')
          end
      | (None, r') => (None, r')
      end
  end.

(** The games a host can observe: a constructed game, and every game a
    call of [step] leaves behind. *)
Inductive reachable : SnakeGame -> RNG -> Prop :=
  | reachable_new (lvl : Z) (r : RNG) :
      reachable (fst (newSnakeGame lvl r)) (snd (newSnakeGame lvl r))
  | reachable_step (d : Direction) (g g' : SnakeGame) (r r' : RNG) (rw : Q) :
      reachable g r -> step d g r = (Some (rw, g'), r') -> reachable g' r'.

End Simulation.

(** ** ai/QLearningAgent.ts *)

(** A value vector [number[]] of the table.  Every vector the agent creates
    is [[0, 0, 0, 0]] and is only ever written at an index below 4, so the
    model fixes the length; the components are indexed by the direction that
    the array [directions] associates with the index. *)
Record QValues : Type := mkQValues { q_0 : Q; q_1 : Q; q_2 : Q; q_3 : Q }.

Definition zeroQValues : QValues := mkQValues 0 0 0 0.

(** [directions[k]] for the indices [Math.floor(Math.random() * 4)] and
    [maxIdx] can take. *)
Definition directionOfIndex (k : Z) : Direction :=
  if k =? 0 then UP else if k =? 1 then DOWN else if k =? 2 then LEFT else RIGHT.

Definition qGet (q : QValues) (a : Direction) : Q :=
  match a with UP => q_0 q | DOWN => q_1 q | LEFT => q_2 q | RIGHT => q_3 q end.

Definition qSet (q : QValues) (a : Direction) (v : Q) : QValues :=
  match a with
  | UP => mkQValues v (q_1 q) (q_2 q) (q_3 q)
  | DOWN => mkQValues (q_0 q) v (q_2 q) (q_3 q)
  | LEFT => mkQValues (q_0 q) (q_1 q) v (q_3 q)
  | RIGHT => mkQValues (q_0 q) (q_1 q) (q_2 q) v
  end.

Definition Math_max (a b : Q) : Q := if Qle_bool a b then b else a.

Record Agent : Type := mkAgent {
  qTable : gmap string QValues;
  epsilon : Q;
  game : SnakeGame;
  totalReward : Q;
  totalStepsEver : Z
}.

Definition alpha : Q := 0.25.
Definition gamma : Q := 0.95.
Definition epsilonMin : Q := 0.01.
Definition epsilonDecay : Q := 0.999997.

Definition set_qTable (v : gmap string QValues) (a : Agent) : Agent :=
  mkAgent v (epsilon a) (game a) (totalReward a) (totalStepsEver a).
Definition set_epsilon (v : Q) (a : Agent) : Agent :=
  mkAgent (qTable a) v (game a) (totalReward a) (totalStepsEver a).
Definition set_game (v : SnakeGame) (a : Agent) : Agent :=
  mkAgent (qTable a) (epsilon a) v (totalReward a) (totalStepsEver a).
Definition set_totalReward (v : Q) (a : Agent) : Agent :=
  mkAgent (qTable a) (epsilon a) (game a) v (totalStepsEver a).
Definition set_totalStepsEver (v : Z) (a : Agent) : Agent :=
  mkAgent (qTable a) (epsilon a) (game a) (totalReward a) v.

(** [portalOpen ? portalPoint! : food]; [None] is the [null] the non-null
    assertion lets through. *)
Definition activeTarget (st : GameState) : option Point :=
  if portalOpen st then portalPoint st else Some (food st).

Definition isBlocking (g : SnakeGame) (sn : list Point) (x y : Z) : bool :=
  if (x <? 0) || (GRID_SIZE <=? x) || (y <? 0) || (GRID_SIZE <=? y) then true
  else if isPointWall g x y then true
  else hitsSnake sn (mkPoint x y).

Definition flag (b : bool) : string := if b then "1" else "0".

Definition headingOf (sn : list Point) : string :=
  match sn with
  | head :: neck :: _ =>
      if p_x neck <? p_x head then "R"
      else if p_x head <? p_x neck then "L"
      else if p_y neck <? p_y head then "D"
      else if p_y head <? p_y neck then "U"
      else "N"
  | _ => "N"
  end.

(** [getStateString()]; a [TypeError] when the body is empty or the portal
    is open without a portal cell. *)
Definition getStateString (a : Agent) : option string :=
  let st := state (game a) in
  let sn := snake st in
  match sn, activeTarget st with
  | head :: _, Some target =>
      let tX := if p_x target <? p_x head then "L"
                else if p_x head <? p_x target then "R" else "C" in
      let tY := if p_y target <? p_y head then "U"
                else if p_y head <? p_y target then "D" else "C" in
      let blk := isBlocking (game a) sn in
      let dU := flag (blk (p_x head) (p_y head - 1)) in
      let dD := flag (blk (p_x head) (p_y head + 1)) in
      let dL := flag (blk (p_x head - 1) (p_y head)) in
      let dR := flag (blk (p_x head + 1) (p_y head)) in
      let dU2 := flag (blk (p_x head) (p_y head - 2)) in
      let dD2 := flag (blk (p_x head) (p_y head + 2)) in
      let dL2 := flag (blk (p_x head - 2) (p_y head)) in
      let dR2 := flag (blk (p_x head + 2) (p_y head)) in
      Some (tX +:+ tY +:+ dU +:+ dD +:+ dL +:+ dR +:+
            dU2 +:+ dD2 +:+ dL2 +:+ dR2 +:+ headingOf sn)
  | _, _ => None
  end.

(** [getQValues(state)]: the vector, and the agent with the entry created
    when it was missing. *)
Definition getQValues (s : string) (a : Agent) : QValues * Agent :=
  match qTable a !! s with
  | Some q => (q, a)
  | None => (zeroQValues, set_qTable (<[s := zeroQValues]> (qTable a)) a)
  end.

Definition getCurrentStateQValues (a : Agent) : option (QValues * Agent) :=
  match getStateString a with
  | Some s => Some (getQValues s a)
  | None => None
  end.

(** The [for] loop of [chooseAction]: the first index of a largest value. *)
Definition argmax (q : QValues) : Z :=
  let '(maxIdx, maxVal) := (0, q_0 q) in
  let '(maxIdx, maxVal) :=
    if Qltb maxVal (q_1 q) then (1, q_1 q) else (maxIdx, maxVal) in
  let '(maxIdx, maxVal) :=
    if Qltb maxVal (q_2 q) then (2, q_2 q) else (maxIdx, maxVal) in
  let '(maxIdx, maxVal) :=
    if Qltb maxVal (q_3 q) then (3, q_3 q) else (maxIdx, maxVal) in
  maxIdx.

Definition chooseAction (s : string) (a : Agent) (r : RNG) : Z * Agent * RNG :=
  let '(u, r) := Math_random r in
  if Qltb u (epsilon a) then
    let '(k, r) := randomBelow 4 r in (k, a, r)
  else
    let '(q, a) := getQValues s a in (argmax q, a, r).

Definition manhattan (p q : Point) : Z :=
  Z.abs (p_x p - p_x q) + Z.abs (p_y p - p_y q).

(** Lines 103-109 of [update]: the proximity shaping.  [target] is the
    object bound before the step. *)
Definition shapeReward (reward : Q) (g : SnakeGame) (target : Point)
    (distBefore : Z) : option Q :=
  if isGameOver (state g) then Some reward
  else
    match snake (state g) with
    | headAfter :: _ =>
        let distAfter := manhattan headAfter target in
        if distAfter <? distBefore then Some (reward + 0.8)%Q
        else if distBefore <? distAfter then Some (reward - 0.8)%Q
        else Some reward
    | [] => None
    end.

Definition maxOf (q : QValues) : Q :=
  Math_max (Math_max (Math_max (q_0 q) (q_1 q)) (q_2 q)) (q_3 q).

(** Line 121: the decay of the exploration rate. *)
Definition decayEpsilon (e : Q) : Q :=
  if Qltb epsilonMin e then (e * epsilonDecay)%Q else e.

(** Lines 111-121 of [update]: bookkeeping, the temporal-difference update
    and the decay. *)
Definition learn (s : string) (action : Z) (reward : Q) (a : Agent)
    : option Agent :=
  let a := set_totalReward (totalReward a + reward)%Q a in
  let a := set_totalStepsEver (totalStepsEver a + 1) a in
  match getStateString a with
  | None => None
  | Some nextState =>
      let '(nextQValues, a) := getQValues nextState a in
      let maxNextQ := maxOf nextQValues in
      let '(currentQValues, a) := getQValues s a in
      let d := directionOfIndex action in
      let old := qGet currentQValues d in
      let future := if isGameOver (state (game a)) then 0%Q else maxNextQ in
      let new := (old + alpha * (reward + gamma * future - old))%Q in
      let a := set_qTable (<[s := qSet currentQValues d new]> (qTable a)) a in
      Some (set_epsilon (decayEpsilon (epsilon a)) a)
  end.

Section Agent.

Variable Math_sin : Q -> Q.

(** [update()]: one decision. *)
Definition update (a : Agent) (r : RNG) : option Agent * RNG :=
  if isGameOver (state (game a)) then (Some a, r)
  else
    match getStateString a, snake (state (game a)), activeTarget (state (game a)) with
    | Some s, headBefore :: _, Some target =>
        let distBefore := manhattan headBefore target in
        let '(action, a, r) := chooseAction s a r in
        let '(res, r) := step Math_sin (directionOfIndex action) (game a) r in
        match res with
        | Some (reward, g') =>
            let a := set_game g' a in
            match shapeReward reward g' target distBefore with
            | Some reward => (learn s action reward a, r)
            | None => (None, r)
            end
        | None => (None, r)
        end
    | _, _, _ => (None, r)
    end.

(** [new QLearningAgent()] when the store holds none of the three keys, so
    that [loadFromStorage], which the constructor calls last, changes
    nothing; [restoredAgent] below is the constructor on the other
    stores. *)
Definition newAgent (r : RNG) : Agent * RNG :=
  let '(g, r) := newSnakeGame Math_sin 1 r in
  (mkAgent ∅ 1 g 0 0, r).

(** [reset()] *)
Definition reset (a : Agent) (r : RNG) : Agent * RNG :=
  let '(g, r) := newSnakeGame Math_sin (level (state (game a))) r in
  (set_totalReward 0 (set_game g a), r).

(** The agents a host holds after [n] decisions when the random source
    starts as [r0]: it constructs the agent, and then, as the driver loop
    does, calls [reset] when the game is over and [update] when it is not. *)
Inductive hostRun (r0 : RNG) : N -> Agent -> RNG -> Prop :=
  | host_new : hostRun r0 0%N (newAgent r0).1 (newAgent r0).2
  | host_reset (n : N) (a : Agent) (r : RNG) :
      hostRun r0 n a r ->
      isGameOver (state (game a)) = true ->
      hostRun r0 n (reset a r).1 (reset a r).2
  | host_update (n : N) (a a' : Agent) (r r' : RNG) :
      hostRun r0 n a r ->
      isGameOver (state (game a)) = false ->
      update a r = (Some a', r') ->
      hostRun r0 (N.succ n) a' r'.

(** [new QLearningAgent()] when [loadFromStorage] has put a table [t], an
    exploration rate [e] and a step count [n] in the place of the initial
    ones; [newAgent] is the case of the initial ones. *)
Definition restoredAgent (t : gmap string QValues) (e : Q) (n : Z) (r : RNG)
    : Agent * RNG :=
  let '(g, r) := newSnakeGame Math_sin 1 r in
  (mkAgent t e g 0 n, r).

(** The agents a host holds after [n] decisions when it starts from the
    agent [a0] and the random source [r0], however [a0] came about: as the
    driver loop does, it calls [reset] when the game is over and [update]
    when it is not. *)
Inductive trainedFrom (a0 : Agent) (r0 : RNG) : N -> Agent -> RNG -> Prop :=
  | trained_start : trainedFrom a0 r0 0%N a0 r0
  | trained_reset (n : N) (a : Agent) (r : RNG) :
      trainedFrom a0 r0 n a r ->
      isGameOver (state (game a)) = true ->
      trainedFrom a0 r0 n (reset a r).1 (reset a r).2
  | trained_update (n : N) (a a' : Agent) (r r' : RNG) :
      trainedFrom a0 r0 n a r ->
      isGameOver (state (game a)) = false ->
      update a r = (Some a', r') ->
      trainedFrom a0 r0 (N.succ n) a' r'.

End Agent.

(** ** Restoring the agent from the key-value store *)

Module Persist.

(** What [parseFloat] and [parseInt] can return. *)
Inductive JSNumber : Type :=
  | NaN
  | Infinity (negative : bool)
  | Finite (q : Q).

(** The result of [JSON.parse]. *)
#[local] Unset Elimination Schemes.
Inductive JSON : Type :=
  | JNull
  | JBool (b : bool)
  | JNum (q : Q)
  | JStr (s : string)
  | JArr (l : list JSON)
  | JObj (l : list (string * JSON)).
#[local] Set Elimination Schemes.

(** The three fields [loadFromStorage] assigns, with the values JavaScript
    can put there: the cast [as [string, number[]][]] checks nothing, and
    the two scalars receive whatever the parsers return. *)
Record Restored : Type := mkRestored {
  r_qTable : gmap string JSON;
  r_epsilon : JSNumber;
  r_totalStepsEver : JSNumber;
  console : list string
}.

(** The field initialisers and [new Map()] of the constructor. *)
Definition initialFields : Restored := mkRestored ∅ (Finite 1) (Finite 0) [].

(** *** The parsers of the platform, on ASCII text and with exact values *)

Definition isWhiteSpace (c : ascii) : bool :=
  let n := nat_of_ascii c in
  (Nat.leb 9 n && Nat.leb n 13) || Nat.eqb n 32.

Fixpoint trimStart (s : string) : string :=
  match s with
  | String c s' => if isWhiteSpace c then trimStart s' else s
  | EmptyString => s
  end.

Definition digitOf (c : ascii) : option Z :=
  let n := Z.of_nat (nat_of_ascii c) in
  if (48 <=? n) && (n <=? 57) then Some (n - 48) else None.

(** The longest run of decimal digits at the start of [s]: its value, its
    length and the rest. *)
Fixpoint readDigits (s : string) (acc : Z) (n : nat) : Z * nat * string :=
  match s with
  | String c s' =>
      match digitOf c with
      | Some d => readDigits s' (acc * 10 + d) (S n)
      | None => (acc, n, s)
      end
  | EmptyString => (acc, n, s)
  end.

Definition readSign (s : string) : bool * string :=
  match s with
  | String "-"%char s' => (true, s')
  | String "+"%char s' => (false, s')
  | _ => (false, s)
  end.

Definition signed (neg : bool) (q : Q) : Q := if neg then (- q)%Q else q.

(** [parseFloat(s)]: the longest prefix of the trimmed text that is a
    [StrDecimalLiteral], [NaN] when there is none.  The value is the exact
    rational the numeral denotes; a numeral beyond the range of the doubles
    (such as 1e400, which the platform reads as [Infinity], or 1e-400, which
    it reads as 0) is outside the model, as rounding is. *)
Definition parseFloat (s : string) : JSNumber :=
  let '(neg, s) := readSign (trimStart s) in
  if String.prefix "Infinity" s then Infinity neg
  else
    let '(ip, ni, s) := readDigits s 0 0 in
    let '(fp, nf, s) :=
      match s with
      | String "."%char s' => readDigits s' 0 0
      | _ => (0, O, s)
      end in
    if Nat.eqb ni 0 && Nat.eqb nf 0 then NaN
    else
      let e :=
        match s with
        | String c s' =>
            if Ascii.eqb c "e" || Ascii.eqb c "E" then
              let '(eneg, s'') := readSign s' in
              let '(ev, ne, _) := readDigits s'' 0 0 in
              if Nat.eqb ne 0 then 0 else if eneg then - ev else ev
            else 0
        | EmptyString => 0
        end in
      let mantissa :=
        (inject_Z ip + inject_Z fp * Qpower 10 (- Z.of_nat nf))%Q in
      Finite (Qred (signed neg (mantissa * Qpower 10 e))).

(** [parseInt(s, 10)].  The value is the exact integer the digits denote,
    which is what the platform returns up to [2^53]; beyond that the
    platform rounds to the nearest double, which is outside the model. *)
Definition parseInt10 (s : string) : JSNumber :=
  let '(neg, s) := readSign (trimStart s) in
  let '(v, n, _) := readDigits s 0 0 in
  if Nat.eqb n 0 then NaN else Finite (signed neg (inject_Z v)).

(** [Object.entries(v)]; [None] is the [TypeError] on [null]. *)
Fixpoint indexed (i : nat) (l : list JSON) : list (string * JSON) :=
  match l with
  | [] => []
  | v :: l' => (pretty i, v) :: indexed (S i) l'
  end.

Fixpoint chars (s : string) : list JSON :=
  match s with
  | EmptyString => []
  | String c s' => JStr (String c EmptyString) :: chars s'
  end.

Definition Object_entries (v : JSON) : option (list (string * JSON)) :=
  match v with
  | JNull => None
  | JBool _ | JNum _ => Some []
  | JStr s => Some (indexed 0 (chars s))
  | JArr l => Some (indexed 0 l)
  | JObj l => Some l
  end.

(** [new Map(entries)]: a later entry replaces an earlier one. *)
Definition newMap (es : list (string * JSON)) : gmap string JSON :=
  fold_left (fun m kv => <[kv.1 := kv.2]> m) es ∅.

(** [if (saved)] on the result of [localStorage.getItem]. *)
Definition truthy (o : option string) : option string :=
  match o with
  | Some EmptyString => None
  | _ => o
  end.

(** [try { body } catch (e) { handler }] *)
Definition tryCatch {A : Type} (body : option A) (handler : option A)
    : option A :=
  match body with
  | Some v => Some v
  | None => handler
  end.

Section Load.

(** [JSON.parse]; [None] is the [SyntaxError]. *)
Variable JSON_parse : string -> option JSON.

(** [loadFromStorage()]; [None] would be an exception that leaves the
    method. *)
Definition loadFromStorage (localStorage : gmap string string) (a : Restored)
    : option Restored :=
  let savedTable := localStorage !! "qs_v6_qtable" in
  let savedEpsilon := localStorage !! "qs_v6_epsilon" in
  let savedSteps := localStorage !! "qs_v6_steps" in
  a ← match truthy savedTable with
      | Some t =>
          tryCatch
            (obj ← JSON_parse t;
             es ← Object_entries obj;
             Some (mkRestored (newMap es) (r_epsilon a) (r_totalStepsEver a)
                     (console a)))
            (Some (mkRestored (r_qTable a) (r_epsilon a) (r_totalStepsEver a)
                     (console a ++ ["Failed to load QTable"])))
      | None => Some a
      end;
  let a :=
    match truthy savedEpsilon with
    | Some e => mkRestored (r_qTable a) (parseFloat e) (r_totalStepsEver a)
                  (console a)
    | None => a
    end in
  let a :=
    match truthy savedSteps with
    | Some n => mkRestored (r_qTable a) (r_epsilon a) (parseInt10 n) (console a)
    | None => a
    end in
  Some a.

End Load.

End Persist.

(** ** Vocabulary of the statements *)

(** The item [step] picks up on [head]: the first one lying there. *)
Definition pickedItem (items : list SpecialItem) (head : Point)
    : option SpecialItem :=
  match findPicked items head with
  | Some i => items !! i
  | None => None
  end.

(** The items left once the picked one is spliced out. *)
Definition remainingItems (items : list SpecialItem) (head : Point)
    : list SpecialItem :=
  match findPicked items head with
  | Some i => match items !! i with Some _ => delete i items | None => items end
  | None => items
  end.

(** The score an item is worth. *)
Definition itemScore (o : option SpecialItem) : Z :=
  match o with
  | Some it =>
      match type it with GOLD => 15 | SCISSORS => 5 | ICE => 2 | FOOD => 0 end
  | None => 0
  end.

(** A cell that is neither an obstacle, nor on the body [sn], nor under one
    of [items]. *)
Definition isOpenCell (wm : WallMap) (sn : list Point)
    (items : list SpecialItem) (p : Point) : Prop :=
  wallAt wm (p_x p) (p_y p) = false /\
  hitsSnake sn p = false /\
  hitsItems items p = false.

(** What the bounded random search returns: an open cell, or the fixed
    cell (0, 0) of the exhausted search. *)
Definition placedCell (wm : WallMap) (sn : list Point)
    (items : list SpecialItem) (p : Point) : Prop :=
  p = mkPoint 0 0 \/ isOpenCell wm sn items p.

(** The cell of sample number [i] (counted from 0) of a random search that
    starts at [r]: every sample takes two draws, column first. *)
Definition sampleAt (r : RNG) (i : nat) : Point :=
  mkPoint
    (Qfloor (u_val (tape r (pos r + 2 * i)%nat) * inject_Z GRID_SIZE))
    (Qfloor (u_val (tape r (S (pos r + 2 * i))%nat) * inject_Z GRID_SIZE)).

(** What a random search of at most [n] samples returns from [r]: the first
    sample that is open, with the random source just behind that sample; or,
    when none of the [n] samples is open, the fixed cell (0, 0), with the
    random source behind all of them. *)
Definition searchedWithin (n : nat) (wm : WallMap) (sn : list Point)
    (items : list SpecialItem) (r : RNG) (res : Point * RNG) : Prop :=
  (exists k : nat,
     (k < n)%nat /\
     isOpenCell wm sn items (sampleAt r k) /\
     (forall j : nat, (j < k)%nat -> ~ isOpenCell wm sn items (sampleAt r j)) /\
     res = (sampleAt r k, mkRNG (tape r) (pos r + 2 * S k)%nat)) \/
  ((forall j : nat, (j < n)%nat -> ~ isOpenCell wm sn items (sampleAt r j)) /\
   res = (mkPoint 0 0, mkRNG (tape r) (pos r + 2 * n)%nat)).

(** The bounded random search of the program: 500 samples. *)
Definition searched (wm : WallMap) (sn : list Point)
    (items : list SpecialItem) (r : RNG) (res : Point * RNG) : Prop :=
  searchedWithin 500 wm sn items r res.

(** The proximity bonus for a distance that went from [distBefore] to
    [distAfter]. *)
Definition shaping (distAfter distBefore : Z) : Q :=
  if distAfter <? distBefore then 0.8
  else if distBefore <? distAfter then (-0.8)
  else 0.

(** The shaped reward in the words of the specification: the distance after
    the move is taken to the target that is active after the move. *)
Definition shapedRewardAsSpecified (reward : Q) (before after : GameState)
    : option Q :=
  match snake before, activeTarget before, snake after, activeTarget after with
  | headBefore :: _, Some targetBefore, headAfter :: _, Some targetAfter =>
      Some (reward + shaping (manhattan headAfter targetAfter)
                             (manhattan headBefore targetBefore))%Q
  | _, _, _, _ => None
  end.

(** The goal cell after a step: where it was, or the fallback cell, or off
    every item that was on the board before the step and still is. *)
Definition goalKeptClear (g g' : SnakeGame) : Prop :=
  food (state g') = food (state g) \/
  food (state g') = mkPoint 0 0 \/
  (forall it, In it (specialItems (state g)) ->
              In it (specialItems (state g')) ->
              point it <> food (state g')).

(** ** The exploration rate over many decisions *)

(** Rational arithmetic rounded to thirty decimals, to bound powers. *)
Definition grid : positive := (10 ^ 30)%positive.

Definition roundUp (q : Q) : Q := Qceiling (q * inject_Z (Z.pos grid)) # grid.
Definition roundDown (q : Q) : Q := Qfloor (q * inject_Z (Z.pos grid)) # grid.

Fixpoint powUp (x : Q) (p : positive) : Q :=
  match p with
  | xH => x
  | xO p' => let t := powUp x p' in roundUp (t * t)
  | xI p' => let t := powUp x p' in roundUp (x * (t * t))
  end.

Fixpoint powDown (x : Q) (p : positive) : Q :=
  match p with
  | xH => x
  | xO p' => let t := powDown x p' in roundDown (t * t)
  | xI p' => let t := powDown x p' in roundDown (x * (t * t))
  end.

(** The exploration rate after [n] decisions of an agent constructed with
    the rate 1. *)
Definition epsilonAfter (n : N) : Q := N.iter n decayEpsilon 1%Q.

(** A game on which neither [step] nor the fingerprint raises: the body is
    not empty and an open portal has its cell. *)
Definition wellFormed (g : SnakeGame) : Prop :=
  snake (state g) <> [] /\
  (portalOpen (state g) = true -> portalPoint (state g) <> None).

(** The board without obstacles. *)
Definition emptyBoard : WallMap :=
  replicate (Z.to_nat GRID_SIZE) (replicate (Z.to_nat GRID_SIZE) false).

(** The obstacle cache agrees with the obstacle list: it is what
    [updateWallMap] computes from the list on a cleared board. *)
Definition cacheCurrent (g : SnakeGame) : Prop :=
  wallMap g = fold_left markWall (walls (state g)) emptyBoard.

(** *** [getVisionExtended] *)

(** [VisionData] of types.ts; the field [point] is [v_point] here. *)
Record VisionData : Type := mkVisionData {
  direction : Point;
  dist : Z;
  foodFound : bool;
  itemFound : option ItemType;
  itemDist : option Z;
  bodyFound : bool;
  wallFound : bool;
  v_point : Point
}.

Definition rayDirs : list Point :=
  [mkPoint 0 (-1); mkPoint 0 1; mkPoint (-1) 0; mkPoint 1 0;
   mkPoint (-1) (-1); mkPoint 1 (-1); mkPoint (-1) 1; mkPoint 1 1].

(** The condition of the [while] loop. *)
Definition inGrid (p : Point) : bool :=
  (0 <=? p_x p) && (p_x p <? GRID_SIZE) && (0 <=? p_y p) && (p_y p <? GRID_SIZE).

(** [portalOpen && portalPoint ? portalPoint : food] *)
Definition visionTarget (st : GameState) : Point :=
  match portalOpen st, portalPoint st with
  | true, Some pp => pp
  | _, _ => food st
  end.

(** [specialItems.find(si => si.point.x === curr.x && si.point.y === curr.y)] *)
Definition findItem (items : list SpecialItem) (curr : Point)
    : option SpecialItem :=
  find (fun si => point_eqb (point si) curr) items.

(** Lines 138-149: what one round of the loop records about the cell
    [curr]. *)
Definition look (g : SnakeGame) (target curr : Point) (v : VisionData)
    : VisionData :=
  let foodFound' :=
    if negb (foodFound v) && point_eqb curr target then true
    else foodFound v in
  let '(itemFound', itemDist') :=
    match findItem (specialItems (state g)) curr, itemFound v with
    | Some si, None => (Some (type si), Some (dist v))
    | _, _ => (itemFound v, itemDist v)
    end in
  mkVisionData (direction v) (dist v) foodFound' itemFound' itemDist'
    (bodyFound v) (wallFound v) curr.

(** The [while] loop of one ray; [n] bounds the number of rounds. *)
Fixpoint castRay (n : nat) (g : SnakeGame) (target dir curr : Point)
    (v : VisionData) : Point * VisionData :=
  match n with
  | O => (curr, v)
  | S n' =>
      if inGrid curr then
        let v := look g target curr v in
        if hitsSnake (snake (state g)) curr then
          (curr,
           mkVisionData (direction v) (dist v) (foodFound v) (itemFound v)
             (itemDist v) true (wallFound v) (v_point v))
        else if wallAt (wallMap g) (p_x curr) (p_y curr) then
          (curr,
           mkVisionData (direction v) (dist v) (foodFound v) (itemFound v)
             (itemDist v) (bodyFound v) true (v_point v))
        else
          castRay n' g target dir
            (mkPoint (p_x curr + p_x dir) (p_y curr + p_y dir))
            (mkVisionData (direction v) (dist v + 1) (foodFound v)
               (itemFound v) (itemDist v) (bodyFound v) (wallFound v)
               (v_point v))
      else (curr, v)
  end.

(** The callback of [rayDirs.map]: one ray from [head], with [n] rounds of
    the loop at most. *)
Definition ray (n : nat) (g : SnakeGame) (head dir : Point) : VisionData :=
  let curr := mkPoint (p_x head + p_x dir) (p_y head + p_y dir) in
  let '(curr, v) :=
    castRay n g (visionTarget (state g)) dir curr
      (mkVisionData dir 1 false None None false false curr) in
  if negb (wallFound v) && negb (inGrid curr) then
    mkVisionData (direction v) (dist v) (foodFound v) (itemFound v)
      (itemDist v) (bodyFound v) true (v_point v)
  else v.

(** [getVisionExtended()]; a [TypeError] when the body is empty.  A ray
    leaves the board within [GRID_SIZE] rounds. *)
Definition getVisionExtended (g : SnakeGame) : option (list VisionData) :=
  match snake (state g) with
  | [] => None
  | head :: _ => Some (map (ray (Z.to_nat GRID_SIZE) g head) rayDirs)
  end.

(** The cell [k] steps from [h] in the direction [dir]. *)
Definition rayCell (h dir : Point) (k : Z) : Point :=
  mkPoint (p_x h + k * p_x dir) (p_y h + k * p_y dir).

(** The number of rounds after which a ray at [curr] has left the board. *)
Definition roundsLeft (dir curr : Point) : Z :=
  if p_x dir =? 0 then
    if p_y dir =? 1 then GRID_SIZE - p_y curr else p_y curr + 1
  else if p_x dir =? 1 then GRID_SIZE - p_x curr else p_x curr + 1.

(** ** App.tsx: the training loop of [animate] *)

(** What the loop reads and writes: the agent [qAgentRef.current], the two
    histories, the count of cleared levels and the local [batchEpisodes]. *)
Record Host : Type := mkHost {
  qAgent : Agent;
  localScoreHistory : list Z;
  localEpsilonHistory : list Q;
  levelClears : Z;
  batchEpisodes : Z
}.

(** [h.push(x); if (h.length > 500) h.shift();] *)
Definition pushCapped {A : Type} (x : A) (h : list A) : list A :=
  let h := h ++ [x] in
  if 500 <? Z.of_nat (length h) then tail h else h.

(** Lines 224-232: the bookkeeping of a finished episode. *)
Definition recordEpisode (t : Host) : Host :=
  let sh :=
    pushCapped (score (state (game (qAgent t)))) (localScoreHistory t) in
  let eh :=
    if Z.rem (Z.of_nat (length sh)) 8 =? 0
    then pushCapped (epsilon (qAgent t)) (localEpsilonHistory t)
    else localEpsilonHistory t in
  mkHost (qAgent t) sh eh (levelClears t) (batchEpisodes t + 1).

Section HostLoop.

Variable Math_sin : Q -> Q.

(** Lines 222-238: one round of the loop. *)
Definition iteration (t : Host) (r : RNG) : option Host * RNG :=
  let '(t, r) :=
    if isGameOver (state (game (qAgent t))) then
      let t := recordEpisode t in
      let '(a, r) := reset Math_sin (qAgent t) r in
      (mkHost a (localScoreHistory t) (localEpsilonHistory t) (levelClears t)
         (batchEpisodes t), r)
    else (t, r) in
  let oldLevel := level (state (game (qAgent t))) in
  match update Math_sin (qAgent t) r with
  | (Some a, r) =>
      (Some (mkHost a (localScoreHistory t) (localEpsilonHistory t)
               (if oldLevel <? level (state (game a))
                then levelClears t + 1 else levelClears t)
               (batchEpisodes t)), r)
  | (None, r) => (None, r)
  end.

(** [for (let i = 0; i < n; i++)] *)
Fixpoint iterations (n : nat) (t : Host) (r : RNG) : option Host * RNG :=
  match n with
  | O => (Some t, r)
  | S n' =>
      match iteration t r with
      | (Some t', r') => iterations n' t' r'
      | (None, r') => (None, r')
      end
  end.

End HostLoop.

(** ** Saving the agent to the key-value store *)

Section Save.

(** [JSON.stringify(Object.fromEntries(qTable))] and [toString] on a number
    that is not an integer are left to the platform. *)
Variable JSON_stringify : gmap string QValues -> string.
Variable Number_toString : Q -> string.

(** [saveToStorage()]: three calls of [localStorage.setItem], on a store
    that accepts every item.  The lifetime step count is an integer, which
    [toString] writes in decimal digits (exactly so up to [2^53], the
    integers a number holds one by one). *)
Definition saveToStorage (a : Agent) (localStorage : gmap string string)
    : gmap string string :=
  let localStorage :=
    <["qs_v6_qtable" := JSON_stringify (qTable a)]> localStorage in
  let localStorage :=
    <["qs_v6_epsilon" := Number_toString (epsilon a)]> localStorage in
  <["qs_v6_steps" := pretty (totalStepsEver a)]> localStorage.

End Save.

(** A cell of the board. *)
Definition inBoard (p : Point) : Prop :=
  0 <= p_x p < GRID_SIZE /\ 0 <= p_y p < GRID_SIZE.

(** A cache of thirty rows of thirty cells. *)
Definition boardShaped (wm : WallMap) : Prop :=
  length wm = Z.to_nat GRID_SIZE /\
  Forall (fun row => length row = Z.to_nat GRID_SIZE) wm.

(** The part of [step] below the two early exits (lines 214-265), on the
    candidate head: the reward, the game and the random source it leaves. *)
Definition moveOn (g : SnakeGame) (head : Point) (r : RNG)
    : Q * SnakeGame * RNG :=
  let st := tick (state g) in
  let p := pickItem st head (head :: snake st) (-0.05)%Q in
  let e := eatFood g p.1.1 head p.1.2 p.2 r in
  let s := spawnItem g e.1.1.1 e.1.1.2 e.2 in
  (e.1.2, mkGame (set_snake e.1.1.2 (expireItems s.1)) (wallMap g), s.2).

(** The number of segments a picked item cuts off a body of [len]
    segments. *)
Definition cutOf (o : option SpecialItem) (len : nat) : nat :=
  match o with
  | Some it =>
      match type it with
      | SCISSORS => Z.to_nat (Z.min 3 (Z.max 0 (Z.of_nat len - 5)))
      | _ => 0%nat
      end
  | None => 0%nat
  end.

(** The reward a picked item sets. *)
Definition itemReward (o : option SpecialItem) (reward : Q) : Q :=
  match o with
  | Some it =>
      match type it with
      | GOLD => 60%Q | SCISSORS => 40%Q | ICE => 15%Q | FOOD => reward
      end
  | None => reward
  end.

(** Two cells that share a side. *)
Definition adjacent (p q : Point) : Prop := manhattan p q = 1.

(** A list of cells in which each one shares a side with the next. *)
Fixpoint connected (l : list Point) : Prop :=
  match l with
  | p :: (q :: _) as l' => adjacent p q /\ connected l'
  | _ => True
  end.

(** A cell of the board that the cache does not mark as an obstacle. *)
Definition freeCell (g : SnakeGame) (p : Point) : Prop :=
  inBoard p /\ wallAt (wallMap g) (p_x p) (p_y p) = false.

(** The body: at least three segments, no cell twice, each segment next to
    the following one, every segment on a free cell. *)
Definition bodyOk (g : SnakeGame) : Prop :=
  (3 <= length (snake (state g)))%nat /\
  NoDup (snake (state g)) /\
  connected (snake (state g)) /\
  Forall (freeCell g) (snake (state g)).

(** An item: on the board, of one of the three spawned types, and with an
    expiry step at most 150 steps ahead that has not passed. *)
Definition itemOk (st : GameState) (it : SpecialItem) : Prop :=
  inBoard (point it) /\ In (type it) itemTypes /\
  steps st <= expires it <= steps st + 150 /\
  (isGameOver st = false -> steps st < expires it).

Definition itemsOk (st : GameState) : Prop :=
  (length (specialItems st) <= 3)%nat /\ Forall (itemOk st) (specialItems st).

(** A cell the bounded search has placed: on the board, and off the
    obstacles unless it is the corner (0, 0). *)
Definition placedOk (g : SnakeGame) (p : Point) : Prop :=
  inBoard p /\
  (p = mkPoint 0 0 \/ wallAt (wallMap g) (p_x p) (p_y p) = false).

(** The portal is open exactly when the progress of the level has reached
    [LEVEL_GOAL], and has a cell exactly when it is open. *)
Definition portalOk (g : SnakeGame) : Prop :=
  portalOpen (state g) = (LEVEL_GOAL <=? itemsCollectedInLevel (state g)) /\
  match portalPoint (state g) with
  | Some pp => portalOpen (state g) = true /\ placedOk g pp
  | None => portalOpen (state g) = false
  end.

Definition goalOk (g : SnakeGame) : Prop :=
  placedOk g (food (state g)) /\
  (food (state g) = mkPoint 0 0 \/ ~ In (food (state g)) (snake (state g))).

Definition countersOk (st : GameState) : Prop :=
  0 <= itemsCollectedInLevel st <= score st /\
  0 <= slowEffectSteps st <= 20 /\
  0 <= steps st /\
  steps st <= maxSteps + 50 * score st + (if isGameOver st then 1 else 0).

(** What holds of every game a host can observe. *)
Definition gameInv (g : SnakeGame) : Prop :=
  cacheCurrent g /\ bodyOk g /\ itemsOk (state g) /\ portalOk g /\
  goalOk g /\ countersOk (state g).

Section Observable.

Variable Math_sin : Q -> Q.

(** The games a host can observe when other code draws from the random
    source between the calls: a constructed game, and every game a call of
    [step] leaves behind, whatever the position of the random source. *)
Inductive observable : SnakeGame -> Prop :=
  | observable_new (lvl : Z) (r : RNG) :
      observable (newSnakeGame Math_sin lvl r).1
  | observable_step (d : Direction) (g g' : SnakeGame) (r r' : RNG) (rw : Q) :
      observable g -> step Math_sin d g r = (Some (rw, g'), r') ->
      observable g'.

End Observable.

(** A bound on the action values: 250.8, the largest shaped reward in
    absolute value, over [1 - gamma]. *)
Definition valueBound : Q := 5016.

Definition boundedValues (q : QValues) : Prop :=
  forall d, (- valueBound <= qGet q d <= valueBound)%Q.

Definition boundedTable (a : Agent) : Prop :=
  forall k q, qTable a !! k = Some q -> boundedValues q.

(** ** Concrete inputs *)

(** A stand-in for the platform's sine in runs that stay on levels 1 to 3,
    where [getLevelWalls] never calls it. *)
Definition sineUnused : Q -> Q := fun _ => 0%Q.

Definition oneSixth : Unit01 := mkUnit01 (1 # 6) eq_refl.

(** The random source whose every draw is 1/6: every sampled cell is
    (5, 5). *)
Definition sixths : RNG := mkRNG (fun _ => oneSixth) 0.

(** [n] moves around the four cells next to the spawn point. *)
Fixpoint circling (n : nat) : list Direction :=
  match n with
  | O => []
  | S n' =>
      circling n' ++
      [match (n' mod 4)%nat with
       | 0%nat => UP | 1%nat => RIGHT | 2%nat => DOWN | _ => LEFT
       end]
  end.

(** A terminal game: a fresh level-1 state with the flag set. *)
Definition overGame : SnakeGame :=
  mkGame (set_isGameOver true (getInitialState sineUnused 1)) [].

(** Draws of the random source. *)
Definition zero01 : Unit01 := mkUnit01 0 eq_refl.
Definition tenth : Unit01 := mkUnit01 (1 # 10) eq_refl.
Definition half : Unit01 := mkUnit01 (1 # 2) eq_refl.
Definition u_9_20 : Unit01 := mkUnit01 (9 # 20) eq_refl.
Definition u_29_60 : Unit01 := mkUnit01 (29 # 60) eq_refl.
Definition u_7_12 : Unit01 := mkUnit01 (7 # 12) eq_refl.
Definition u_11_60 : Unit01 := mkUnit01 (11 # 60) eq_refl.
Definition fifth : Unit01 := mkUnit01 (1 # 5) eq_refl.
Definition u_17_100 : Unit01 := mkUnit01 (17 # 100) eq_refl.
Definition u_9_50 : Unit01 := mkUnit01 (9 # 50) eq_refl.
Definition u_3_10 : Unit01 := mkUnit01 (3 # 10) eq_refl.
Definition u_2_5 : Unit01 := mkUnit01 (2 # 5) eq_refl.
Definition u_9_10 : Unit01 := mkUnit01 (9 # 10) eq_refl.

(** The random source that yields the draws of [l], then zeros. *)
Definition tapeOf (l : list Unit01) : nat -> Unit01 := fun n => nth n l zero01.

(** The game a host gets by constructing a level and calling [step] along
    [ds]. *)
Definition afterRun (sine : Q -> Q) (lvl : Z) (r : RNG) (ds : list Direction)
    : option (SnakeGame * RNG) :=
  let '(g, r) := newSnakeGame sine lvl r in
  match stepMany sine ds g r with
  | (Some (_, g'), r') => Some (g', r')
  | (None, _) => None
  end.

(** *** A gold item on the goal cell

    From a fresh level 1: the goal is placed on (5, 5); the body circles for
    75 steps; at step 75 the spawn test succeeds, the type drawn is [GOLD]
    and the cell sampled is (5, 5) again; the body then walks to the cell
    below it.  The two draws that follow relocate the goal to (9, 12). *)
Definition goldTape : nat -> Unit01 :=
  tapeOf [oneSixth; u_11_60; tenth; fifth; u_17_100; u_9_50; u_3_10; u_2_5].

Definition goldPath : list Direction :=
  circling 75 ++ repeat LEFT 11 ++ repeat UP 9.

Definition goldOnGoal : SnakeGame :=
  mkGame
    {| snake := [mkPoint 5 6; mkPoint 5 7; mkPoint 5 8];
       food := mkPoint 5 5;
       specialItems := [mkItem (mkPoint 5 5) GOLD 225];
       walls := [];
       score := 0;
       level := 1;
       itemsCollectedInLevel := 0;
       isGameOver := false;
       steps := 95;
       slowEffectSteps := 0;
       portalOpen := false;
       portalPoint := None |}
    emptyBoard.

Definition goldOnGoalRNG : RNG := mkRNG goldTape 6.

(** *** Scissors in front of a body of five

    From a fresh level 1: two goals eaten in the first two steps, twelve
    rounds on a ring of six cells, and at step 75 a [SCISSORS] item spawned
    on the cell in front of the head. *)
Definition scissorsTape : nat -> Unit01 :=
  tapeOf [half; u_29_60; half; u_9_20; u_9_10; u_9_10;
          tenth; half; u_7_12; u_9_20].

Definition scissorsPath : list Direction :=
  [UP; UP] ++ concat (repeat [RIGHT; RIGHT; DOWN; LEFT; LEFT; UP] 12) ++ [RIGHT].

Definition scissorsAhead : SnakeGame :=
  mkGame
    {| snake := [mkPoint 16 13; mkPoint 15 13; mkPoint 15 14;
                 mkPoint 16 14; mkPoint 17 14];
       food := mkPoint 27 27;
       specialItems := [mkItem (mkPoint 17 13) SCISSORS 225];
       walls := [];
       score := 2;
       level := 1;
       itemsCollectedInLevel := 2;
       isGameOver := false;
       steps := 75;
       slowEffectSteps := 0;
       portalOpen := false;
       portalPoint := None |}
    emptyBoard.

Definition scissorsAheadRNG : RNG := mkRNG scissorsTape 10.

(** *** Agents *)

(** The agent a host constructs under [sixths]: goal on (5, 5). *)
Definition freshAgent : Agent := (newAgent sineUnused sixths).1.
Definition freshAgentRNG : RNG := (newAgent sineUnused sixths).2.

(** The same episode seen later: other step count, score, progress and
    item list. *)
Definition freshAgentLater : Agent :=
  mkAgent (<["CC00000000N" := mkQValues 1 2 3 4]> ∅) 0.5
    (mkGame
       (set_steps 40 (set_score 7 (set_itemsCollectedInLevel 3
          (set_specialItems [mkItem (mkPoint 2 2) ICE 90]
             (state (game freshAgent))))))
       (wallMap (game freshAgent)))
    12 1000.

(** An agent whose goal is the cell above the head, and the draws that
    make it explore, go [UP], and relocate the goal to (27, 27). *)
Definition shapingTape : nat -> Unit01 :=
  tapeOf [half; u_29_60; tenth; tenth; u_9_10; u_9_10].
Definition shapingAgent : Agent := (newAgent sineUnused (mkRNG shapingTape 0)).1.
Definition shapingRNG : RNG := (newAgent sineUnused (mkRNG shapingTape 0)).2.

(** [JSON.parse] on the one text [[1,2]]. *)
Definition parsePair : string -> option Persist.JSON := fun s =>
  if String.eqb s "[1,2]"
  then Some (Persist.JArr [Persist.JNum 1; Persist.JNum 2])
  else None.

(** An agent restored with an exploration rate just above the floor. *)
Definition nearFloorAgent : Agent := set_epsilon 0.0100000001 freshAgent.

(** The decision of [shapingAgent] under its draws. *)
Definition shapingAgentAfter : Agent :=
  default shapingAgent (update sineUnused shapingAgent shapingRNG).1.
Definition shapingRNGAfter : RNG :=
  (update sineUnused shapingAgent shapingRNG).2.

(** *** The sine at two arguments of level 8

    [8 * 1.618 + 12 * 12.9898 + 15 * 78.233 = 1342.3166] and
    [8 * 1.618 + 18 * 12.9898 + 13 * 78.233 = 1263.7894]; the sines of these
    two numbers, to fifteen decimals. *)
Definition sineAtLevel8 : Q -> Q := fun x =>
  if Qeq_bool x 1342.3166 then (-0.755578578033517)%Q
  else if Qeq_bool x 1263.7894 then 0.763782660661266%Q
  else 0%Q.

(** [goldOnGoal] twenty steps earlier, when the item has just been spawned,
    and one step later, when item and goal have been consumed together. *)
Definition goldSpawned : SnakeGame :=
  mkGame
    {| snake := [mkPoint 16 15; mkPoint 16 14; mkPoint 15 14];
       food := mkPoint 5 5;
       specialItems := [mkItem (mkPoint 5 5) GOLD 225];
       walls := [];
       score := 0;
       level := 1;
       itemsCollectedInLevel := 0;
       isGameOver := false;
       steps := 75;
       slowEffectSteps := 0;
       portalOpen := false;
       portalPoint := None |}
    emptyBoard.

Definition goldEaten : SnakeGame :=
  match (step sineUnused UP goldOnGoal goldOnGoalRNG).1 with
  | Some (_, g) => g
  | None => goldOnGoal
  end.

Definition goldEatenRNG : RNG := (step sineUnused UP goldOnGoal goldOnGoalRNG).2.


(** *** Inputs of the instances *)

(** A new game on level 2 under [sixths]: the ring of obstacles at distance
    5 of the centre, goal on (5, 5). *)
Definition ringGame : SnakeGame := (newSnakeGame sineUnused 2 sixths).1.

(** The ray of [goldOnGoal] that looks [UP]: item and goal on the next cell,
    the upper edge seven steps away. *)
Definition goldOnGoalUp : VisionData :=
  mkVisionData (mkPoint 0 (-1)) 7 true (Some GOLD) (Some 1) false true
    (mkPoint 5 0).

(** The ray of [goldOnGoal] that looks [DOWN], onto the second segment. *)
Definition goldOnGoalDown : VisionData :=
  mkVisionData (mkPoint 0 1) 1 false None None true false (mkPoint 5 7).

(** A host at the end of its first episode, with empty histories. *)
Definition firstEpisodeHost : Host :=
  mkHost (set_game overGame freshAgent) [] [] 0 0.

(** A host that has just been set up. *)
Definition freshHost : Host := mkHost freshAgent [] [] 0 0.

(** Platform functions that write the same text for every argument. *)
Definition stringifyConst : gmap string QValues -> string := fun _ => "{}".
Definition toStringConst : Q -> string := fun _ => "0.5".

(** *** An open portal

    From a fresh level 1: ten times in a row the goal is placed on the cell
    above the head and eaten by a step [UP]; the tenth step opens the portal
    on (27, 27) and moves the goal to (3, 3). *)
Definition u_5_12 : Unit01 := mkUnit01 (5 # 12) eq_refl.
Definition u_23_60 : Unit01 := mkUnit01 (23 # 60) eq_refl.
Definition u_7_20 : Unit01 := mkUnit01 (7 # 20) eq_refl.
Definition u_19_60 : Unit01 := mkUnit01 (19 # 60) eq_refl.
Definition u_17_60 : Unit01 := mkUnit01 (17 # 60) eq_refl.
Definition quarter : Unit01 := mkUnit01 (1 # 4) eq_refl.
Definition u_13_60 : Unit01 := mkUnit01 (13 # 60) eq_refl.

Definition portalTape : nat -> Unit01 :=
  tapeOf [half; u_29_60; half; u_9_20; half; u_5_12; half; u_23_60;
          half; u_7_20; half; u_19_60; half; u_17_60; half; quarter;
          half; u_13_60; half; u_11_60; u_9_10; u_9_10; tenth; tenth].

Definition portalOpened : SnakeGame :=
  mkGame
    {| snake := [mkPoint 15 5; mkPoint 15 6; mkPoint 15 7; mkPoint 15 8;
                 mkPoint 15 9; mkPoint 15 10; mkPoint 15 11; mkPoint 15 12;
                 mkPoint 15 13; mkPoint 15 14; mkPoint 15 15; mkPoint 15 16;
                 mkPoint 15 17];
       food := mkPoint 3 3;
       specialItems := [];
       walls := [];
       score := 10;
       level := 1;
       itemsCollectedInLevel := 10;
       isGameOver := false;
       steps := 10;
       slowEffectSteps := 0;
       portalOpen := true;
       portalPoint := Some (mkPoint 27 27) |}
    emptyBoard.

Definition portalOpenedRNG : RNG := mkRNG portalTape 24.

(** *** An agent restored from the store

    The agent a host constructs when the store holds a table with an entry
    for the first state, the exploration rate 0.5 and the step count 1000;
    its first decision under the draws of [shapingTape]; and a host that
    holds it together with the histories of two episodes. *)
Definition restoredStart : Agent :=
  (restoredAgent sineUnused (<["CU01000100U" := mkQValues 1 2 3 4]> ∅) 0.5
     1000 (mkRNG shapingTape 0)).1.
Definition restoredStartRNG : RNG :=
  (restoredAgent sineUnused (<["CU01000100U" := mkQValues 1 2 3 4]> ∅) 0.5
     1000 (mkRNG shapingTape 0)).2.

Definition restoredAfter : Agent :=
  default restoredStart (update sineUnused restoredStart restoredStartRNG).1.
Definition restoredAfterRNG : RNG :=
  (update sineUnused restoredStart restoredStartRNG).2.

Definition restoredHost : Host := mkHost restoredStart [7; 3] [0.5%Q] 2 0.

(** * Properties *)

(** ** Auxiliary facts *)

Lemma Qltb_lt (a b : Q) : Qltb a b = true <-> (a < b)%Q.
Proof.
  unfold Qltb. rewrite negb_true_iff. split.
  - intros H. apply Qnot_le_lt. intros Hle.
    apply Qle_bool_iff in Hle. congruence.
  - intros H. destruct (Qle_bool b a) eqn:E; [|reflexivity].
    apply Qle_bool_iff in E. exfalso. exact (Qlt_not_le _ _ H E).
Qed.

Lemma Qltb_ge (a b : Q) : Qltb a b = false <-> (b <= a)%Q.
Proof.
  unfold Qltb. rewrite negb_false_iff. apply Qle_bool_iff.
Qed.

Lemma point_eqb_eq (p q : Point) : point_eqb p q = true <-> p = q.
Proof.
  unfold point_eqb. rewrite andb_true_iff, !Z.eqb_eq.
  destruct p, q; simpl. split.
  - intros [-> ->]. reflexivity.
  - intros H. injection H. auto.
Qed.

Lemma point_eqb_refl (p : Point) : point_eqb p p = true.
Proof. apply point_eqb_eq. reflexivity. Qed.

Lemma getRandomEmptyPoint_loop_placed (n : nat) (wm : WallMap) (sn : list Point)
    (items : list SpecialItem) (r : RNG) :
  placedCell wm sn items (fst (getRandomEmptyPoint_loop n wm sn items r)).
Proof.
  revert r. induction n as [|n IH]; intros r; cbn [getRandomEmptyPoint_loop].
  - left. reflexivity.
  - destruct (randomBelow GRID_SIZE r) as [x r1].
    destruct (randomBelow GRID_SIZE r1) as [y r2].
    destruct (wallAt wm x y) eqn:Hw; [apply IH|].
    destruct (hitsSnake sn (mkPoint x y)) eqn:Hs; [apply IH|].
    destruct (hitsItems items (mkPoint x y)) eqn:Hi; [apply IH|].
    right. repeat split; assumption.
Qed.

Lemma getRandomEmptyPoint_placed (g : SnakeGame) (sn ws : list Point)
    (items : list SpecialItem) (r : RNG) :
  placedCell (wallMap g) sn items (fst (getRandomEmptyPoint g sn ws items r)).
Proof. apply getRandomEmptyPoint_loop_placed. Qed.

Lemma sampleAt_next (r : RNG) (j : nat) :
  sampleAt (mkRNG (tape r) (S (S (pos r)))) j = sampleAt r (S j).
Proof.
  unfold sampleAt. cbn [tape pos].
  replace (S (S (pos r)) + 2 * j)%nat with (pos r + 2 * S j)%nat by lia.
  reflexivity.
Qed.

Lemma searched_placed (wm : WallMap) (sn : list Point)
    (items : list SpecialItem) (r : RNG) (res : Point * RNG) :
  searched wm sn items r res -> placedCell wm sn items res.1.
Proof.
  intros [(k & _ & Ho & _ & ->)|(_ & ->)]; [right; exact Ho|left; reflexivity].
Qed.

Lemma getRandomEmptyPoint_loop_searched (n : nat) (wm : WallMap)
    (sn : list Point) (items : list SpecialItem) (r : RNG) :
  searchedWithin n wm sn items r (getRandomEmptyPoint_loop n wm sn items r).
Proof.
  revert r. induction n as [|n IH]; intros r; cbn [getRandomEmptyPoint_loop].
  - right. split; [intros j Hj; lia|].
    destruct r as [t p]. cbn [tape pos]. do 2 f_equal. lia.
  - unfold randomBelow, Math_random. cbn [tape pos].
    assert (H0 : sampleAt r 0
                 = mkPoint
                     (Qfloor (u_val (tape r (pos r)) * inject_Z GRID_SIZE))
                     (Qfloor (u_val (tape r (S (pos r))) * inject_Z GRID_SIZE))).
    { unfold sampleAt. now rewrite Nat.mul_0_r, Nat.add_0_r. }
    set (x := Qfloor (u_val (tape r (pos r)) * inject_Z GRID_SIZE)) in *.
    set (y := Qfloor (u_val (tape r (S (pos r))) * inject_Z GRID_SIZE)) in *.
    set (r2 := {| tape := tape r; pos := S (S (pos r)) |}).
    assert (Hrec :
      ~ isOpenCell wm sn items (mkPoint x y) ->
      searchedWithin (S n) wm sn items r
        (getRandomEmptyPoint_loop n wm sn items r2)).
    { intros Hno.
      destruct (IH r2) as [(k & Hk & Ho & Hfirst & ->)|(Hnone & ->)].
      - left. exists (S k). split; [lia|].
        split; [rewrite <- sampleAt_next; exact Ho|].
        split.
        + intros [|j] Hj; [rewrite H0; exact Hno|].
          rewrite <- sampleAt_next. apply Hfirst. lia.
        + subst r2. rewrite sampleAt_next. cbn [tape pos].
          do 2 f_equal. lia.
      - right. split.
        + intros [|j] Hj; [rewrite H0; exact Hno|].
          rewrite <- sampleAt_next. apply Hnone. lia.
        + subst r2. cbn [tape pos]. do 2 f_equal. lia. }
    destruct (wallAt wm x y) eqn:Hw.
    { apply Hrec. intros (Hw' & _). cbn [p_x p_y] in Hw'. congruence. }
    destruct (hitsSnake sn (mkPoint x y)) eqn:Hs.
    { apply Hrec. intros (_ & Hs' & _). congruence. }
    destruct (hitsItems items (mkPoint x y)) eqn:Hi.
    { apply Hrec. intros (_ & _ & Hi'). congruence. }
    left. exists O. split; [lia|]. rewrite H0.
    split; [repeat split; assumption|].
    split; [intros j Hj; lia|].
    do 2 f_equal. lia.
Qed.

Lemma getRandomEmptyPoint_searched (g : SnakeGame) (sn ws : list Point)
    (items : list SpecialItem) (r : RNG) :
  searched (wallMap g) sn items r (getRandomEmptyPoint g sn ws items r).
Proof. apply getRandomEmptyPoint_loop_searched. Qed.

Lemma tick_fields (st : GameState) :
  snake (tick st) = snake st /\ food (tick st) = food st /\
  specialItems (tick st) = specialItems st /\ walls (tick st) = walls st /\
  score (tick st) = score st /\ level (tick st) = level st /\
  itemsCollectedInLevel (tick st) = itemsCollectedInLevel st /\
  isGameOver (tick st) = isGameOver st /\ steps (tick st) = steps st + 1 /\
  portalOpen (tick st) = portalOpen st /\ portalPoint (tick st) = portalPoint st.
Proof.
  unfold tick. destruct (0 <? _); simpl; repeat split; reflexivity.
Qed.

Lemma length_popN (k : nat) (l : list Point) :
  length (popN k l) = (length l - k)%nat.
Proof.
  revert l. induction k as [|k IH]; intros l; simpl.
  - lia.
  - rewrite IH, removelast_firstn_len, length_take. lia.
Qed.

Lemma pickItem_fields (st : GameState) (head : Point) (ns : list Point) (rw : Q) :
  let st' := (pickItem st head ns rw).1.1 in
  snake st' = snake st /\ food st' = food st /\ walls st' = walls st /\
  level st' = level st /\
  itemsCollectedInLevel st' = itemsCollectedInLevel st /\
  isGameOver st' = isGameOver st /\ steps st' = steps st /\
  portalOpen st' = portalOpen st /\ portalPoint st' = portalPoint st /\
  score st' = score st + itemScore (pickedItem (specialItems st) head) /\
  specialItems st' = remainingItems (specialItems st) head.
Proof.
  unfold pickItem, pickedItem, remainingItems.
  destruct (findPicked (specialItems st) head) as [i|]; simpl.
  - destruct (specialItems st !! i) as [it|] eqn:E; simpl.
    + unfold applyItem, itemScore. destruct (type it); simpl; repeat split; lia.
    + repeat split; lia.
  - repeat split; lia.
Qed.

(** Only the item list changes in the spawn and expiry stages. *)
Lemma spawnItem_frame (g : SnakeGame) (st : GameState) (ns : list Point) (r : RNG) :
  (spawnItem g st ns r).1 = set_specialItems (specialItems (spawnItem g st ns r).1) st.
Proof.
  unfold spawnItem.
  destruct (Z.rem (steps st) 75 =? 0); [|destruct st; reflexivity].
  destruct (Math_random r) as [u r1].
  destruct (Qltb u 0.3 && _); [|destruct st; reflexivity].
  destruct (randomBelow _ r1) as [k r2].
  destruct (itemTypes !! Z.to_nat k); [|destruct st; reflexivity].
  destruct (getRandomEmptyPoint _ _ _ _ _) as [p r3]. reflexivity.
Qed.

(** ** The step operation on a terminal game *)

Section StepFacts.

Variable Math_sin : Q -> Q.

Lemma step_over (d : Direction) (g : SnakeGame) (r : RNG) :
  isGameOver (state g) = true ->
  step Math_sin d g r = (Some ((-20)%Q, g), r).
Proof. intros H. unfold step. rewrite H. reflexivity. Qed.

(** C1. On a game whose terminal flag is set, [step] returns -20 whatever
    the direction, and the game (every field of the episode state, the
    obstacle cache) and the random source are the ones it was given; hence any
    sequence of calls returns -20 each time and changes nothing. *)
Theorem step_terminal_is_noop (g : SnakeGame) (r : RNG) :
  isGameOver (state g) = true ->
  (forall d, step Math_sin d g r = (Some ((-20)%Q, g), r)) /\
  (forall ds,
     stepMany Math_sin ds g r
     = (Some (map (fun _ => (-20)%Q) ds, g), r)).
Proof.
  intros Hover. split.
  - intros d. now apply step_over.
  - induction ds as [|d ds IH]; simpl.
    + reflexivity.
    + rewrite (step_over d g r Hover), IH. reflexivity.
Qed.

(** The part of [step] below the two early exits. *)
Lemma step_moves (d : Direction) (g : SnakeGame) (r : RNG) (h : Point) (tl : list Point) :
  isGameOver (state g) = false ->
  snake (state g) = h :: tl ->
  isDeadly g (tick (state g)) (moveHead d h) = false ->
  entersPortal (tick (state g)) (moveHead d h) = false ->
  step Math_sin d g r =
    (let head := moveHead d h in
     let '(st, newSnake, reward) :=
       pickItem (tick (state g)) head (head :: h :: tl) (-0.05)%Q in
     let '(st, newSnake, reward, r) := eatFood g st head newSnake reward r in
     let '(st, r) := spawnItem g st newSnake r in
     (Some (reward, mkGame (set_snake newSnake (expireItems st)) (wallMap g)), r)).
Proof.
  intros Hover Hsn Hdead Hportal. unfold step.
  rewrite Hover.
  destruct (tick_fields (state g)) as (Hs & _). rewrite Hs, Hsn.
  rewrite Hdead, Hportal. reflexivity.
Qed.

(** C2 (amended).  When the game is not over, the step neither kills nor
    enters the portal, and the candidate head is the goal cell, [step]
    returns exactly 30; the score grows by 1 on top of the value of the item
    picked up on that same cell, if there is one (15, 5 or 2), so by exactly
    1 when no item lies there; the per-level progress grows by 1; the portal
    is opened, at the cell the bounded random search returns, exactly when
    the new progress is at least 10 and the portal was closed, and is left
    alone otherwise; the goal moves to the cell the bounded random search
    returns next.  Such a cell is the first of the 500 samples of the search
    that is open (no obstacle, not on the new body, under no remaining
    item), and it is the cell (0, 0) only when none of the 500 samples is
    open. *)
Theorem step_goal_consumption (d : Direction) (g : SnakeGame) (r : RNG)
    (h : Point) (tl : list Point) :
  isGameOver (state g) = false ->
  snake (state g) = h :: tl ->
  isDeadly g (tick (state g)) (moveHead d h) = false ->
  entersPortal (tick (state g)) (moveHead d h) = false ->
  moveHead d h = food (state g) ->
  exists g' r',
    step Math_sin d g r = (Some (30%Q, g'), r') /\
    score (state g')
      = score (state g)
        + itemScore (pickedItem (specialItems (state g)) (moveHead d h)) + 1 /\
    itemsCollectedInLevel (state g') = itemsCollectedInLevel (state g) + 1 /\
    (if (LEVEL_GOAL <=? itemsCollectedInLevel (state g) + 1)
        && negb (portalOpen (state g))
     then portalOpen (state g') = true /\
          exists pp r1 r2,
            portalPoint (state g') = Some pp /\
            searched (wallMap g) (snake (state g'))
              (remainingItems (specialItems (state g)) (moveHead d h)) r
              (pp, r1) /\
            searched (wallMap g) (snake (state g'))
              (remainingItems (specialItems (state g)) (moveHead d h)) r1
              (food (state g'), r2)
     else portalOpen (state g') = portalOpen (state g) /\
          portalPoint (state g') = portalPoint (state g) /\
          exists r2,
            searched (wallMap g) (snake (state g'))
              (remainingItems (specialItems (state g)) (moveHead d h)) r
              (food (state g'), r2)).
Proof.
  intros Hover Hsn Hdead Hportal Hfood.
  rewrite (step_moves d g r h tl Hover Hsn Hdead Hportal). cbv zeta.
  pose proof (pickItem_fields (tick (state g)) (moveHead d h)
                (moveHead d h :: h :: tl) (-0.05)%Q) as HP.
  destruct (pickItem _ _ _ _) as [[st1 ns1] rw1]. simpl in HP.
  destruct HP as (P1 & P2 & P3 & P4 & P5 & P6 & P7 & P8 & P9 & P10 & P11).
  destruct (tick_fields (state g)) as (T1 & T2 & T3 & T4 & T5 & T6 & T7 & T8 & T9 & T10 & T11).
  rewrite T3 in P10, P11. rewrite T5 in P10. rewrite T2 in P2. rewrite T7 in P5.
  rewrite T10 in P8. rewrite T11 in P9.
  unfold eatFood.
  assert (Hf : point_eqb (moveHead d h) (food st1) = true).
  { apply point_eqb_eq. congruence. }
  rewrite Hf. simpl.
  rewrite P5, P8.
  destruct ((LEVEL_GOAL <=? itemsCollectedInLevel (state g) + 1)
            && negb (portalOpen (state g))) eqn:Hgoal.
  - simpl.
    pose proof (getRandomEmptyPoint_searched g ns1 (walls st1) (specialItems st1) r) as Hpp.
    destruct (getRandomEmptyPoint g ns1 (walls st1) (specialItems st1) r) as [pp r1].
    simpl.
    pose proof (getRandomEmptyPoint_searched g ns1 (walls st1) (specialItems st1) r1) as Hfd.
    destruct (getRandomEmptyPoint g ns1 (walls st1) (specialItems st1) r1) as [fd r2].
    match goal with |- context [spawnItem g ?s ?n ?rr] =>
      pose proof (spawnItem_frame g s n rr) as Hfr;
      destruct (spawnItem g s n rr) as [st3 r3] end.
    simpl in Hfr. eexists _, _. split; [reflexivity|].
    rewrite Hfr. simpl. rewrite P11 in *.
    split; [lia|]. split; [lia|]. split; [reflexivity|].
    exists pp, r1, r2. split; [reflexivity|]. split; assumption.
  - simpl.
    pose proof (getRandomEmptyPoint_searched g ns1 (walls st1) (specialItems st1) r) as Hfd.
    destruct (getRandomEmptyPoint g ns1 (walls st1) (specialItems st1) r) as [fd r2].
    match goal with |- context [spawnItem g ?s ?n ?rr] =>
      pose proof (spawnItem_frame g s n rr) as Hfr;
      destruct (spawnItem g s n rr) as [st3 r3] end.
    simpl in Hfr. eexists _, _. split; [reflexivity|].
    rewrite Hfr. simpl. rewrite P11 in *.
    split; [lia|]. split; [lia|]. split; [assumption|]. split; [assumption|].
    exists r2. assumption.
Qed.

Lemma reachable_stepMany (ds : list Direction) (g g' : SnakeGame)
    (r r' : RNG) (rws : list Q) :
  reachable Math_sin g r ->
  stepMany Math_sin ds g r = (Some (rws, g'), r') ->
  reachable Math_sin g' r'.
Proof.
  revert g r rws. induction ds as [|d ds IH]; intros g r rws Hg; simpl.
  - intros [= _ <- <-]. exact Hg.
  - destruct (step Math_sin d g r) as [[[rw g1]|] r1] eqn:E; [|discriminate].
    destruct (stepMany Math_sin ds g1 r1) as [[[rws1 g2]|] r2] eqn:E2;
      [|discriminate].
    intros [= _ <- <-]. eapply IH; [|exact E2].
    eapply reachable_step; [exact Hg|exact E].
Qed.

Lemma reachable_afterRun (lvl : Z) (r r' : RNG) (ds : list Direction)
    (g : SnakeGame) :
  afterRun Math_sin lvl r ds = Some (g, r') -> reachable Math_sin g r'.
Proof.
  unfold afterRun.
  pose proof (reachable_new Math_sin lvl r) as H0.
  destruct (newSnakeGame Math_sin lvl r) as [g0 r0]. simpl in H0.
  destruct (stepMany Math_sin ds g0 r0) as [[[rws g1]|] r1] eqn:E;
    [|discriminate].
  intros [= <- <-]. eapply reachable_stepMany; eassumption.
Qed.

End StepFacts.

(** An instance: the fresh level-1 state with the terminal flag set. *)
Lemma step_terminal_is_noop_witness :
  isGameOver (state overGame) = true /\
  (forall d, step sineUnused d overGame sixths = (Some ((-20)%Q, overGame), sixths)) /\
  (forall ds,
     stepMany sineUnused ds overGame sixths
     = (Some (map (fun _ => (-20)%Q) ds, overGame), sixths)).
Proof.
  split; [reflexivity|].
  apply (step_terminal_is_noop sineUnused overGame sixths). reflexivity.
Defined.

Lemma goldOnGoal_run :
  afterRun sineUnused 1 (mkRNG goldTape 0) goldPath
  = Some (goldOnGoal, goldOnGoalRNG).
Proof. vm_compute. reflexivity. Qed.

Lemma goldOnGoal_reachable : reachable sineUnused goldOnGoal goldOnGoalRNG.
Proof. exact (reachable_afterRun _ _ _ _ _ _ goldOnGoal_run). Qed.

(** An instance: [goldOnGoal], stepping [UP] onto the goal. *)
Lemma step_goal_consumption_witness :
  isGameOver (state goldOnGoal) = false /\
  moveHead UP (mkPoint 5 6) = food (state goldOnGoal) /\
  exists g' r',
    step sineUnused UP goldOnGoal goldOnGoalRNG = (Some (30%Q, g'), r') /\
    score (state g') = 0 + 15 + 1 /\
    itemsCollectedInLevel (state g') = 0 + 1 /\
    portalOpen (state g') = false /\
    exists r2,
      searched (wallMap goldOnGoal) (snake (state g')) [] goldOnGoalRNG
        (food (state g'), r2).
Proof.
  split; [reflexivity|]. split; [reflexivity|].
  destruct (step_goal_consumption sineUnused UP goldOnGoal goldOnGoalRNG
              (mkPoint 5 6) [mkPoint 5 7; mkPoint 5 8]
              eq_refl eq_refl eq_refl eq_refl eq_refl)
    as (g' & r' & H1 & H2 & H3 & H4).
  destruct H4 as (H4 & _ & r2 & H5).
  exists g', r'. split; [exact H1|]. split; [exact H2|]. split; [exact H3|].
  split; [exact H4|]. exists r2. exact H5.
Defined.

(** C2 (as stated) fails: in a game reached from a fresh level 1, the
    candidate head is the goal cell, the step neither kills nor enters the
    portal, and the score grows by 16, not by 1, because a [GOLD] item lies
    on the goal cell. *)
Lemma goal_under_gold_scores_16 :
  reachable sineUnused goldOnGoal goldOnGoalRNG /\
  isGameOver (state goldOnGoal) = false /\
  snake (state goldOnGoal) = [mkPoint 5 6; mkPoint 5 7; mkPoint 5 8] /\
  moveHead UP (mkPoint 5 6) = food (state goldOnGoal) /\
  isDeadly goldOnGoal (tick (state goldOnGoal)) (moveHead UP (mkPoint 5 6))
    = false /\
  entersPortal (tick (state goldOnGoal)) (moveHead UP (mkPoint 5 6)) = false /\
  option_map (fun x => (x.1, score (state x.2) - score (state goldOnGoal)))
    (step sineUnused UP goldOnGoal goldOnGoalRNG).1
  = Some (30%Q, 16).
Proof.
  split; [exact goldOnGoal_reachable|].
  repeat split; vm_compute; reflexivity.
Qed.

(** ** The cutting item *)

Section ScissorsFacts.

Variable Math_sin : Q -> Q.

Lemma pickItem_scissors (st : GameState) (head : Point) (ns : list Point)
    (rw : Q) (it : SpecialItem) :
  pickedItem (specialItems st) head = Some it ->
  type it = SCISSORS ->
  pickItem st head ns rw
  = (set_score (score st + 5)
       (set_specialItems (remainingItems (specialItems st) head) st),
     popN (Z.to_nat (Z.min 3 (Z.max 0 (Z.of_nat (length ns) - 5)))) ns,
     40%Q).
Proof.
  unfold pickedItem, pickItem, remainingItems. intros Hp Hty.
  destruct (findPicked (specialItems st) head) as [i|]; [|discriminate].
  rewrite Hp. unfold applyItem. rewrite Hty. reflexivity.
Qed.

(** C3 (amended).  When the game is not over, the step neither kills nor
    enters the portal, and the item picked up on the candidate head is a
    [SCISSORS] item, the score grows by 5 (and by 1 more if the goal lies on
    the same cell), the reward is 40 unless the goal is consumed in the same
    step, in which case it is 30, and the body is cut by at most 3 segments:
    the floor of 5 applies to the body with the new head in front, before the
    tail drop.  After the whole step a body of length [len] has length
    [max (min (len + 1) 5) (len - 2)], less 1 when no goal was consumed: for
    [len >= 5] that is at least 4, and at least 5 when the goal was
    consumed. *)
Theorem step_scissors (d : Direction) (g : SnakeGame) (r : RNG)
    (h : Point) (tl : list Point) (it : SpecialItem) :
  isGameOver (state g) = false ->
  snake (state g) = h :: tl ->
  isDeadly g (tick (state g)) (moveHead d h) = false ->
  entersPortal (tick (state g)) (moveHead d h) = false ->
  pickedItem (specialItems (state g)) (moveHead d h) = Some it ->
  type it = SCISSORS ->
  let eats := point_eqb (moveHead d h) (food (state g)) in
  let len := Z.of_nat (length (snake (state g))) in
  exists rw g' r',
    step Math_sin d g r = (Some (rw, g'), r') /\
    score (state g') = score (state g) + 5 + (if eats then 1 else 0) /\
    rw = (if eats then 30%Q else 40%Q) /\
    Z.of_nat (length (snake (state g')))
      = Z.max (Z.min (len + 1) 5) (len - 2) - (if eats then 0 else 1) /\
    (5 <= len ->
     4 <= Z.of_nat (length (snake (state g'))) /\
     (eats = true -> 5 <= Z.of_nat (length (snake (state g'))))).
Proof.
  intros Hover Hsn Hdead Hportal Hpick Hty eats len.
  rewrite (step_moves Math_sin d g r h tl Hover Hsn Hdead Hportal). cbv zeta.
  destruct (tick_fields (state g))
    as (T1 & T2 & T3 & T4 & T5 & T6 & T7 & T8 & T9 & T10 & T11).
  rewrite <- T3 in Hpick.
  rewrite (pickItem_scissors _ _ _ _ it Hpick Hty).
  set (ns := popN _ _).
  assert (Hlen : Z.of_nat (length ns) = Z.max (Z.min (len + 1) 5) (len - 2)).
  { subst ns len. rewrite length_popN, Hsn. simpl length. lia. }
  unfold eatFood. cbn [food set_score set_specialItems]. rewrite T2.
  fold eats. destruct eats.
  - cbn [score itemsCollectedInLevel portalOpen set_score
         set_itemsCollectedInLevel set_specialItems].
    match goal with |- context [if ?c then _ else _] => destruct c end.
    + destruct (getRandomEmptyPoint _ _ _ _ _) as [pp r1].
      destruct (getRandomEmptyPoint _ _ _ _ r1) as [fd r2].
      match goal with |- context [spawnItem g ?s ?n ?rr] =>
        pose proof (spawnItem_frame g s n rr) as Hfr;
        destruct (spawnItem g s n rr) as [st3 r3] end.
      simpl in Hfr. eexists _, _, _. split; [reflexivity|].
      rewrite Hfr. simpl. rewrite T5. repeat split; lia.
    + destruct (getRandomEmptyPoint _ _ _ _ _) as [fd r2].
      match goal with |- context [spawnItem g ?s ?n ?rr] =>
        pose proof (spawnItem_frame g s n rr) as Hfr;
        destruct (spawnItem g s n rr) as [st3 r3] end.
      simpl in Hfr. eexists _, _, _. split; [reflexivity|].
      rewrite Hfr. simpl. rewrite T5. repeat split; lia.
  - match goal with |- context [spawnItem g ?s ?n ?rr] =>
      pose proof (spawnItem_frame g s n rr) as Hfr;
      destruct (spawnItem g s n rr) as [st3 r3] end.
    simpl in Hfr. eexists _, _, _. split; [reflexivity|].
    rewrite Hfr. simpl. rewrite T5.
    rewrite removelast_firstn_len, length_take.
    repeat split; lia.
Qed.

End ScissorsFacts.

Lemma scissorsAhead_run :
  afterRun sineUnused 1 (mkRNG scissorsTape 0) scissorsPath
  = Some (scissorsAhead, scissorsAheadRNG).
Proof. vm_compute. reflexivity. Qed.

Lemma scissorsAhead_reachable :
  reachable sineUnused scissorsAhead scissorsAheadRNG.
Proof. exact (reachable_afterRun _ _ _ _ _ _ scissorsAhead_run). Qed.

(** An instance: [scissorsAhead], stepping [RIGHT] onto the item. *)
Lemma step_scissors_witness :
  isGameOver (state scissorsAhead) = false /\
  pickedItem (specialItems (state scissorsAhead)) (moveHead RIGHT (mkPoint 16 13))
    = Some (mkItem (mkPoint 17 13) SCISSORS 225) /\
  exists rw g' r',
    step sineUnused RIGHT scissorsAhead scissorsAheadRNG = (Some (rw, g'), r') /\
    score (state g') = 2 + 5 + 0 /\
    rw = 40%Q /\
    Z.of_nat (length (snake (state g'))) = 4.
Proof.
  split; [reflexivity|]. split; [reflexivity|].
  destruct (step_scissors sineUnused RIGHT scissorsAhead scissorsAheadRNG
              (mkPoint 16 13)
              [mkPoint 15 13; mkPoint 15 14; mkPoint 16 14; mkPoint 17 14]
              (mkItem (mkPoint 17 13) SCISSORS 225)
              eq_refl eq_refl eq_refl eq_refl eq_refl eq_refl)
    as (rw & g' & r' & H1 & H2 & H3 & H4 & _).
  exists rw, g', r'. split; [exact H1|]. split; [exact H2|].
  split; [exact H3|exact H4].
Defined.

(** C3 (as stated) fails: in a game reached from a fresh level 1 the body
    has length 5, the candidate head lands on a [SCISSORS] item and not on
    the goal, and after the step the body has length 4. *)
Lemma scissors_leave_four :
  reachable sineUnused scissorsAhead scissorsAheadRNG /\
  isGameOver (state scissorsAhead) = false /\
  length (snake (state scissorsAhead)) = 5%nat /\
  pickedItem (specialItems (state scissorsAhead)) (moveHead RIGHT (mkPoint 16 13))
    = Some (mkItem (mkPoint 17 13) SCISSORS 225) /\
  option_map (fun x => (x.1, isGameOver (state x.2), length (snake (state x.2))))
    (step sineUnused RIGHT scissorsAhead scissorsAheadRNG).1
  = Some (40%Q, false, 4%nat).
Proof.
  split; [exact scissorsAhead_reachable|].
  repeat split; vm_compute; reflexivity.
Qed.

(** ** The random source and the obstacle cache *)

(** [Math.floor(Math.random() * n)] is an index below [n]. *)
Lemma randomBelow_range (n : Z) (r : RNG) :
  0 < n -> 0 <= (randomBelow n r).1 < n.
Proof.
  intros Hn. unfold randomBelow, Math_random. cbn [fst].
  pose proof (u_range (tape r (pos r))) as Hu.
  apply andb_true_iff in Hu as [H0 H1].
  apply Qle_bool_iff in H0. apply Qltb_lt in H1.
  set (u := u_val (tape r (pos r))) in *.
  assert (Hn' : (0 < inject_Z n)%Q).
  { change 0%Q with (inject_Z 0). rewrite <- Zlt_Qlt. exact Hn. }
  split.
  - change 0 with (Qfloor 0). apply Qfloor_resp_le.
    apply Qmult_le_0_compat; [exact H0|]. now apply Qlt_le_weak.
  - rewrite Zlt_Qlt. eapply Qle_lt_trans; [apply Qfloor_le|].
    rewrite <- (Qmult_1_l (inject_Z n)) at 2.
    apply Qmult_lt_compat_r; assumption.
Qed.

(** The cache [wallMap] a list of obstacles determines. *)
Lemma clearWallMap_markWall (wm : WallMap) (w : Point) :
  clearWallMap (markWall wm w) = clearWallMap wm.
Proof.
  unfold markWall. destruct (_ && _); [|reflexivity].
  unfold clearWallMap, WallMap in *. apply list_eq. intros i.
  rewrite !list_lookup_fmap.
  destruct (decide (i = Z.to_nat (p_y w))) as [->|Hne].
  - rewrite list_lookup_alter_eq.
    destruct (wm !! Z.to_nat (p_y w)) as [row|]; [|reflexivity].
    cbn. f_equal. apply list_eq. intros j.
    rewrite !list_lookup_fmap.
    destruct (decide (j = Z.to_nat (p_x w))) as [->|Hne].
    + destruct (row !! Z.to_nat (p_x w)) eqn:E.
      * rewrite list_lookup_insert_eq by (eapply lookup_lt_Some; eassumption).
        reflexivity.
      * rewrite list_insert_ge by (now apply lookup_ge_None). now rewrite E.
    + now rewrite list_lookup_insert_ne by congruence.
  - now rewrite list_lookup_alter_ne by congruence.
Qed.

Lemma clearWallMap_fold (ws : list Point) (wm : WallMap) :
  clearWallMap (fold_left markWall ws wm) = clearWallMap wm.
Proof.
  revert wm. induction ws as [|w ws IH]; intros wm; simpl; [reflexivity|].
  rewrite IH. apply clearWallMap_markWall.
Qed.

Lemma clearWallMap_emptyBoard : clearWallMap emptyBoard = emptyBoard.
Proof. reflexivity. Qed.

Lemma updateWallMap_cache (g : SnakeGame) (r : RNG) :
  clearWallMap (wallMap g) = emptyBoard ->
  cacheCurrent (updateWallMap g r).1.
Proof.
  intros Hc. unfold updateWallMap, cacheCurrent.
  destruct (getRandomEmptyPoint _ _ _ _ _) as [f r1]. cbn. now rewrite Hc.
Qed.

Lemma cacheCurrent_clear (g : SnakeGame) :
  cacheCurrent g -> clearWallMap (wallMap g) = emptyBoard.
Proof.
  unfold cacheCurrent. intros ->. now rewrite clearWallMap_fold.
Qed.

Section CacheFacts.

Variable Math_sin : Q -> Q.

Lemma step_cacheCurrent (d : Direction) (g : SnakeGame) (r : RNG) :
  cacheCurrent g ->
  match (step Math_sin d g r).1 with
  | Some (_, g') => cacheCurrent g'
  | None => True
  end.
Proof.
  intros Hc.
  destruct (isGameOver (state g)) eqn:Hover.
  { now rewrite (step_over Math_sin d g r Hover). }
  destruct (snake (state g)) as [|h tl] eqn:Hsn.
  { unfold step. rewrite Hover.
    destruct (tick_fields (state g)) as (Hs & _). now rewrite Hs, Hsn. }
  destruct (tick_fields (state g))
    as (T1 & T2 & T3 & T4 & T5 & T6 & T7 & T8 & T9 & T10 & T11).
  destruct (isDeadly g (tick (state g)) (moveHead d h)) eqn:Hdead.
  { unfold step. rewrite Hover, T1, Hsn, Hdead. cbn [fst].
    unfold cacheCurrent in *. cbn. now rewrite T4. }
  destruct (entersPortal (tick (state g)) (moveHead d h)) eqn:Hportal.
  { unfold step. rewrite Hover, T1, Hsn, Hdead, Hportal. unfold advanceLevel.
    match goal with |- context [updateWallMap ?x ?y] =>
      pose proof (updateWallMap_cache x y) as Hu;
      destruct (updateWallMap x y) as [g1 r1] end.
    cbn [fst snd] in *. apply Hu. cbn [wallMap].
    now apply cacheCurrent_clear. }
  rewrite (step_moves Math_sin d g r h tl Hover Hsn Hdead Hportal).
  cbv zeta.
  pose proof (pickItem_fields (tick (state g)) (moveHead d h)
                (moveHead d h :: h :: tl) (-0.05)%Q) as HP.
  destruct (pickItem _ _ _ _) as [[st1 ns1] rw1]. cbn [fst snd] in HP.
  destruct HP as (_ & _ & P3 & _).
  rewrite T4 in P3.
  assert (Hfin : forall st3 ns,
    walls st3 = walls (state g) ->
    cacheCurrent (mkGame (set_snake ns (expireItems st3)) (wallMap g))).
  { intros st3 ns Hw. unfold cacheCurrent in *. cbn. now rewrite Hw. }
  unfold eatFood.
  destruct (point_eqb (moveHead d h) (food st1)).
  - set (st2 := set_itemsCollectedInLevel _ _).
    destruct ((LEVEL_GOAL <=? itemsCollectedInLevel st2)
              && negb (portalOpen st2)).
    + destruct (getRandomEmptyPoint g ns1 (walls (set_portalOpen true st2))
                  (specialItems (set_portalOpen true st2)) r) as [pp r1].
      match goal with
        |- context [getRandomEmptyPoint g ns1 ?w ?i ?rr] =>
          destruct (getRandomEmptyPoint g ns1 w i rr) as [fd r2] end.
      match goal with |- context [spawnItem g ?s ?n ?rr] =>
        pose proof (spawnItem_frame g s n rr) as Hfr;
        destruct (spawnItem g s n rr) as [st3 r3] end.
      cbn [fst snd] in *. apply Hfin. rewrite Hfr. cbn. exact P3.
    + match goal with
        |- context [getRandomEmptyPoint g ns1 ?w ?i ?rr] =>
          destruct (getRandomEmptyPoint g ns1 w i rr) as [fd r2] end.
      match goal with |- context [spawnItem g ?s ?n ?rr] =>
        pose proof (spawnItem_frame g s n rr) as Hfr;
        destruct (spawnItem g s n rr) as [st3 r3] end.
      cbn [fst snd] in *. apply Hfin. rewrite Hfr. cbn. exact P3.
  - match goal with |- context [spawnItem g ?s ?n ?rr] =>
      pose proof (spawnItem_frame g s n rr) as Hfr;
      destruct (spawnItem g s n rr) as [st3 r3] end.
    cbn [fst snd] in *. apply Hfin. rewrite Hfr. cbn. exact P3.
Qed.

(** In every game a host can observe, the cache is the one the obstacle
    list determines. *)
Lemma reachable_cacheCurrent (g : SnakeGame) (r : RNG) :
  reachable Math_sin g r -> cacheCurrent g.
Proof.
  induction 1 as [lvl r|d g g' r r' rw Hreach IH Hstep].
  - unfold newSnakeGame. apply updateWallMap_cache. reflexivity.
  - pose proof (step_cacheCurrent d g r IH) as H. now rewrite Hstep in H.
Qed.

(** On the games a host can observe the fingerprint is a function of the
    episode state alone. *)
Lemma getStateString_reachable (a1 a2 : Agent) (r1 r2 : RNG) :
  reachable Math_sin (game a1) r1 ->
  reachable Math_sin (game a2) r2 ->
  snake (state (game a1)) = snake (state (game a2)) ->
  food (state (game a1)) = food (state (game a2)) ->
  portalOpen (state (game a1)) = portalOpen (state (game a2)) ->
  portalPoint (state (game a1)) = portalPoint (state (game a2)) ->
  walls (state (game a1)) = walls (state (game a2)) ->
  getStateString a1 = getStateString a2.
Proof.
  intros H1 H2 Hs Hf Hpo Hpp Hw.
  apply reachable_cacheCurrent in H1, H2.
  unfold getStateString, activeTarget, isBlocking, isPointWall.
  unfold cacheCurrent in *.
  rewrite Hs, Hf, Hpo, Hpp, H1, H2, Hw. reflexivity.
Qed.

End CacheFacts.

(** ** The fingerprint *)

(** The fingerprint does not read the agent's own fields. *)
Lemma getStateString_game (a1 a2 : Agent) :
  game a1 = game a2 -> getStateString a1 = getStateString a2.
Proof. unfold getStateString. intros ->. reflexivity. Qed.

(** C6.  The fingerprint is a function of the body, the goal, the portal
    flag and cell, and the obstacle cache: two agents whose episode states
    agree on these yield the same fingerprint (or both fail), whatever their
    step counters, scores, progress counters, item lists and expiry steps,
    slow-effect counters, levels and terminal flags, and whatever the agents'
    tables and rates. *)
Theorem getStateString_schema (a1 a2 : Agent) :
  snake (state (game a1)) = snake (state (game a2)) ->
  food (state (game a1)) = food (state (game a2)) ->
  portalOpen (state (game a1)) = portalOpen (state (game a2)) ->
  portalPoint (state (game a1)) = portalPoint (state (game a2)) ->
  wallMap (game a1) = wallMap (game a2) ->
  getStateString a1 = getStateString a2.
Proof.
  intros Hs Hf Hpo Hpp Hw.
  unfold getStateString, activeTarget, isBlocking, isPointWall.
  rewrite Hs, Hf, Hpo, Hpp, Hw. reflexivity.
Qed.

(** An instance: the fresh agent and the same episode seen later. *)
Lemma getStateString_schema_witness :
  steps (state (game freshAgent)) <> steps (state (game freshAgentLater)) /\
  score (state (game freshAgent)) <> score (state (game freshAgentLater)) /\
  specialItems (state (game freshAgent))
    <> specialItems (state (game freshAgentLater)) /\
  getStateString freshAgent = getStateString freshAgentLater.
Proof.
  split; [discriminate|]. split; [discriminate|]. split; [discriminate|].
  apply (getStateString_schema freshAgent freshAgentLater); reflexivity.
Defined.

(** ** Reading the current value vector *)

(** C10 (amended).  [getCurrentStateQValues] leaves the agent as it is when
    the table has an entry for the present fingerprint, and returns that
    entry; when the table has none, it returns the zero vector and inserts it
    under the fingerprint, so that the entry count grows by one, and changes
    no other field of the agent. *)
Theorem getCurrentStateQValues_effect (a : Agent) (s : string) :
  getStateString a = Some s ->
  match qTable a !! s with
  | Some q => getCurrentStateQValues a = Some (q, a)
  | None =>
      getCurrentStateQValues a
      = Some (zeroQValues, set_qTable (<[s := zeroQValues]> (qTable a)) a) /\
      size (<[s := zeroQValues]> (qTable a)) = S (size (qTable a))
  end.
Proof.
  intros Hs. unfold getCurrentStateQValues, getQValues. rewrite Hs.
  destruct (qTable a !! s) as [q|] eqn:E.
  - reflexivity.
  - split; [reflexivity|]. now apply map_size_insert_None.
Qed.

(** An instance: an agent whose table lacks the present fingerprint. *)
Lemma getCurrentStateQValues_effect_witness :
  getStateString freshAgentLater = Some "LU01000100U" /\
  getCurrentStateQValues freshAgentLater
  = Some (zeroQValues,
          set_qTable (<["LU01000100U" := zeroQValues]> (qTable freshAgentLater))
            freshAgentLater) /\
  size (<["LU01000100U" := zeroQValues]> (qTable freshAgentLater))
  = S (size (qTable freshAgentLater)).
Proof.
  split; [reflexivity|].
  exact (getCurrentStateQValues_effect freshAgentLater "LU01000100U" eq_refl).
Defined.

(** C10 (as stated) fails: on the agent a host has just constructed the
    table is empty, and after the query it holds one entry. *)
Lemma query_grows_fresh_table :
  size (qTable freshAgent) = 0%nat /\
  option_map (fun x => (x.1, size (qTable x.2)))
    (getCurrentStateQValues freshAgent)
  = Some (zeroQValues, 1%nat).
Proof. split; vm_compute; reflexivity. Qed.

(** ** One decision of the agent *)

Lemma getQValues_fields (s : string) (a : Agent) :
  epsilon (getQValues s a).2 = epsilon a /\
  game (getQValues s a).2 = game a /\
  totalReward (getQValues s a).2 = totalReward a /\
  totalStepsEver (getQValues s a).2 = totalStepsEver a.
Proof.
  unfold getQValues. destruct (qTable a !! s); simpl; repeat split.
Qed.

Lemma chooseAction_fields (s : string) (a : Agent) (r : RNG) :
  epsilon (chooseAction s a r).1.2 = epsilon a /\
  game (chooseAction s a r).1.2 = game a /\
  totalReward (chooseAction s a r).1.2 = totalReward a /\
  totalStepsEver (chooseAction s a r).1.2 = totalStepsEver a.
Proof.
  unfold chooseAction. destruct (Math_random r) as [u r1].
  destruct (Qltb u (epsilon a)).
  - destruct (randomBelow 4 r1) as [k r2]. simpl. repeat split.
  - pose proof (getQValues_fields s a) as H.
    destruct (getQValues s a) as [q a1]. exact H.
Qed.

Lemma argmax_range (q : QValues) : 0 <= argmax q < 4.
Proof.
  unfold argmax.
  destruct (Qltb (q_0 q) (q_1 q)); destruct (Qltb _ (q_2 q));
    destruct (Qltb _ (q_3 q)); lia.
Qed.

(** The chosen action is an index of the array [directions]. *)
Lemma chooseAction_range (s : string) (a : Agent) (r : RNG) :
  0 <= (chooseAction s a r).1.1 < 4.
Proof.
  unfold chooseAction. destruct (Math_random r) as [u r1].
  destruct (Qltb u (epsilon a)).
  - pose proof (randomBelow_range 4 r1 ltac:(lia)) as H.
    destruct (randomBelow 4 r1) as [k r2]. exact H.
  - destruct (getQValues s a) as [q a1]. apply argmax_range.
Qed.

Lemma learn_fields (s : string) (action : Z) (reward : Q) (a a' : Agent) :
  learn s action reward a = Some a' ->
  epsilon a' = decayEpsilon (epsilon a) /\
  game a' = game a /\
  totalReward a' = (totalReward a + reward)%Q /\
  totalStepsEver a' = totalStepsEver a + 1.
Proof.
  unfold learn.
  set (a0 := set_totalStepsEver _ _).
  destruct (getStateString a0) as [nextState|]; [|discriminate].
  pose proof (getQValues_fields nextState a0) as H1.
  destruct (getQValues nextState a0) as [nq a1]. simpl in H1.
  pose proof (getQValues_fields s a1) as H2.
  destruct (getQValues s a1) as [cq a2]. simpl in H2.
  intros [= <-]. simpl.
  destruct H1 as (E1 & G1 & R1 & S1). destruct H2 as (E2 & G2 & R2 & S2).
  rewrite E2, E1, G2, G1, R2, R1, S2, S1. subst a0. simpl. repeat split.
Qed.

Lemma shapeReward_alive (reward : Q) (g : SnakeGame) (target : Point)
    (distBefore : Z) (shaped : Q) :
  isGameOver (state g) = false ->
  shapeReward reward g target distBefore = Some shaped ->
  exists headAfter tl,
    snake (state g) = headAfter :: tl /\
    (shaped == reward + shaping (manhattan headAfter target) distBefore)%Q.
Proof.
  unfold shapeReward, shaping. intros ->.
  destruct (snake (state g)) as [|ha tl]; [discriminate|].
  intros H. exists ha, tl. split; [reflexivity|].
  destruct (manhattan ha target <? distBefore).
  - injection H as <-. reflexivity.
  - destruct (distBefore <? manhattan ha target); injection H as <-.
    + reflexivity.
    + now rewrite Qplus_0_r.
Qed.

Section AgentFacts.

Variable Math_sin : Q -> Q.

(** The course of a call of [update] that returns normally on a game that
    is not over. *)
Lemma update_inv (a a' : Agent) (r r' : RNG) :
  isGameOver (state (game a)) = false ->
  update Math_sin a r = (Some a', r') ->
  exists s target headBefore tl action a1 r1 reward g' shaped,
    getStateString a = Some s /\
    activeTarget (state (game a)) = Some target /\
    snake (state (game a)) = headBefore :: tl /\
    chooseAction s a r = (action, a1, r1) /\
    step Math_sin (directionOfIndex action) (game a) r1
      = (Some (reward, g'), r') /\
    shapeReward reward g' target (manhattan headBefore target) = Some shaped /\
    learn s action shaped (set_game g' a1) = Some a'.
Proof.
  intros Hover. unfold update. rewrite Hover.
  destruct (getStateString a) as [s|]; [|discriminate].
  destruct (snake (state (game a))) as [|hb tl]; [discriminate|].
  destruct (activeTarget (state (game a))) as [target|]; [|discriminate].
  destruct (chooseAction s a r) as [[action a1] r1] eqn:Hch.
  pose proof (chooseAction_fields s a r) as (_ & Hg & _).
  rewrite Hch in Hg. simpl in Hg. rewrite Hg.
  destruct (step Math_sin (directionOfIndex action) (game a) r1)
    as [[[reward g']|] r2] eqn:Hstep; [|discriminate].
  destruct (shapeReward reward g' target (manhattan hb target))
    as [shaped|] eqn:Hshape; [|discriminate].
  intros [= Hl <-].
  exists s, target, hb, tl, action, a1, r1, reward, g', shaped.
  repeat split; first [assumption | reflexivity].
Qed.

(** C5 (amended).  In a decision whose simulation step does not end the
    episode, the reward that enters the value update (and the reward
    accumulator) is the reward of the simulation step plus 0.8 when the
    Manhattan distance from the head to the target decreased, minus 0.8 when
    it increased, and unchanged when it is the same, both distances being
    taken to the target that was active before the move: the goal, or the
    portal cell if the portal was open, as read before [step] is called. *)
Theorem update_shaping (a a' : Agent) (r r' : RNG) :
  isGameOver (state (game a)) = false ->
  update Math_sin a r = (Some a', r') ->
  isGameOver (state (game a')) = false ->
  exists s target headBefore tl action a1 r1 reward headAfter tl' shaped,
    getStateString a = Some s /\
    activeTarget (state (game a)) = Some target /\
    snake (state (game a)) = headBefore :: tl /\
    chooseAction s a r = (action, a1, r1) /\
    step Math_sin (directionOfIndex action) (game a) r1
      = (Some (reward, game a'), r') /\
    snake (state (game a')) = headAfter :: tl' /\
    (shaped == reward + shaping (manhattan headAfter target)
                                (manhattan headBefore target))%Q /\
    learn s action shaped (set_game (game a') a1) = Some a' /\
    totalReward a' = (totalReward a + shaped)%Q.
Proof.
  intros Hover Hup Halive.
  destruct (update_inv a a' r r' Hover Hup)
    as (s & target & hb & tl & action & a1 & r1 & reward & g' & shaped
        & Hs & Ht & Hsn & Hch & Hstep & Hshape & Hlearn).
  destruct (learn_fields _ _ _ _ _ Hlearn) as (_ & Hg & Hr & _).
  simpl in Hg, Hr. subst g'.
  destruct (shapeReward_alive _ _ _ _ _ Halive Hshape) as (ha & tl' & Hsa & Hq).
  pose proof (chooseAction_fields s a r) as (_ & _ & Hr1 & _).
  rewrite Hch in Hr1. simpl in Hr1.
  exists s, target, hb, tl, action, a1, r1, reward, ha, tl', shaped.
  repeat split; try assumption. congruence.
Qed.

(** Every decision on a game that is not over applies the decay step once,
    whatever the outcome of the simulation step. *)
Lemma update_decays_once (a a' : Agent) (r r' : RNG) :
  isGameOver (state (game a)) = false ->
  update Math_sin a r = (Some a', r') ->
  epsilon a' = decayEpsilon (epsilon a).
Proof.
  intros Hover Hup.
  destruct (update_inv a a' r r' Hover Hup)
    as (s & target & hb & tl & action & a1 & r1 & reward & g' & shaped
        & Hs & Ht & Hsn & Hch & Hstep & Hshape & Hlearn).
  destruct (learn_fields _ _ _ _ _ Hlearn) as (He & _).
  pose proof (chooseAction_fields s a r) as (He1 & _).
  rewrite Hch in He1. simpl in He1, He. congruence.
Qed.

(** A call of [update] on a game that is over returns at once. *)
Lemma update_over (a : Agent) (r : RNG) :
  isGameOver (state (game a)) = true -> update Math_sin a r = (Some a, r).
Proof. intros H. unfold update. rewrite H. reflexivity. Qed.

End AgentFacts.

Lemma decayEpsilon_le (e : Q) : (decayEpsilon e <= e)%Q.
Proof.
  unfold decayEpsilon. destruct (Qltb epsilonMin e) eqn:E.
  - apply Qltb_lt in E.
    assert (H0 : (0 < e)%Q).
    { eapply Qlt_trans; [|exact E]. reflexivity. }
    apply Qle_trans with (e * 1)%Q.
    + apply Qmult_le_l; [exact H0|discriminate].
    + rewrite Qmult_1_r. apply Qle_refl.
  - apply Qle_refl.
Qed.

Lemma shapingAgent_update :
  update sineUnused shapingAgent shapingRNG
  = (Some shapingAgentAfter, shapingRNGAfter).
Proof. vm_compute. reflexivity. Qed.

(** An instance: the decision of [shapingAgent]. *)
Lemma update_shaping_witness :
  isGameOver (state (game shapingAgent)) = false /\
  isGameOver (state (game shapingAgentAfter)) = false /\
  exists shaped,
    totalReward shapingAgentAfter = (totalReward shapingAgent + shaped)%Q.
Proof.
  split; [reflexivity|]. split; [reflexivity|].
  destruct (update_shaping sineUnused shapingAgent shapingAgentAfter
              shapingRNG shapingRNGAfter eq_refl shapingAgent_update eq_refl)
    as (s & target & hb & tl & action & a1 & r1 & reward & ha & tl' & shaped
        & _ & _ & _ & _ & _ & _ & _ & _ & H).
  exists shaped. exact H.
Defined.

(** C5 (as stated) fails: the agent explores, goes [UP] onto the goal at
    (15, 14) and the goal moves to (27, 27).  The simulation reward is 30;
    the reward that enters the update is 30.8, the distance to the old goal
    having dropped from 1 to 0, whereas the distance to the target that is
    active after the move went from 1 to 25, for which the rule of the
    specification gives 29.2. *)
Lemma shaping_ignores_relocated_goal :
  isGameOver (state (game shapingAgent)) = false /\
  update sineUnused shapingAgent shapingRNG
    = (Some shapingAgentAfter, shapingRNGAfter) /\
  isGameOver (state (game shapingAgentAfter)) = false /\
  (step sineUnused UP (game shapingAgent) (mkRNG shapingTape 4)).1
    = Some (30%Q, game shapingAgentAfter) /\
  activeTarget (state (game shapingAgent)) = Some (mkPoint 15 14) /\
  activeTarget (state (game shapingAgentAfter)) = Some (mkPoint 27 27) /\
  totalReward shapingAgent = 0%Q /\
  (totalReward shapingAgentAfter == 30.8)%Q /\
  option_map (fun q => Qeq_bool q 29.2)
    (shapedRewardAsSpecified 30 (state (game shapingAgent))
       (state (game shapingAgentAfter)))
  = Some true.
Proof.
  split; [reflexivity|]. split; [exact shapingAgent_update|].
  repeat split; vm_compute; reflexivity.
Qed.

(** ** The procedural obstacles *)

Lemma In_seqZ (k m n : Z) : In k (seqZ m n) <-> m <= k < m + n.
Proof. rewrite <- list_elem_of_In. apply elem_of_seqZ. Qed.

Lemma Math_min_le_l (a b : Q) : (Math_min a b <= a)%Q.
Proof.
  unfold Math_min. destruct (Qle_bool a b) eqn:E.
  - apply Qle_refl.
  - destruct (Qlt_le_dec a b) as [H|H]; [|exact H].
    apply Qlt_le_weak, Qle_bool_iff in H. congruence.
Qed.

Lemma Math_min_mono (a b b' : Q) :
  (b <= b')%Q -> (Math_min a b <= Math_min a b')%Q.
Proof.
  intros Hb. unfold Math_min.
  destruct (Qle_bool a b) eqn:E, (Qle_bool a b') eqn:E'.
  - apply Qle_refl.
  - apply Qle_bool_iff in E. eapply Qle_trans; eassumption.
  - destruct (Qlt_le_dec a b) as [H|H]; [|exact H].
    apply Qlt_le_weak, Qle_bool_iff in H. congruence.
  - exact Hb.
Qed.

Section WallFacts.

Variable Math_sin : Q -> Q.

(** The cells [getLevelWalls] pushes at a procedural level. *)
Lemma getLevelWalls_In (lvl x y : Z) :
  4 <= lvl ->
  In (mkPoint x y) (getLevelWalls Math_sin lvl) <->
  (0 <= x < GRID_SIZE /\ 0 <= y < GRID_SIZE) /\
  inSpawnArea x y = false /\
  Qltb (wallHash Math_sin lvl x y) (wallDensity lvl) = true.
Proof.
  intros Hl. unfold getLevelWalls.
  replace (lvl =? 2) with false by (symmetry; apply Z.eqb_neq; lia).
  replace (lvl =? 3) with false by (symmetry; apply Z.eqb_neq; lia).
  replace (4 <=? lvl) with true by (symmetry; apply Z.leb_le; lia).
  rewrite in_flat_map. split.
  - intros (i & Hi & Hin). apply in_flat_map in Hin as (j & Hj & Hin).
    apply In_seqZ in Hi, Hj.
    destruct (inSpawnArea i j) eqn:Hs; [destruct Hin|].
    destruct (Qltb (wallHash Math_sin lvl i j) (wallDensity lvl)) eqn:Hq;
      [|destruct Hin].
    destruct Hin as [[= <- <-]|[]].
    unfold GRID_SIZE in *. repeat split; first [lia | assumption].
  - intros ((Hx & Hy) & Hs & Hq). exists x. split; [apply In_seqZ; lia|].
    apply in_flat_map. exists y. split; [apply In_seqZ; lia|].
    rewrite Hs, Hq. left. reflexivity.
Qed.

(** C7 (amended).  At every level from 4 on, the obstacle list holds no cell
    of the spawn area, which is the 5 by 5 block of the cells 13 to 17 on
    both axes (those with [|x - 15| < 3] and [|y - 15| < 3]); a cell of the
    board outside this block is an obstacle exactly when its hash of
    (level, x, y) is below the density threshold; the threshold is
    [min 0.15 (0.05 + 0.0001 * level)], never above 0.15 and non-decreasing
    in the level. *)
Theorem getLevelWalls_procedural (lvl : Z) :
  4 <= lvl ->
  (forall x y,
     In (mkPoint x y) (getLevelWalls Math_sin lvl) <->
     (0 <= x < GRID_SIZE /\ 0 <= y < GRID_SIZE) /\
     ~ (13 <= x <= 17 /\ 13 <= y <= 17) /\
     (wallHash Math_sin lvl x y < wallDensity lvl)%Q) /\
  (wallDensity lvl <= 0.15)%Q /\
  (forall lvl', lvl <= lvl' -> (wallDensity lvl <= wallDensity lvl')%Q).
Proof.
  intros Hl. split; [|split].
  - intros x y. rewrite (getLevelWalls_In lvl x y Hl), Qltb_lt.
    assert (Hs : inSpawnArea x y = false <-> ~ (13 <= x <= 17 /\ 13 <= y <= 17)).
    { unfold inSpawnArea. rewrite andb_false_iff, !Z.ltb_ge. lia. }
    rewrite Hs. reflexivity.
  - apply Math_min_le_l.
  - intros lvl' Hle. unfold wallDensity. apply Math_min_mono.
    apply Qplus_le_r. apply Qmult_le_compat_r; [|discriminate].
    rewrite <- Zle_Qle. exact Hle.
Qed.

End WallFacts.

(** An instance: level 8 and the cell (12, 15). *)
Lemma getLevelWalls_procedural_witness :
  4 <= 8 /\
  (In (mkPoint 12 15) (getLevelWalls sineAtLevel8 8) <->
   (0 <= 12 < GRID_SIZE /\ 0 <= 15 < GRID_SIZE) /\
   ~ (13 <= 12 <= 17 /\ 13 <= 15 <= 17) /\
   (wallHash sineAtLevel8 8 12 15 < wallDensity 8)%Q) /\
  (wallDensity 8 <= 0.15)%Q.
Proof.
  split; [lia|].
  destruct (getLevelWalls_procedural sineAtLevel8 8 ltac:(lia)) as (H1 & H2 & _).
  split; [exact (H1 12 15)|exact H2].
Defined.

(** C7 (as stated) fails: at level 8 the cells (12, 15) and (18, 13) are
    obstacles, and every block of 6 by 6 cells around the spawn point
    (columns 12 to 17 or 13 to 18, rows likewise) contains one of them.  The
    hashes are 0.0194 and 0.0182, below the threshold 0.0508. *)
Lemma walls_within_three_of_spawn :
  4 <= 8 /\
  In (mkPoint 12 15) (getLevelWalls sineAtLevel8 8) /\
  In (mkPoint 18 13) (getLevelWalls sineAtLevel8 8) /\
  (forall x0 y0, (x0 = 12 \/ x0 = 13) -> (y0 = 12 \/ y0 = 13) ->
     exists x y, (x0 <= x < x0 + 6 /\ y0 <= y < y0 + 6) /\
       In (mkPoint x y) (getLevelWalls sineAtLevel8 8)).
Proof.
  assert (H1 : In (mkPoint 12 15) (getLevelWalls sineAtLevel8 8)).
  { apply getLevelWalls_In; [lia|]. repeat split; vm_compute; congruence. }
  assert (H2 : In (mkPoint 18 13) (getLevelWalls sineAtLevel8 8)).
  { apply getLevelWalls_In; [lia|]. repeat split; vm_compute; congruence. }
  split; [lia|]. split; [exact H1|]. split; [exact H2|].
  intros x0 y0 [-> | ->] Hy.
  - exists 12, 15. split; [lia|exact H1].
  - exists 18, 13. split; [lia|exact H2].
Qed.

(** ** Where the goal and the items are placed *)

Lemma popN_take (k : nat) (l : list Point) :
  popN k l = take (length l - k) l.
Proof.
  revert l. induction k as [|k IH]; intros l; simpl.
  - rewrite Nat.sub_0_r, firstn_all. reflexivity.
  - rewrite IH, removelast_firstn_len, length_take, take_take.
    f_equal. lia.
Qed.

Lemma findPicked_spec (items : list SpecialItem) (head : Point) (i : nat) :
  findPicked items head = Some i ->
  exists x, items !! i = Some x /\ point x = head.
Proof.
  revert i. induction items as [|si rest IH]; intros i; simpl; [discriminate|].
  destruct (point_eqb (point si) head) eqn:E.
  - intros [= <-]. exists si. split; [reflexivity|]. now apply point_eqb_eq.
  - destruct (findPicked rest head) as [j|]; [|discriminate].
    intros [= <-]. exact (IH j eq_refl).
Qed.

Lemma In_remainingItems (items : list SpecialItem) (head : Point)
    (it : SpecialItem) :
  In it items -> In it (remainingItems items head) \/ point it = head.
Proof.
  unfold remainingItems. intros Hin.
  destruct (findPicked items head) as [i|] eqn:E; [|left; exact Hin].
  destruct (findPicked_spec items head i E) as (x & Hx & Hp). rewrite Hx.
  apply list_elem_of_In, list_elem_of_lookup in Hin as (j & Hj).
  destruct (decide (j = i)) as [->|Hne].
  - right. congruence.
  - left. apply list_elem_of_In, list_elem_of_lookup.
    destruct (decide (j < i)%nat).
    + exists j. rewrite list_lookup_delete_lt by assumption. exact Hj.
    + exists (pred j). rewrite list_lookup_delete_ge by lia.
      replace (S (pred j)) with j by lia. exact Hj.
Qed.

Lemma hitsItems_false_In (items : list SpecialItem) (p : Point)
    (it : SpecialItem) :
  hitsItems items p = false -> In it items -> point it <> p.
Proof.
  unfold hitsItems. intros H Hin Heq.
  assert (Ht : existsb (fun i => point_eqb (point i) p) items = true).
  { apply existsb_exists. exists it. split; [exact Hin|].
    now apply point_eqb_eq. }
  congruence.
Qed.

(** The body under construction keeps the new head in front. *)
Lemma pickItem_head (st : GameState) (head : Point) (sn : list Point) (rw : Q) :
  exists tl, (pickItem st head (head :: sn) rw).1.2 = head :: tl.
Proof.
  unfold pickItem.
  destruct (findPicked (specialItems st) head) as [i|]; [|eexists; reflexivity].
  destruct (specialItems st !! i) as [it|]; [|eexists; reflexivity].
  unfold applyItem. destruct (type it); try (eexists; reflexivity).
  cbn [fst snd]. rewrite popN_take.
  set (n := (_ - _)%nat).
  assert (Hn : (1 <= n)%nat) by (subst n; simpl length; lia).
  destruct n as [|n']; [lia|]. simpl. eexists; reflexivity.
Qed.

Lemma updateWallMap_items (g : SnakeGame) (r : RNG) :
  specialItems (state (updateWallMap g r).1) = specialItems (state g).
Proof.
  unfold updateWallMap.
  destruct (getRandomEmptyPoint _ _ _ _ _) as [f r1]. reflexivity.
Qed.

Section PlacementFacts.

Variable Math_sin : Q -> Q.

Lemma step_goalKeptClear (d : Direction) (g : SnakeGame) (r : RNG) :
  match (step Math_sin d g r).1 with
  | Some (_, g') => goalKeptClear g g'
  | None => True
  end.
Proof.
  destruct (isGameOver (state g)) eqn:Hover.
  { rewrite (step_over Math_sin d g r Hover). left. reflexivity. }
  destruct (snake (state g)) as [|h tl] eqn:Hsn.
  { unfold step. rewrite Hover.
    destruct (tick_fields (state g)) as (Hs & _). rewrite Hs, Hsn. exact I. }
  destruct (isDeadly g (tick (state g)) (moveHead d h)) eqn:Hdead.
  { unfold step. rewrite Hover.
    destruct (tick_fields (state g)) as (Hs & Hf & _).
    rewrite Hs, Hsn, Hdead. left. exact Hf. }
  destruct (entersPortal (tick (state g)) (moveHead d h)) eqn:Hportal.
  { unfold step. rewrite Hover.
    destruct (tick_fields (state g)) as (Hs & _).
    rewrite Hs, Hsn, Hdead, Hportal. unfold advanceLevel.
    match goal with |- context [updateWallMap ?x ?y] =>
      pose proof (updateWallMap_items x y) as Hit;
      destruct (updateWallMap x y) as [g1 r1] end.
    cbn [fst snd] in *. right. right. intros it _ Hin.
    rewrite Hit in Hin. destruct Hin. }
  rewrite (step_moves Math_sin d g r h tl Hover Hsn Hdead Hportal).
  cbv zeta.
  pose proof (pickItem_fields (tick (state g)) (moveHead d h)
                (moveHead d h :: h :: tl) (-0.05)%Q) as HP.
  destruct (pickItem_head (tick (state g)) (moveHead d h) (h :: tl) (-0.05)%Q)
    as (tl1 & Hhead).
  destruct (pickItem _ _ _ _) as [[st1 ns1] rw1]. cbn [fst snd] in HP, Hhead.
  destruct HP as (_ & P2 & _ & _ & _ & _ & _ & _ & _ & _ & P11).
  destruct (tick_fields (state g)) as (_ & T2 & T3 & _).
  rewrite T2 in P2. rewrite T3 in P11.
  unfold eatFood.
  destruct (point_eqb (moveHead d h) (food st1)) eqn:Heat.
  - set (st2 := set_itemsCollectedInLevel _ _).
    assert (Hkey : forall fd,
      placedCell (wallMap g) ns1 (specialItems st1) fd ->
      fd = mkPoint 0 0 \/
      (forall it, In it (specialItems (state g)) -> point it <> fd)).
    { intros fd [->|(_ & Hsnake & Hitm)]; [left; reflexivity|].
      right. intros it Hin. rewrite P11 in Hitm.
      destruct (In_remainingItems _ (moveHead d h) it Hin) as [Hrem|Hat].
      - exact (hitsItems_false_In _ _ _ Hitm Hrem).
      - rewrite Hat. intros <-. rewrite Hhead in Hsnake.
        cbn [hitsSnake existsb] in Hsnake.
        rewrite point_eqb_refl in Hsnake. discriminate. }
    assert (Hfin : forall fd st3,
      placedCell (wallMap g) ns1 (specialItems st1) fd ->
      food st3 = fd ->
      goalKeptClear g (mkGame (set_snake ns1 (expireItems st3)) (wallMap g))).
    { intros fd st3 Hpl Hf. unfold goalKeptClear.
      cbn [state food set_snake expireItems set_specialItems].
      rewrite Hf. right. destruct (Hkey fd Hpl) as [H|H]; [left; exact H|].
      right. intros it Hin _. exact (H it Hin). }
    destruct ((LEVEL_GOAL <=? itemsCollectedInLevel st2)
              && negb (portalOpen st2)).
    + destruct (getRandomEmptyPoint g ns1 (walls (set_portalOpen true st2))
                  (specialItems (set_portalOpen true st2)) r) as [pp r1].
      match goal with
        |- context [getRandomEmptyPoint g ns1 ?w ?i ?rr] =>
          pose proof (getRandomEmptyPoint_placed g ns1 w i rr) as Hpl;
          destruct (getRandomEmptyPoint g ns1 w i rr) as [fd r2] end.
      match goal with |- context [spawnItem g ?s ?n ?rr] =>
        pose proof (spawnItem_frame g s n rr) as Hfr;
        destruct (spawnItem g s n rr) as [st3 r3] end.
      cbn [fst snd] in *. apply (Hfin fd st3 Hpl). rewrite Hfr. reflexivity.
    + match goal with
        |- context [getRandomEmptyPoint g ns1 ?w ?i ?rr] =>
          pose proof (getRandomEmptyPoint_placed g ns1 w i rr) as Hpl;
          destruct (getRandomEmptyPoint g ns1 w i rr) as [fd r2] end.
      match goal with |- context [spawnItem g ?s ?n ?rr] =>
        pose proof (spawnItem_frame g s n rr) as Hfr;
        destruct (spawnItem g s n rr) as [st3 r3] end.
      cbn [fst snd] in *. apply (Hfin fd st3 Hpl). rewrite Hfr. reflexivity.
  - match goal with |- context [spawnItem g ?s ?n ?rr] =>
      pose proof (spawnItem_frame g s n rr) as Hfr;
      destruct (spawnItem g s n rr) as [st3 r3] end.
    cbn [fst snd] in *. left. rewrite Hfr. exact P2.
Qed.

(** The relocation of the goal does look at the items: whenever a call of
    [step] moves the goal, the new goal cell is the fallback cell (0, 0) of
    the search, or it differs from the cell of every item that was on the
    board before the call and is still there after it. *)
Lemma relocated_goal_avoids_items (d : Direction) (g g' : SnakeGame)
    (r r' : RNG) (rw : Q) :
  step Math_sin d g r = (Some (rw, g'), r') ->
  food (state g') = food (state g) \/
  food (state g') = mkPoint 0 0 \/
  (forall it, In it (specialItems (state g)) ->
              In it (specialItems (state g')) ->
              point it <> food (state g')).
Proof.
  intros Hstep. pose proof (step_goalKeptClear d g r) as H.
  rewrite Hstep in H. exact H.
Qed.

End PlacementFacts.

Lemma goldSpawned_run :
  afterRun sineUnused 1 (mkRNG goldTape 0) (circling 75)
  = Some (goldSpawned, goldOnGoalRNG).
Proof. vm_compute. reflexivity. Qed.

Lemma goldEaten_step :
  step sineUnused UP goldOnGoal goldOnGoalRNG
  = (Some (30%Q, goldEaten), goldEatenRNG).
Proof. vm_compute. reflexivity. Qed.

(** C8.  The program does not keep the items off the goal cell.  The
    relocation of the goal avoids the cells of the items, but the item spawn
    of [step] (lines 253-261) avoids only the body, the obstacles and the
    other items: 75 steps after the construction of a level-1 game, a game
    a host can reach holds a [GOLD] item on the goal cell (5, 5); twenty
    steps later a single step consumes the item and the goal together, for a
    score of 16. *)
Lemma item_spawns_on_goal :
  reachable sineUnused goldSpawned goldOnGoalRNG /\
  food (state goldSpawned) = mkPoint 5 5 /\
  specialItems (state goldSpawned) = [mkItem (mkPoint 5 5) GOLD 225] /\
  reachable sineUnused goldOnGoal goldOnGoalRNG /\
  hitsItems (specialItems (state goldOnGoal)) (food (state goldOnGoal)) = true /\
  step sineUnused UP goldOnGoal goldOnGoalRNG
    = (Some (30%Q, goldEaten), goldEatenRNG) /\
  specialItems (state goldEaten) = [] /\
  food (state goldEaten) = mkPoint 9 12 /\
  itemsCollectedInLevel (state goldEaten) = 1 /\
  score (state goldEaten) = 16.
Proof.
  split; [exact (reachable_afterRun _ _ _ _ _ _ goldSpawned_run)|].
  split; [reflexivity|]. split; [reflexivity|].
  split; [exact goldOnGoal_reachable|]. split; [reflexivity|].
  split; [exact goldEaten_step|].
  repeat split; vm_compute; reflexivity.
Qed.

(** ** The decay of the exploration rate *)

Section DecayFacts.

Local Open Scope Q_scope.

Lemma grid_pos : 0 < inject_Z (Z.pos grid).
Proof. reflexivity. Qed.

Lemma roundUp_ge (q : Q) : q <= roundUp q.
Proof.
  unfold roundUp. rewrite Qmake_Qdiv.
  apply Qle_shift_div_l; [exact grid_pos|]. apply Qle_ceiling.
Qed.

Lemma roundDown_le (q : Q) : roundDown q <= q.
Proof.
  unfold roundDown. rewrite Qmake_Qdiv.
  apply Qle_shift_div_r; [exact grid_pos|]. apply Qfloor_le.
Qed.

Lemma roundDown_nonneg (q : Q) : 0 <= q -> 0 <= roundDown q.
Proof.
  intros Hq. unfold roundDown.
  assert (H : (0 <= Qfloor (q * inject_Z (Z.pos grid)))%Z).
  { change 0%Z with (Qfloor 0). apply Qfloor_resp_le.
    apply Qmult_le_0_compat; [exact Hq|]. apply Qlt_le_weak, grid_pos. }
  unfold Qle. cbn [Qnum Qden]. lia.
Qed.

Lemma powUp_ge (x : Q) (p : positive) :
  0 <= x -> Qpower_positive x p <= powUp x p.
Proof.
  intros Hx. induction p as [p IH|p IH|]; simpl.
  - eapply Qle_trans; [|apply roundUp_ge].
    pose proof (Qpower_pos_positive x p Hx) as H0.
    apply Qmult_le_compat_nonneg; [split; [exact Hx|apply Qle_refl]|].
    split; [apply Qmult_le_0_compat; exact H0|].
    apply Qmult_le_compat_nonneg; split; assumption.
  - eapply Qle_trans; [|apply roundUp_ge].
    pose proof (Qpower_pos_positive x p Hx) as H0.
    apply Qmult_le_compat_nonneg; split; assumption.
  - apply Qle_refl.
Qed.

Lemma powDown_le (x : Q) (p : positive) :
  0 <= x -> 0 <= powDown x p /\ powDown x p <= Qpower_positive x p.
Proof.
  intros Hx. induction p as [p [IH0 IH]|p [IH0 IH]|]; simpl.
  - split.
    + apply roundDown_nonneg. apply Qmult_le_0_compat; [exact Hx|].
      apply Qmult_le_0_compat; exact IH0.
    + eapply Qle_trans; [apply roundDown_le|].
      apply Qmult_le_compat_nonneg; [split; [exact Hx|apply Qle_refl]|].
      split; [apply Qmult_le_0_compat; exact IH0|].
      apply Qmult_le_compat_nonneg; split; assumption.
  - split.
    + apply roundDown_nonneg. apply Qmult_le_0_compat; exact IH0.
    + eapply Qle_trans; [apply roundDown_le|].
      apply Qmult_le_compat_nonneg; split; assumption.
  - split; [exact Hx|apply Qle_refl].
Qed.

Lemma Qpower_positive_le_1 (x : Q) (p : positive) :
  0 <= x -> x <= 1 -> Qpower_positive x p <= 1.
Proof.
  intros Hx H1.
  assert (H : 0 <= Qpower_positive x p /\ Qpower_positive x p <= 1).
  { induction p as [p [IH0 IH]|p [IH0 IH]|]; simpl.
    - split.
      + apply Qmult_le_0_compat; [exact Hx|]. now apply Qmult_le_0_compat.
      + change 1 with (1 * (1 * 1)).
        apply Qmult_le_compat_nonneg; [split; assumption|].
        split; [now apply Qmult_le_0_compat|].
        apply Qmult_le_compat_nonneg; split; assumption.
    - split.
      + now apply Qmult_le_0_compat.
      + change 1 with (1 * 1).
        apply Qmult_le_compat_nonneg; split; assumption.
    - split; assumption. }
  apply H.
Qed.

Lemma epsilonDecay_range : 0 <= epsilonDecay /\ epsilonDecay <= 1.
Proof. split; discriminate. Qed.

Lemma epsilonDecay_pow_le_1 (k : Z) : (0 <= k)%Z -> epsilonDecay ^ k <= 1.
Proof.
  intros Hk. destruct k as [|p|p]; simpl.
  - apply Qle_refl.
  - apply Qpower_positive_le_1; apply epsilonDecay_range.
  - lia.
Qed.

(** The powers of the decay factor decrease. *)
Lemma epsilonDecay_pow_antitone (n m : Z) :
  (0 <= n <= m)%Z -> epsilonDecay ^ m <= epsilonDecay ^ n.
Proof.
  intros Hnm. replace m with (n + (m - n))%Z by lia.
  rewrite Qpower_plus by discriminate.
  rewrite <- (Qmult_1_r (epsilonDecay ^ n)) at 2.
  apply Qmult_le_compat_nonneg.
  - split; [|apply Qle_refl]. apply Qpower_0_le. discriminate.
  - split; [apply Qpower_0_le; discriminate|].
    apply epsilonDecay_pow_le_1. lia.
Qed.

Lemma pow_1535054_above : epsilonMin < epsilonDecay ^ 1535054.
Proof.
  eapply Qlt_le_trans; [|apply (powDown_le epsilonDecay 1535054); discriminate].
  vm_compute. reflexivity.
Qed.

Lemma pow_1535055_below : epsilonDecay ^ 1535055 < epsilonMin.
Proof.
  eapply Qle_lt_trans; [apply (powUp_ge epsilonDecay 1535055); discriminate|].
  vm_compute. reflexivity.
Qed.

Lemma decayEpsilon_above (e : Q) :
  epsilonMin < e -> decayEpsilon e = e * epsilonDecay.
Proof.
  intros H. unfold decayEpsilon. apply Qltb_lt in H. rewrite H. reflexivity.
Qed.

Lemma epsilonAfter_succ (n : N) :
  epsilonAfter (N.succ n) = decayEpsilon (epsilonAfter n).
Proof. unfold epsilonAfter. apply N.iter_succ. Qed.

(** Up to 1535055 decisions the rate is the power of the decay factor. *)
Lemma epsilonAfter_pow (n : N) :
  (n <= 1535055)%N -> epsilonAfter n == epsilonDecay ^ Z.of_N n.
Proof.
  induction n as [|n IH] using N.peano_ind; intros Hn.
  - reflexivity.
  - rewrite epsilonAfter_succ.
    assert (Hle : (n <= 1535055)%N) by lia.
    specialize (IH Hle).
    assert (Habove : epsilonMin < epsilonAfter n).
    { rewrite IH. eapply Qlt_le_trans; [apply pow_1535054_above|].
      apply epsilonDecay_pow_antitone. lia. }
    rewrite (decayEpsilon_above _ Habove), IH, N2Z.inj_succ.
    unfold Z.succ. rewrite Qpower_plus by discriminate. reflexivity.
Qed.

End DecayFacts.

(** ** Decisions never fail on the games a host holds *)

Lemma pickItem_length (st : GameState) (head : Point) (sn : list Point) (rw : Q) :
  (1 <= length sn)%nat ->
  (2 <= length (pickItem st head (head :: sn) rw).1.2)%nat.
Proof.
  intros Hsn. unfold pickItem.
  destruct (findPicked (specialItems st) head) as [i|]; [|simpl; lia].
  destruct (specialItems st !! i) as [it|]; [|simpl; lia].
  unfold applyItem. destruct (type it); cbn [fst snd]; try (simpl; lia).
  rewrite length_popN. simpl length. lia.
Qed.

Lemma updateWallMap_fields (g : SnakeGame) (r : RNG) :
  snake (state (updateWallMap g r).1) = snake (state g) /\
  portalOpen (state (updateWallMap g r).1) = portalOpen (state g) /\
  isGameOver (state (updateWallMap g r).1) = isGameOver (state g).
Proof.
  unfold updateWallMap.
  destruct (getRandomEmptyPoint _ _ _ _ _) as [f r1]. repeat split.
Qed.

Section ProgressFacts.

Variable Math_sin : Q -> Q.

Lemma newSnakeGame_wellFormed (lvl : Z) (r : RNG) :
  wellFormed (newSnakeGame Math_sin lvl r).1 /\
  isGameOver (state (newSnakeGame Math_sin lvl r).1) = false.
Proof.
  unfold newSnakeGame, wellFormed.
  match goal with |- context [updateWallMap ?x ?y] =>
    destruct (updateWallMap_fields x y) as (Hs & Hp & Ho) end.
  rewrite Hs, Hp, Ho. cbn. repeat split; discriminate.
Qed.

Lemma step_wellFormed (d : Direction) (g : SnakeGame) (r : RNG) :
  wellFormed g ->
  match (step Math_sin d g r).1 with
  | Some (_, g') => wellFormed g'
  | None => False
  end.
Proof.
  intros [Hne Hpp].
  destruct (isGameOver (state g)) eqn:Hover.
  { rewrite (step_over Math_sin d g r Hover). split; assumption. }
  destruct (snake (state g)) as [|h tl] eqn:Hsn; [congruence|].
  destruct (tick_fields (state g))
    as (T1 & T2 & T3 & T4 & T5 & T6 & T7 & T8 & T9 & T10 & T11).
  destruct (isDeadly g (tick (state g)) (moveHead d h)) eqn:Hdead.
  { unfold step. rewrite Hover, T1, Hsn, Hdead. cbn [fst].
    unfold wellFormed. cbn. rewrite T1, T10, T11, Hsn. split; [discriminate|exact Hpp]. }
  destruct (entersPortal (tick (state g)) (moveHead d h)) eqn:Hportal.
  { unfold step. rewrite Hover, T1, Hsn, Hdead, Hportal. unfold advanceLevel.
    match goal with |- context [updateWallMap ?x ?y] =>
      destruct (updateWallMap_fields x y) as (Hs & Hp & _);
      destruct (updateWallMap x y) as [g1 r1] end.
    cbn [fst snd] in *. unfold wellFormed. rewrite Hs, Hp. cbn.
    split; discriminate. }
  rewrite (step_moves Math_sin d g r h tl Hover Hsn Hdead Hportal).
  cbv zeta.
  pose proof (pickItem_fields (tick (state g)) (moveHead d h)
                (moveHead d h :: h :: tl) (-0.05)%Q) as HP.
  pose proof (pickItem_length (tick (state g)) (moveHead d h) (h :: tl)
                (-0.05)%Q ltac:(simpl; lia)) as Hlen.
  destruct (pickItem _ _ _ _) as [[st1 ns1] rw1]. cbn [fst snd] in HP, Hlen.
  destruct HP as (_ & _ & _ & _ & _ & _ & _ & P8 & P9 & _).
  rewrite T10 in P8. rewrite T11 in P9.
  assert (Hfin : forall st3 ns,
    (1 <= length ns)%nat ->
    (portalOpen st3 = true -> portalPoint st3 <> None) ->
    wellFormed (mkGame (set_snake ns (expireItems st3)) (wallMap g))).
  { intros st3 ns Hns Hp3. unfold wellFormed. cbn.
    split; [destruct ns; [simpl in Hns; lia|discriminate]|exact Hp3]. }
  unfold eatFood.
  destruct (point_eqb (moveHead d h) (food st1)).
  - set (st2 := set_itemsCollectedInLevel _ _).
    destruct ((LEVEL_GOAL <=? itemsCollectedInLevel st2)
              && negb (portalOpen st2)).
    + destruct (getRandomEmptyPoint g ns1 (walls (set_portalOpen true st2))
                  (specialItems (set_portalOpen true st2)) r) as [pp r1].
      match goal with
        |- context [getRandomEmptyPoint g ns1 ?w ?i ?rr] =>
          destruct (getRandomEmptyPoint g ns1 w i rr) as [fd r2] end.
      match goal with |- context [spawnItem g ?s ?n ?rr] =>
        pose proof (spawnItem_frame g s n rr) as Hfr;
        destruct (spawnItem g s n rr) as [st3 r3] end.
      cbn [fst snd] in *. apply Hfin; [lia|].
      rewrite Hfr. cbn. discriminate.
    + match goal with
        |- context [getRandomEmptyPoint g ns1 ?w ?i ?rr] =>
          destruct (getRandomEmptyPoint g ns1 w i rr) as [fd r2] end.
      match goal with |- context [spawnItem g ?s ?n ?rr] =>
        pose proof (spawnItem_frame g s n rr) as Hfr;
        destruct (spawnItem g s n rr) as [st3 r3] end.
      cbn [fst snd] in *. apply Hfin; [lia|].
      rewrite Hfr. cbn. rewrite P8, P9. exact Hpp.
  - match goal with |- context [spawnItem g ?s ?n ?rr] =>
      pose proof (spawnItem_frame g s n rr) as Hfr;
      destruct (spawnItem g s n rr) as [st3 r3] end.
    cbn [fst snd] in *. apply Hfin.
    + rewrite removelast_firstn_len, length_take. lia.
    + rewrite Hfr. cbn. rewrite P8, P9. exact Hpp.
Qed.

Lemma getStateString_wellFormed (a : Agent) :
  wellFormed (game a) -> exists s, getStateString a = Some s.
Proof.
  intros [Hne Hpp]. unfold getStateString, activeTarget.
  destruct (snake (state (game a))) as [|h tl]; [congruence|].
  destruct (portalOpen (state (game a))).
  - destruct (portalPoint (state (game a))) as [pp|].
    + eexists; reflexivity.
    + exfalso. now apply Hpp.
  - eexists; reflexivity.
Qed.

(** On a well-formed game that is not over, [update] returns normally and
    leaves a well-formed game. *)
Lemma update_progress (a : Agent) (r : RNG) :
  wellFormed (game a) ->
  exists a', (update Math_sin a r).1 = Some a' /\ wellFormed (game a').
Proof.
  intros Hwf. unfold update.
  destruct (isGameOver (state (game a))) eqn:Hover.
  { exists a. split; [reflexivity|exact Hwf]. }
  destruct (getStateString_wellFormed a Hwf) as (s & Hs). rewrite Hs.
  pose proof Hwf as [Hne Hpp].
  destruct (snake (state (game a))) as [|hb tl] eqn:Hsn; [congruence|].
  assert (Ht : exists target, activeTarget (state (game a)) = Some target).
  { unfold activeTarget. destruct (portalOpen (state (game a))).
    - destruct (portalPoint (state (game a))) as [pp|]; [eexists; reflexivity|].
      exfalso. now apply Hpp.
    - eexists; reflexivity. }
  destruct Ht as (target & Ht). rewrite Ht.
  destruct (chooseAction s a r) as [[action a1] r1] eqn:Hch.
  pose proof (chooseAction_fields s a r) as (_ & Hg & _).
  rewrite Hch in Hg. cbn [fst snd] in Hg. rewrite Hg.
  pose proof (step_wellFormed (directionOfIndex action) (game a) r1 Hwf) as Hst.
  destruct (step Math_sin (directionOfIndex action) (game a) r1)
    as [[[reward g']|] r2]; cbn [fst] in Hst; [|destruct Hst].
  assert (Hsh : exists shaped,
    shapeReward reward g' target (manhattan hb target) = Some shaped).
  { unfold shapeReward. destruct (isGameOver (state g')); [eexists; reflexivity|].
    destruct Hst as [Hne' _].
    destruct (snake (state g')) as [|ha tl']; [congruence|].
    destruct (_ <? _); [eexists; reflexivity|].
    destruct (_ <? _); eexists; reflexivity. }
  destruct Hsh as (shaped & Hsh). rewrite Hsh. cbn [fst].
  unfold learn.
  set (a2 := set_totalStepsEver _ _).
  assert (Hg2 : game a2 = g') by reflexivity.
  destruct (getStateString_wellFormed a2 ltac:(rewrite Hg2; exact Hst))
    as (s' & Hs').
  rewrite Hs'.
  pose proof (getQValues_fields s' a2) as (_ & G1 & _).
  destruct (getQValues s' a2) as [nq a3]. cbn [fst snd] in G1.
  pose proof (getQValues_fields s a3) as (_ & G2 & _).
  destruct (getQValues s a3) as [cq a4]. cbn [fst snd] in G2.
  eexists. split; [reflexivity|]. cbn. rewrite G2, G1, Hg2. exact Hst.
Qed.

Lemma hostRun_epsilon (r0 : RNG) (n : N) (a : Agent) (r : RNG) :
  hostRun Math_sin r0 n a r -> epsilon a = epsilonAfter n.
Proof.
  induction 1 as [|n a r Hrun IH Hover|n a a' r r' Hrun IH Hover Hup].
  - unfold newAgent. destruct (newSnakeGame Math_sin 1 r0). reflexivity.
  - unfold reset. destruct (newSnakeGame Math_sin _ r). exact IH.
  - rewrite (update_decays_once Math_sin a a' r r' Hover Hup), IH.
    symmetry. apply epsilonAfter_succ.
Qed.

(** A host can carry every number of decisions out. *)
Lemma hostRun_exists (r0 : RNG) (n : N) :
  exists a r, hostRun Math_sin r0 n a r /\ wellFormed (game a).
Proof.
  induction n as [|n IH] using N.peano_ind.
  - exists (newAgent Math_sin r0).1, (newAgent Math_sin r0).2.
    split; [constructor|].
    unfold newAgent.
    pose proof (newSnakeGame_wellFormed 1 r0) as [H _].
    destruct (newSnakeGame Math_sin 1 r0). exact H.
  - destruct IH as (a & r & Hrun & Hwf).
    assert (Hgo : exists a1 r1, hostRun Math_sin r0 n a1 r1 /\ wellFormed (game a1)
                    /\ isGameOver (state (game a1)) = false).
    { destruct (isGameOver (state (game a))) eqn:Hover.
      - exists (reset Math_sin a r).1, (reset Math_sin a r).2.
        split; [now constructor|].
        unfold reset.
        pose proof (newSnakeGame_wellFormed (level (state (game a))) r) as H.
        destruct (newSnakeGame Math_sin _ r). exact H.
      - exists a, r. repeat split; try assumption; apply Hwf. }
    destruct Hgo as (a1 & r1 & Hrun1 & Hwf1 & Hover1).
    destruct (update_progress a1 r1 Hwf1) as (a' & Hup & Hwf').
    exists a', (update Math_sin a1 r1).2. split; [|exact Hwf'].
    eapply host_update; [exact Hrun1|exact Hover1|].
    destruct (update Math_sin a1 r1) as [o r2]. cbn [fst snd] in *.
    rewrite Hup. reflexivity.
Qed.

End ProgressFacts.

(** Over any decision the exploration rate does not grow. *)
Lemma update_epsilon_le (sine : Q -> Q) (a a' : Agent) (r r' : RNG) :
  update sine a r = (Some a', r') -> (epsilon a' <= epsilon a)%Q.
Proof.
  intros Hup. destruct (isGameOver (state (game a))) eqn:Hover.
  - rewrite (update_over sine a r Hover) in Hup. injection Hup as <- _.
    apply Qle_refl.
  - rewrite (update_decays_once sine a a' r r' Hover Hup).
    apply decayEpsilon_le.
Qed.

(** C4.  The exploration rate drops below [epsilonMin].  An agent restored
    with the rate 0.0100000001 has a rate below 0.01 after one decision; and
    whatever the random draws, an agent constructed with the rate 1 still
    has a rate above 0.01 after 1535054 decisions and a rate below 0.01 after
    1535055 decisions, which a host can always carry out. *)
Theorem epsilon_drops_below_epsilonMin :
  (Qltb epsilonMin (epsilon nearFloorAgent) = true /\
   option_map (fun a => Qltb (epsilon a) epsilonMin)
     (update sineUnused nearFloorAgent freshAgentRNG).1 = Some true) /\
  (epsilonMin < epsilonAfter 1535054)%Q /\
  (epsilonAfter 1535055 < epsilonMin)%Q /\
  (forall (sine : Q -> Q) (r0 : RNG),
     (exists a r, hostRun sine r0 1535055 a r) /\
     (forall a r, hostRun sine r0 1535055 a r -> (epsilon a < epsilonMin)%Q)).
Proof.
  assert (Hlow : (epsilonAfter 1535055 < epsilonMin)%Q).
  { rewrite epsilonAfter_pow by lia. apply pow_1535055_below. }
  split; [split; vm_compute; reflexivity|].
  split; [rewrite epsilonAfter_pow by lia; apply pow_1535054_above|].
  split; [exact Hlow|].
  intros sine r0. split.
  - destruct (hostRun_exists sine r0 1535055) as (a & r & Hrun & _).
    exists a, r. exact Hrun.
  - intros a r Hrun. rewrite (hostRun_epsilon sine r0 _ a r Hrun). exact Hlow.
Qed.

(** ** Restoring from the store *)

Section LoadFacts.

Variable JSON_parse : string -> option Persist.JSON.

(** [loadFromStorage] lets no exception escape. *)
Lemma loadFromStorage_returns (store : gmap string string)
    (a : Persist.Restored) :
  exists a', Persist.loadFromStorage JSON_parse store a = Some a'.
Proof.
  unfold Persist.loadFromStorage.
  destruct (Persist.truthy (store !! "qs_v6_qtable")) as [t|]; simpl.
  - unfold Persist.tryCatch.
    destruct (JSON_parse t) as [obj|]; simpl; [|eexists; reflexivity].
    destruct (Persist.Object_entries obj); simpl; eexists; reflexivity.
  - eexists; reflexivity.
Qed.

(** A table text that [JSON.parse] rejects leaves the table as it was and
    is logged. *)
Lemma loadFromStorage_syntax_error (t : string) (a : Persist.Restored) :
  t <> EmptyString ->
  JSON_parse t = None ->
  Persist.loadFromStorage JSON_parse {[ "qs_v6_qtable" := t ]} a
  = Some (Persist.mkRestored (Persist.r_qTable a) (Persist.r_epsilon a)
            (Persist.r_totalStepsEver a)
            (Persist.console a ++ ["Failed to load QTable"])).
Proof.
  intros Hne Hparse. unfold Persist.loadFromStorage.
  rewrite lookup_singleton_eq.
  rewrite !lookup_singleton_ne by discriminate.
  destruct t as [|c t']; [congruence|].
  cbn [Persist.truthy]. rewrite Hparse. reflexivity.
Qed.

End LoadFacts.

(** The text of a rate just above the floor parses to that rate. *)
Lemma parseFloat_near_floor :
  Persist.parseFloat "0.0100000001" = Persist.Finite (epsilon nearFloorAgent).
Proof. vm_compute. reflexivity. Qed.

(** C9.  Malformed persisted values are stored as they parse.  Whatever
    [JSON.parse] does, a store whose scalar entries are not numbers leaves
    the exploration rate and the lifetime step count [NaN] and not 1 and 0;
    and a table text that is well-formed JSON but no value table, such as
    the array [[1,2]], becomes a table with the entries 0 and 1 whose values
    are numbers. *)
Theorem malformed_payload_is_stored :
  (forall JSON_parse : string -> option Persist.JSON,
     Persist.loadFromStorage JSON_parse
       {[ "qs_v6_epsilon" := "abc"; "qs_v6_steps" := "many" ]}
       Persist.initialFields
     = Some (Persist.mkRestored ∅ Persist.NaN Persist.NaN [])) /\
  Persist.loadFromStorage parsePair {[ "qs_v6_qtable" := "[1,2]" ]}
    Persist.initialFields
  = Some (Persist.mkRestored
            (<["1" := Persist.JNum 2]> (<["0" := Persist.JNum 1]> ∅))
            (Persist.Finite 1) (Persist.Finite 0) []).
Proof.
  split.
  - intros JSON_parse. vm_compute. reflexivity.
  - vm_compute. reflexivity.
Qed.

(** ** The obstacle cache and the obstacle list *)

Lemma markWall_shaped (wm : WallMap) (w : Point) :
  boardShaped wm -> boardShaped (markWall wm w).
Proof.
  intros [Hl Hr]. unfold markWall. destruct (_ && _); [|split; assumption].
  unfold WallMap in *. split.
  - now rewrite length_alter.
  - apply Forall_forall. intros row Hin.
    apply list_elem_of_lookup in Hin as (i & Hi).
    rewrite list_lookup_alter in Hi. rewrite Forall_forall in Hr.
    destruct (decide (Z.to_nat (p_y w) = i)) as [->|Hne].
    + destruct (wm !! i) as [row0|] eqn:E; [|discriminate].
      injection Hi as <-. rewrite length_insert. apply Hr.
      apply list_elem_of_lookup. eauto.
    + apply Hr. apply list_elem_of_lookup. eauto.
Qed.

Lemma fold_markWall_shaped (ws : list Point) (wm : WallMap) :
  boardShaped wm -> boardShaped (fold_left markWall ws wm).
Proof.
  revert wm. induction ws as [|w ws IH]; intros wm H; simpl; [exact H|].
  apply IH. now apply markWall_shaped.
Qed.

Lemma emptyBoard_shaped : boardShaped emptyBoard.
Proof.
  split; [reflexivity|]. unfold emptyBoard.
  apply Forall_forall. intros row Hin.
  apply elem_of_replicate in Hin as [-> _]. reflexivity.
Qed.

Lemma wallAt_emptyBoard (x y : Z) : wallAt emptyBoard x y = false.
Proof.
  unfold wallAt. destruct (_ && _); [|reflexivity].
  unfold emptyBoard, WallMap.
  match goal with |- match ?t with _ => _ end = _ => destruct t as [row|] eqn:E end;
    [|reflexivity].
  apply lookup_replicate in E as [-> _].
  destruct (replicate (Z.to_nat GRID_SIZE) false !! Z.to_nat x) as [b|] eqn:E';
    [|reflexivity].
  apply lookup_replicate in E' as [-> _]. reflexivity.
Qed.

(** One assignment [wallMap[w.y][w.x] = true] on a cache of the shape of the
    board. *)
Lemma wallAt_markWall (wm : WallMap) (w : Point) (x y : Z) :
  boardShaped wm ->
  wallAt (markWall wm w) x y = true <->
  wallAt wm x y = true \/ (inBoard w /\ w = mkPoint x y).
Proof.
  intros [Hl Hr]. unfold markWall, inBoard, GRID_SIZE in *.
  destruct ((0 <=? p_x w) && (p_x w <? 30) && (0 <=? p_y w) && (p_y w <? 30))
    eqn:Hb.
  - apply andb_true_iff in Hb as [Hb Hb4].
    apply andb_true_iff in Hb as [Hb Hb3].
    apply andb_true_iff in Hb as [Hb1 Hb2].
    apply Z.leb_le in Hb1, Hb3. apply Z.ltb_lt in Hb2, Hb4.
    unfold wallAt, WallMap in *.
    destruct ((0 <=? x) && (0 <=? y)) eqn:Hxy.
    + apply andb_true_iff in Hxy as [Hx Hy]. apply Z.leb_le in Hx, Hy.
      rewrite list_lookup_alter.
      destruct (decide (Z.to_nat (p_y w) = Z.to_nat y)) as [Ey|Ny].
      * rewrite <- Ey.
        destruct (wm !! Z.to_nat (p_y w)) as [row|] eqn:Erow.
        -- cbn. assert (Hrow : length row = 30%nat).
           { rewrite Forall_forall in Hr. apply Hr.
             apply list_elem_of_lookup. eauto. }
           destruct (decide (Z.to_nat (p_x w) = Z.to_nat x)) as [Ex|Nx].
           ++ rewrite <- Ex, list_lookup_insert_eq by lia. cbn.
              split; [intros _|reflexivity]. right.
              split; [lia|]. destruct w; cbn in *. f_equal; lia.
           ++ rewrite list_lookup_insert_ne by assumption.
              split; [tauto|]. intros [H|[_ ->]]; [exact H|].
              cbn in Nx. congruence.
        -- apply lookup_ge_None in Erow. lia.
      * split; [tauto|]. intros [H|[_ ->]]; [exact H|]. cbn in Ny. congruence.
    + split; [discriminate|]. intros [H|[_ ->]]; [discriminate|].
      cbn in *. apply andb_false_iff in Hxy as [H|H]; apply Z.leb_gt in H; lia.
  - split; [tauto|]. intros [H|[Hin _]]; [exact H|].
    exfalso. destruct Hin as [[H1 H2] [H3 H4]].
    apply Z.leb_le in H1, H3. apply Z.ltb_lt in H2, H4.
    rewrite H1, H2, H3, H4 in Hb. discriminate.
Qed.

Lemma wallAt_fold_markWall (ws : list Point) (wm : WallMap) (x y : Z) :
  boardShaped wm ->
  wallAt (fold_left markWall ws wm) x y = true <->
  wallAt wm x y = true \/ (inBoard (mkPoint x y) /\ In (mkPoint x y) ws).
Proof.
  revert wm. induction ws as [|w ws IH]; intros wm Hs; simpl.
  - tauto.
  - rewrite (IH _ (markWall_shaped wm w Hs)), (wallAt_markWall wm w x y Hs).
    split.
    + intros [[H|[Hin ->]]|[Hin H]]; auto.
    + intros [H|[Hin [->|H]]]; auto.
Qed.

(** On a game whose cache is current, [wallAt] answers membership of the
    obstacle list. *)
Lemma wallAt_cacheCurrent (g : SnakeGame) (x y : Z) :
  cacheCurrent g ->
  wallAt (wallMap g) x y = true <->
  inBoard (mkPoint x y) /\ In (mkPoint x y) (walls (state g)).
Proof.
  intros ->. rewrite (wallAt_fold_markWall _ _ x y emptyBoard_shaped).
  rewrite wallAt_emptyBoard. split; [intros [?|?]; [discriminate|assumption]|auto].
Qed.

Section WallListFacts.

Variable Math_sin : Q -> Q.

(** The cells [getLevelWalls] lists. *)
Lemma getLevelWalls_cells (lvl : Z) (w : Point) :
  In w (getLevelWalls Math_sin lvl) ->
  inBoard w /\ inSpawnArea (p_x w) (p_y w) = false.
Proof.
  unfold getLevelWalls, inBoard, GRID_SIZE.
  destruct (lvl =? 2).
  { rewrite in_flat_map. intros (i & Hi & Hin). apply In_seqZ in Hi.
    apply in_app_or in Hin as [Hin|Hin].
    - destruct Hin as [<-|[<-|[]]]; cbn; unfold inSpawnArea; cbn;
        (split; [lia|]); apply andb_false_iff; right; apply Z.ltb_ge; lia.
    - destruct ((10 <? i) && (i <? 20) && negb (i =? 15)) eqn:E;
        [|destruct Hin].
      apply andb_true_iff in E as [E E3]. apply andb_true_iff in E as [E1 E2].
      apply Z.ltb_lt in E1, E2.
      destruct Hin as [<-|[<-|[]]]; cbn; unfold inSpawnArea; cbn;
        (split; [lia|]); apply andb_false_iff; left; apply Z.ltb_ge; lia. }
  destruct (lvl =? 3).
  { rewrite in_flat_map. intros (i & Hi & Hin). apply In_seqZ in Hi.
    destruct Hin as [<-|[<-|[<-|[<-|[]]]]]; cbn; unfold inSpawnArea; cbn;
      (split; [lia|]); apply andb_false_iff;
      first [right; apply Z.ltb_ge; lia | left; apply Z.ltb_ge; lia]. }
  destruct (4 <=? lvl); [|intros []].
  rewrite in_flat_map. intros (i & Hi & Hin).
  apply in_flat_map in Hin as (j & Hj & Hin). apply In_seqZ in Hi, Hj.
  destruct (inSpawnArea i j) eqn:Hs; [destruct Hin|].
  destruct (Qltb _ _); [|destruct Hin].
  destruct Hin as [<-|[]]. cbn. split; [unfold GRID_SIZE in *; lia|exact Hs].
Qed.

(** X2.  At every level, whatever the sine, the obstacles [getLevelWalls]
    lists are cells of the board and none of them lies in the spawn area,
    the cells 13 to 17 on both axes; below level 2 there is none. *)
Theorem getLevelWalls_sound (lvl : Z) :
  (forall w, In w (getLevelWalls Math_sin lvl) ->
     inBoard w /\ ~ (13 <= p_x w <= 17 /\ 13 <= p_y w <= 17)) /\
  (lvl < 2 -> getLevelWalls Math_sin lvl = []).
Proof.
  split.
  - intros w Hin. destruct (getLevelWalls_cells lvl w Hin) as [Hb Hs].
    split; [exact Hb|]. unfold inSpawnArea in Hs. intros [Hx Hy].
    apply andb_false_iff in Hs as [Hs|Hs]; apply Z.ltb_ge in Hs; lia.
  - intros Hl. unfold getLevelWalls.
    replace (lvl =? 2) with false by (symmetry; apply Z.eqb_neq; lia).
    replace (lvl =? 3) with false by (symmetry; apply Z.eqb_neq; lia).
    replace (4 <=? lvl) with false by (symmetry; apply Z.leb_gt; lia).
    reflexivity.
Qed.

End WallListFacts.

(** ** The bounded random search *)

Lemma inBoard_origin : inBoard (mkPoint 0 0).
Proof. unfold inBoard, GRID_SIZE. cbn. lia. Qed.

Lemma randomBelow_rng (n : Z) (r : RNG) :
  tape (randomBelow n r).2 = tape r /\ pos (randomBelow n r).2 = S (pos r).
Proof. unfold randomBelow, Math_random. cbn. split; reflexivity. Qed.

Lemma getRandomEmptyPoint_loop_spec (n : nat) (wm : WallMap) (sn : list Point)
    (items : list SpecialItem) (r : RNG) :
  let res := getRandomEmptyPoint_loop n wm sn items r in
  inBoard res.1 /\ tape res.2 = tape r /\
  exists k : nat,
    (k <= n)%nat /\ (n = O \/ 1 <= k)%nat /\ pos res.2 = (pos r + 2 * k)%nat /\
    (isOpenCell wm sn items res.1 \/ (k = n /\ res.1 = mkPoint 0 0)).
Proof.
  revert r. induction n as [|n IH]; intros r; cbn [getRandomEmptyPoint_loop].
  - cbn. split; [apply inBoard_origin|]. split; [reflexivity|].
    exists O. repeat split; auto with lia.
  - pose proof (randomBelow_range GRID_SIZE r ltac:(unfold GRID_SIZE; lia)) as Hx.
    pose proof (randomBelow_rng GRID_SIZE r) as [Tx Px].
    destruct (randomBelow GRID_SIZE r) as [x r1]. cbn [fst snd] in Hx, Tx, Px.
    pose proof (randomBelow_range GRID_SIZE r1 ltac:(unfold GRID_SIZE; lia)) as Hy.
    pose proof (randomBelow_rng GRID_SIZE r1) as [Ty Py].
    destruct (randomBelow GRID_SIZE r1) as [y r2]. cbn [fst snd] in Hy, Ty, Py.
    assert (Hrec :
      let res := getRandomEmptyPoint_loop n wm sn items r2 in
      inBoard res.1 /\ tape res.2 = tape r /\
      exists k : nat,
        (k <= S n)%nat /\ (S n = O \/ 1 <= k)%nat /\
        pos res.2 = (pos r + 2 * k)%nat /\
        (isOpenCell wm sn items res.1 \/ (k = S n /\ res.1 = mkPoint 0 0))).
    { destruct (IH r2) as (Hb & Ht & k & Hk & _ & Hp & Ho).
      cbv zeta. split; [exact Hb|]. split; [congruence|].
      exists (S k). split; [lia|]. split; [right; lia|]. split; [lia|].
      destruct Ho as [Ho|[-> Ho]]; [left; exact Ho|right; split; [reflexivity|exact Ho]]. }
    destruct (wallAt wm x y) eqn:Hw; [exact Hrec|].
    destruct (hitsSnake sn (mkPoint x y)) eqn:Hs; [exact Hrec|].
    destruct (hitsItems items (mkPoint x y)) eqn:Hi; [exact Hrec|].
    cbn [fst snd]. split; [split; assumption|]. split; [congruence|].
    exists 1%nat. split; [lia|]. split; [right; lia|]. split; [lia|].
    left. repeat split; assumption.
Qed.

Lemma getRandomEmptyPoint_inBoard (g : SnakeGame) (sn ws : list Point)
    (items : list SpecialItem) (r : RNG) :
  inBoard (getRandomEmptyPoint g sn ws items r).1.
Proof. apply getRandomEmptyPoint_loop_spec. Qed.

(** X3.  The bounded random search returns a cell of the board after at most
    500 samples of two draws each; the cell is open (no obstacle, not on the
    given body, under none of the given items), unless all 500 samples were
    refused and the cell is the corner (0, 0). *)
Theorem getRandomEmptyPoint_bounded (g : SnakeGame) (sn ws : list Point)
    (items : list SpecialItem) (r : RNG) :
  let res := getRandomEmptyPoint g sn ws items r in
  inBoard res.1 /\ tape res.2 = tape r /\
  exists k : nat,
    (1 <= k <= 500)%nat /\ pos res.2 = (pos r + 2 * k)%nat /\
    (isOpenCell (wallMap g) sn items res.1 \/
     (k = 500%nat /\ res.1 = mkPoint 0 0)).
Proof.
  destruct (getRandomEmptyPoint_loop_spec 500 (wallMap g) sn items r)
    as (Hb & Ht & k & Hk & Hk1 & Hp & Ho).
  cbv zeta. split; [exact Hb|]. split; [exact Ht|].
  exists k. split; [destruct Hk1; lia|]. split; assumption.
Qed.

(** ** The stages of a move *)

Lemma pickItem_spec (st : GameState) (head : Point) (ns : list Point) (rw : Q) :
  let res := pickItem st head ns rw in
  let picked := pickedItem (specialItems st) head in
  res.1.2 = popN (cutOf picked (length ns)) ns /\
  res.2 = itemReward picked rw /\
  (slowEffectSteps res.1.1 = slowEffectSteps st \/ slowEffectSteps res.1.1 = 20) /\
  (picked = None -> slowEffectSteps res.1.1 = slowEffectSteps st).
Proof.
  unfold pickItem, pickedItem, cutOf, itemReward.
  destruct (findPicked (specialItems st) head) as [i|]; cbn [fst snd].
  - destruct (specialItems st !! i) as [it|] eqn:E; cbn [fst snd].
    + unfold applyItem. destruct (type it); cbn; repeat split; auto; discriminate.
    + repeat split; auto.
  - repeat split; auto.
Qed.

Lemma eatFood_spec (g : SnakeGame) (st : GameState) (head : Point)
    (ns : list Point) (rw : Q) (r : RNG) :
  let res := eatFood g st head ns rw r in
  let st' := res.1.1.1 in
  let ate := point_eqb head (food st) in
  snake st' = snake st /\ specialItems st' = specialItems st /\
  walls st' = walls st /\ level st' = level st /\
  isGameOver st' = isGameOver st /\ steps st' = steps st /\
  slowEffectSteps st' = slowEffectSteps st /\
  score st' = score st + (if ate then 1 else 0) /\
  itemsCollectedInLevel st'
    = itemsCollectedInLevel st + (if ate then 1 else 0) /\
  res.1.1.2 = (if ate then ns else removelast ns) /\
  res.1.2 = (if ate then 30%Q else rw) /\
  (if ate
   then inBoard (food st') /\
        placedCell (wallMap g) ns (specialItems st) (food st')
   else food st' = food st) /\
  (if ate && (LEVEL_GOAL <=? itemsCollectedInLevel st + 1)
      && negb (portalOpen st)
   then portalOpen st' = true /\
        exists pp, portalPoint st' = Some pp /\ inBoard pp /\
                   placedCell (wallMap g) ns (specialItems st) pp
   else portalOpen st' = portalOpen st /\ portalPoint st' = portalPoint st).
Proof.
  unfold eatFood. cbv zeta.
  destruct (point_eqb head (food st)) eqn:Hate.
  - set (st2 := set_itemsCollectedInLevel _ _).
    change (itemsCollectedInLevel st + 1) with (itemsCollectedInLevel st2).
    change (portalOpen st) with (portalOpen st2).
    cbn [andb].
    destruct ((LEVEL_GOAL <=? itemsCollectedInLevel st2)
              && negb (portalOpen st2)).
    + pose proof (getRandomEmptyPoint_inBoard g ns (walls (set_portalOpen true st2))
                    (specialItems (set_portalOpen true st2)) r) as Hb1.
      pose proof (getRandomEmptyPoint_placed g ns (walls (set_portalOpen true st2))
                    (specialItems (set_portalOpen true st2)) r) as Hp1.
      destruct (getRandomEmptyPoint g ns (walls (set_portalOpen true st2))
                  (specialItems (set_portalOpen true st2)) r) as [pp r1].
      match goal with
        |- context [getRandomEmptyPoint g ns ?w ?i ?rr] =>
          pose proof (getRandomEmptyPoint_inBoard g ns w i rr) as Hb2;
          pose proof (getRandomEmptyPoint_placed g ns w i rr) as Hp2;
          destruct (getRandomEmptyPoint g ns w i rr) as [fd r2] end.
      cbn [fst snd] in *. cbn.
      split_and!; try reflexivity; try assumption.
      exists pp. split_and!; first [reflexivity | assumption].
    + match goal with
        |- context [getRandomEmptyPoint g ns ?w ?i ?rr] =>
          pose proof (getRandomEmptyPoint_inBoard g ns w i rr) as Hb2;
          pose proof (getRandomEmptyPoint_placed g ns w i rr) as Hp2;
          destruct (getRandomEmptyPoint g ns w i rr) as [fd r2] end.
      cbn [fst snd] in *. cbn.
      split_and!; first [reflexivity | assumption].
  - cbn. split_and!; first [reflexivity | lia].
Qed.

Lemma spawnItem_spec (g : SnakeGame) (st : GameState) (ns : list Point)
    (r : RNG) :
  exists spawned,
    (spawnItem g st ns r).1 = set_specialItems (specialItems st ++ spawned) st /\
    (spawned = [] \/
     exists p ty,
       spawned = [mkItem p ty (steps st + 150)] /\ In ty itemTypes /\
       Z.rem (steps st) 75 = 0 /\ (length (specialItems st) < 3)%nat /\
       inBoard p /\ placedCell (wallMap g) ns (specialItems st) p).
Proof.
  assert (Hnil : st = set_specialItems (specialItems st ++ []) st).
  { rewrite app_nil_r. destruct st; reflexivity. }
  unfold spawnItem.
  destruct (Z.rem (steps st) 75 =? 0) eqn:Hrem;
    [|exists []; split; [exact Hnil|left; reflexivity]].
  destruct (Math_random r) as [u r1].
  destruct (Qltb u 0.3 && (Z.of_nat (length (specialItems st)) <? 3)) eqn:Hc;
    [|exists []; split; [exact Hnil|left; reflexivity]].
  destruct (randomBelow _ r1) as [k r2].
  destruct (itemTypes !! Z.to_nat k) as [ty|] eqn:Hty;
    [|exists []; split; [exact Hnil|left; reflexivity]].
  pose proof (getRandomEmptyPoint_inBoard g ns (walls st) (specialItems st) r2) as Hb.
  pose proof (getRandomEmptyPoint_placed g ns (walls st) (specialItems st) r2) as Hp.
  destruct (getRandomEmptyPoint g ns (walls st) (specialItems st) r2) as [p r3].
  cbn [fst snd] in *.
  exists [mkItem p ty (steps st + 150)]. split; [reflexivity|]. right.
  exists p, ty. split; [reflexivity|].
  split; [apply list_elem_of_In; eapply list_elem_of_lookup_2; exact Hty|].
  apply andb_true_iff in Hc as [_ Hlen]. apply Z.ltb_lt in Hlen.
  apply Z.eqb_eq in Hrem.
  split_and!; first [assumption | lia].
Qed.

Section MoveFacts.

Variable Math_sin : Q -> Q.

Lemma step_moveOn (d : Direction) (g : SnakeGame) (r : RNG) (h : Point)
    (tl : list Point) :
  isGameOver (state g) = false ->
  snake (state g) = h :: tl ->
  isDeadly g (tick (state g)) (moveHead d h) = false ->
  entersPortal (tick (state g)) (moveHead d h) = false ->
  step Math_sin d g r =
    (Some ((moveOn g (moveHead d h) r).1.1, (moveOn g (moveHead d h) r).1.2),
     (moveOn g (moveHead d h) r).2).
Proof.
  intros Hover Hsn Hdead Hportal.
  rewrite (step_moves Math_sin d g r h tl Hover Hsn Hdead Hportal).
  unfold moveOn. cbv zeta.
  destruct (tick_fields (state g)) as (Hs & _). rewrite Hs, Hsn.
  destruct (pickItem _ _ _ _) as [[st1 ns1] rw1]. cbn [fst snd].
  destruct (eatFood _ _ _ _ _ _) as [[[st2 ns2] rw2] r2]. cbn [fst snd].
  destruct (spawnItem _ _ _ _) as [st3 r3]. reflexivity.
Qed.

(** The four ways a call of [step] on a game with a body can go. *)
Lemma step_cases (d : Direction) (g : SnakeGame) (r : RNG) (h : Point)
    (tl : list Point) :
  snake (state g) = h :: tl ->
  let st := tick (state g) in
  let head := moveHead d h in
  (isGameOver (state g) = true /\
   step Math_sin d g r = (Some ((-20)%Q, g), r)) \/
  (isGameOver (state g) = false /\ isDeadly g st head = true /\
   step Math_sin d g r
   = (Some ((-100)%Q, mkGame (set_isGameOver true st) (wallMap g)), r)) \/
  (isGameOver (state g) = false /\ isDeadly g st head = false /\
   entersPortal st head = true /\
   step Math_sin d g r
   = (Some (250%Q, (advanceLevel Math_sin (mkGame st (wallMap g)) r).1),
      (advanceLevel Math_sin (mkGame st (wallMap g)) r).2)) \/
  (isGameOver (state g) = false /\ isDeadly g st head = false /\
   entersPortal st head = false /\
   step Math_sin d g r
   = (Some ((moveOn g head r).1.1, (moveOn g head r).1.2),
      (moveOn g head r).2)).
Proof.
  intros Hsn. cbv zeta.
  destruct (isGameOver (state g)) eqn:Hover.
  { left. split; [reflexivity|]. now apply step_over. }
  right.
  destruct (tick_fields (state g)) as (T1 & _).
  destruct (isDeadly g (tick (state g)) (moveHead d h)) eqn:Hdead.
  { left. split; [reflexivity|]. split; [reflexivity|].
    unfold step. now rewrite Hover, T1, Hsn, Hdead. }
  right.
  destruct (entersPortal (tick (state g)) (moveHead d h)) eqn:Hportal.
  { left. repeat split.
    unfold step. rewrite Hover, T1, Hsn, Hdead, Hportal.
    destruct (advanceLevel _ _ _) as [g1 r1]. reflexivity. }
  right. repeat split.
  apply (step_moveOn d g r h tl); first [assumption | reflexivity].
Qed.

End MoveFacts.

(** ** Lists of cells *)

Lemma hitsSnake_false (sn : list Point) (p : Point) :
  hitsSnake sn p = false <-> ~ In p sn.
Proof.
  unfold hitsSnake. split.
  - intros H Hin.
    assert (Ht : existsb (fun s => point_eqb s p) sn = true).
    { apply existsb_exists. exists p. split; [exact Hin|apply point_eqb_refl]. }
    congruence.
  - intros Hn. destruct (existsb _ sn) eqn:E; [|reflexivity].
    apply existsb_exists in E as (x & Hin & Hx). apply point_eqb_eq in Hx.
    subst x. contradiction.
Qed.

Lemma hitsSnake_true (sn : list Point) (p : Point) :
  hitsSnake sn p = true <-> In p sn.
Proof.
  unfold hitsSnake. rewrite existsb_exists. split.
  - intros (x & Hin & Hx). apply point_eqb_eq in Hx. now subst x.
  - intros Hin. exists p. split; [exact Hin|apply point_eqb_refl].
Qed.

Lemma connected_take (n : nat) (l : list Point) :
  connected l -> connected (take n l).
Proof.
  revert n. induction l as [|p l IH]; intros n H; [now destruct n|].
  destruct n as [|n]; [exact I|].
  destruct l as [|q l]; [now destruct n|].
  destruct n as [|n]; [exact I|].
  destruct H as [Ha Hc]. split; [exact Ha|]. exact (IH (S n) Hc).
Qed.

Lemma NoDup_take_list (n : nat) (l : list Point) : NoDup l -> NoDup (take n l).
Proof.
  intros H. rewrite <- (take_drop n l) in H. now apply NoDup_app in H as [H _].
Qed.

Lemma In_take (n : nat) (l : list Point) (p : Point) :
  In p (take n l) -> In p l.
Proof.
  intros H. rewrite <- (take_drop n l). apply in_or_app. now left.
Qed.

Lemma adjacent_moveHead (d : Direction) (h : Point) : adjacent (moveHead d h) h.
Proof. unfold adjacent, manhattan. destruct d; cbn; lia. Qed.

(** ** The stages of a move, together *)

Lemma tick_slow (st : GameState) :
  slowEffectSteps (tick st)
  = (if 0 <? slowEffectSteps st then slowEffectSteps st - 1
     else slowEffectSteps st).
Proof. unfold tick. cbn. destruct (0 <? slowEffectSteps st); reflexivity. Qed.

Lemma isDeadly_false (g : SnakeGame) (st : GameState) (head : Point) :
  isDeadly g st head = false ->
  freeCell g head /\ ~ In head (snake st) /\
  steps st <= maxSteps + score st * 50.
Proof.
  unfold isDeadly, freeCell, inBoard. rewrite !orb_false_iff.
  intros ((((((H1 & H2) & H3) & H4) & H5) & H6) & H7).
  apply Z.ltb_ge in H1, H3, H7. apply Z.leb_gt in H2, H4.
  apply hitsSnake_false in H6.
  split_and!; first [assumption | lia].
Qed.

Lemma moveOn_spec (g : SnakeGame) (head : Point) (r : RNG) (h : Point)
    (tl : list Point) :
  snake (state g) = h :: tl ->
  let res := moveOn g head r in
  let st := state g in
  let st' := state res.1.2 in
  let picked := pickedItem (specialItems st) head in
  let rest := remainingItems (specialItems st) head in
  let ate := point_eqb head (food st) in
  let ns1 := popN (cutOf picked (length (head :: h :: tl))) (head :: h :: tl) in
  wallMap res.1.2 = wallMap g /\
  walls st' = walls st /\ level st' = level st /\
  isGameOver st' = isGameOver st /\ steps st' = steps st + 1 /\
  score st' = score st + itemScore picked + (if ate then 1 else 0) /\
  itemsCollectedInLevel st'
    = itemsCollectedInLevel st + (if ate then 1 else 0) /\
  (slowEffectSteps st' = slowEffectSteps (tick st) \/
   slowEffectSteps st' = 20) /\
  (picked = None -> slowEffectSteps st' = slowEffectSteps (tick st)) /\
  snake st' = (if ate then ns1 else removelast ns1) /\
  res.1.1 = (if ate then 30%Q else itemReward picked (-0.05)%Q) /\
  (if ate
   then inBoard (food st') /\ placedCell (wallMap g) ns1 rest (food st')
   else food st' = food st) /\
  (if ate && (LEVEL_GOAL <=? itemsCollectedInLevel st + 1)
      && negb (portalOpen st)
   then portalOpen st' = true /\
        exists pp, portalPoint st' = Some pp /\ inBoard pp /\
                   placedCell (wallMap g) ns1 rest pp
   else portalOpen st' = portalOpen st /\ portalPoint st' = portalPoint st) /\
  exists spawned,
    specialItems st'
    = filter (fun i => steps st + 1 < expires i) (rest ++ spawned) /\
    (spawned = [] \/
     exists p ty,
       spawned = [mkItem p ty (steps st + 1 + 150)] /\ In ty itemTypes /\
       Z.rem (steps st + 1) 75 = 0 /\ (length rest < 3)%nat /\
       inBoard p /\ placedCell (wallMap g) (snake st') rest p).
Proof.
  intros Hsn. unfold moveOn. cbv zeta.
  destruct (tick_fields (state g))
    as (T1 & T2 & T3 & T4 & T5 & T6 & T7 & T8 & T9 & T10 & T11).
  rewrite T1, Hsn.
  pose proof (pickItem_fields (tick (state g)) head (head :: h :: tl) (-0.05)%Q)
    as HP.
  pose proof (pickItem_spec (tick (state g)) head (head :: h :: tl) (-0.05)%Q)
    as HS.
  cbv zeta in HP, HS.
  set (p := pickItem (tick (state g)) head (head :: h :: tl) (-0.05)%Q) in *.
  destruct HP as (P1 & P2 & P3 & P4 & P5 & P6 & P7 & P8 & P9 & P10 & P11).
  destruct HS as (S1 & S2 & S3 & S4).
  rewrite T3 in P10, P11, S1, S2, S4.
  pose proof (eatFood_spec g p.1.1 head p.1.2 p.2 r) as HE. cbv zeta in HE.
  set (e := eatFood g p.1.1 head p.1.2 p.2 r) in *.
  destruct HE as (E1 & E2 & E3 & E4 & E5 & E6 & E7 & E8 & E9 & E10 & E11
                  & E12 & E13).
  rewrite P2, T2 in E8, E9, E10, E11, E12, E13.
  destruct (spawnItem_spec g e.1.1.1 e.1.1.2 e.2) as (spawned & HSp & Hspawned).
  set (s := spawnItem g e.1.1.1 e.1.1.2 e.2) in *.
  cbn [fst snd state wallMap].
  rewrite HSp. cbn.
  change (S (S (length tl))) with (length (head :: h :: tl)).
  split_and!.
  - reflexivity.
  - congruence.
  - congruence.
  - congruence.
  - congruence.
  - rewrite E8, P10, T5. reflexivity.
  - rewrite E9, P5, T7. reflexivity.
  - rewrite E7. destruct S3 as [S3|S3]; [left|right]; congruence.
  - intros Hn. rewrite E7. now apply S4.
  - rewrite E10, S1. reflexivity.
  - rewrite E11, S2. reflexivity.
  - destruct (point_eqb head (food (state g))); [|congruence].
    rewrite <- S1, <- P11, <- E2. rewrite E2 at 1. exact E12.
  - rewrite P5, T7, P8, T10 in E13.
    destruct (point_eqb head (food (state g)) &&
              (LEVEL_GOAL <=? itemsCollectedInLevel (state g) + 1) &&
              negb (portalOpen (state g))).
    + rewrite <- S1, <- P11. exact E13.
    + rewrite P9, T11 in E13. exact E13.
  - exists spawned. rewrite E6, P7, T9, E2, P11. split; [reflexivity|].
    destruct Hspawned as [->|(q & ty & -> & Hty & Hrem & Hlen & Hb & Hpl)];
      [left; reflexivity|right].
    exists q, ty. rewrite E6, P7, T9 in Hrem. rewrite E2, P11 in Hlen, Hpl.
    rewrite E6, P7, T9.
    split_and!; try assumption. reflexivity.
Qed.

(** ** What a move keeps *)

Lemma updateWallMap_spec (g : SnakeGame) (r : RNG) :
  let g' := (updateWallMap g r).1 in
  wallMap g' = fold_left markWall (walls (state g)) (clearWallMap (wallMap g)) /\
  exists f, state g' = set_food f (state g) /\ inBoard f /\
            placedCell (wallMap g') (snake (state g)) [] f.
Proof.
  unfold updateWallMap. cbv zeta.
  match goal with |- context [getRandomEmptyPoint ?a ?b ?c ?d ?e] =>
    pose proof (getRandomEmptyPoint_inBoard a b c d e) as Hb;
    pose proof (getRandomEmptyPoint_placed a b c d e) as Hp;
    destruct (getRandomEmptyPoint a b c d e) as [f r1] end.
  cbn [fst snd state wallMap] in *. split; [reflexivity|].
  exists f. split_and!; [reflexivity|exact Hb|exact Hp].
Qed.

(** The body a move leaves is a prefix of the old body with the new head in
    front. *)
Lemma moved_body (o : option SpecialItem) (ate : bool) (l : list Point) :
  let ns1 := popN (cutOf o (length l)) l in
  exists m,
    (if ate then ns1 else removelast ns1) = take m l /\
    (m <= length l)%nat /\ ((4 <= length l)%nat -> (3 <= m)%nat).
Proof.
  cbv zeta. rewrite popN_take.
  set (k := cutOf o (length l)).
  assert (Hk : (k = 0 \/ 5 <= length l - k)%nat).
  { subst k. unfold cutOf. destruct o as [it|]; [|now left].
    destruct (type it); try now left. lia. }
  destruct ate.
  - exists (length l - k)%nat. split; [reflexivity|]. lia.
  - exists (length l - k - 1)%nat.
    rewrite removelast_firstn_len, length_take, take_take.
    split; [f_equal; lia|]. lia.
Qed.

Lemma remainingItems_In (items : list SpecialItem) (head : Point)
    (it : SpecialItem) :
  In it (remainingItems items head) -> In it items.
Proof.
  unfold remainingItems.
  destruct (findPicked items head) as [i|]; [|auto].
  destruct (items !! i); [|auto].
  intros H. apply list_elem_of_In in H. apply list_elem_of_In.
  eapply list_elem_of_delete_inv. exact H.
Qed.

Lemma remainingItems_length (items : list SpecialItem) (head : Point) :
  (length (remainingItems items head) <= length items)%nat.
Proof.
  unfold remainingItems.
  destruct (findPicked items head) as [i|]; [|lia].
  destruct (items !! i) eqn:E; [|lia].
  rewrite length_delete by eauto. lia.
Qed.

Lemma itemScore_nonneg (o : option SpecialItem) : 0 <= itemScore o.
Proof. unfold itemScore. destruct o as [it|]; [destruct (type it)|]; lia. Qed.

Lemma placedCell_placedOk (g g' : SnakeGame) (sn : list Point)
    (items : list SpecialItem) (p : Point) :
  wallMap g' = wallMap g -> inBoard p -> placedCell (wallMap g) sn items p ->
  placedOk g' p.
Proof.
  intros Hw Hb [->|(Ho & _)]; (split; [exact Hb|]); [now left|right].
  now rewrite Hw.
Qed.

Lemma moveOn_gameInv (d : Direction) (g : SnakeGame) (r : RNG) (h : Point)
    (tl : list Point) :
  gameInv g ->
  isGameOver (state g) = false ->
  snake (state g) = h :: tl ->
  isDeadly g (tick (state g)) (moveHead d h) = false ->
  gameInv (moveOn g (moveHead d h) r).1.2.
Proof.
  intros (Hcache & (Hlen & Hnd & Hconn & Hfree) & (Hil & Hitems)
          & (Hpo & Hpp) & (Hfood & Hfsn) & (Hc1 & Hc2 & Hc3 & Hc4))
         Hover Hsn Hdead.
  apply isDeadly_false in Hdead as (Hhead & Hnin & Hsteps).
  destruct (tick_fields (state g))
    as (T1 & T2 & T3 & T4 & T5 & T6 & T7 & T8 & T9 & T10 & T11).
  rewrite T1, Hsn in Hnin. rewrite T9, T5 in Hsteps. rewrite Hover in Hc4.
  rewrite Hsn in Hlen, Hnd, Hconn, Hfree, Hfsn.
  pose proof (moveOn_spec g (moveHead d h) r h tl Hsn) as HM. cbv zeta in HM.
  set (head := moveHead d h) in *.
  set (g' := (moveOn g head r).1.2) in *.
  destruct HM as (M1 & M2 & M3 & M4 & M5 & M6 & M7 & M8 & _ & M10 & _ & M12
                  & M13 & spawned & M14 & M15).
  set (picked := pickedItem (specialItems (state g)) head) in *.
  set (rest := remainingItems (specialItems (state g)) head) in *.
  destruct (moved_body picked (point_eqb head (food (state g)))
              (head :: h :: tl)) as (m & Hm & Hm1 & Hm2).
  cbv zeta in Hm. rewrite Hm in M10. cbn [length] in Hm1, Hm2, Hlen.
  assert (Hsub : forall p, In p (snake (state g')) -> p = head \/ In p (h :: tl)).
  { intros p Hp. rewrite M10 in Hp. apply In_take in Hp.
    destruct Hp as [<-|Hp]; [now left|now right]. }
  assert (Hndall : NoDup (head :: h :: tl))
    by (constructor; [rewrite list_elem_of_In; exact Hnin|exact Hnd]).
  unfold gameInv, bodyOk, itemsOk, portalOk, goalOk, countersOk.
  split_and!.
  - unfold cacheCurrent in *. now rewrite M1, M2.
  - rewrite M10, length_take. cbn [length]. lia.
  - rewrite M10. now apply NoDup_take_list.
  - rewrite M10. apply connected_take. split; [apply adjacent_moveHead|exact Hconn].
  - rewrite M10. apply Forall_take. constructor.
    + unfold freeCell in *. now rewrite M1.
    + eapply Forall_impl; [exact Hfree|]. intros p Hp.
      unfold freeCell in *. now rewrite M1.
  - rewrite M14. etransitivity; [apply length_filter|]. rewrite length_app.
    pose proof (remainingItems_length (specialItems (state g)) head) as Hr.
    fold rest in Hr.
    destruct M15 as [->|(q & ty & -> & _ & _ & Hl3 & _)]; cbn [length]; lia.
  - rewrite M14. apply Forall_forall. intros it Hit.
    apply list_elem_of_filter in Hit as [Hexp Hit].
    apply elem_of_app in Hit as [Hit|Hit].
    + apply list_elem_of_In, remainingItems_In in Hit.
      rewrite Forall_forall in Hitems.
      apply list_elem_of_In in Hit.
      destruct (Hitems it Hit) as (I1 & I2 & I3 & I4).
      unfold itemOk. rewrite M5.
      split_and!; try assumption; try lia; intros _; lia.
    + destruct M15 as [->|(q & ty & -> & Hty & _ & _ & Hq & _)];
        [now apply elem_of_nil in Hit|].
      apply list_elem_of_singleton in Hit as ->.
      unfold itemOk. rewrite M5. cbn [point type expires].
      split_and!; try assumption; try lia; intros _; lia.
  - rewrite M7.
    destruct (point_eqb head (food (state g))) eqn:Hate; cbn [andb] in M13.
    + destruct ((LEVEL_GOAL <=? itemsCollectedInLevel (state g) + 1)
                && negb (portalOpen (state g))) eqn:Hopen.
      * destruct M13 as (M13 & _). rewrite M13. symmetry.
        apply andb_true_iff in Hopen as [Hopen _]. exact Hopen.
      * destruct M13 as (M13 & _). rewrite M13, Hpo.
        rewrite Hpo in Hopen. unfold LEVEL_GOAL in *.
        destruct (10 <=? itemsCollectedInLevel (state g)) eqn:E1;
          destruct (10 <=? itemsCollectedInLevel (state g) + 1) eqn:E2;
          try reflexivity; try discriminate.
        apply Z.leb_le in E1. apply Z.leb_gt in E2. lia.
    + destruct M13 as (M13 & _). rewrite M13, Hpo. f_equal. lia.
  - destruct (point_eqb head (food (state g)) &&
              (LEVEL_GOAL <=? itemsCollectedInLevel (state g) + 1) &&
              negb (portalOpen (state g))).
    + destruct M13 as (M13 & pp & Hpp' & Hb & Hpl). rewrite Hpp'.
      split; [exact M13|].
      now apply (placedCell_placedOk g g' _ _ _ M1 Hb Hpl).
    + destruct M13 as (M13 & M13'). rewrite M13', M13.
      destruct (portalPoint (state g)) as [pp|]; [|exact Hpp].
      destruct Hpp as [Hpp1 Hpp2]. split; [exact Hpp1|].
      unfold placedOk in *. now rewrite M1.
  - destruct (point_eqb head (food (state g))).
    + destruct M12 as [Hb Hpl].
      now apply (placedCell_placedOk g g' _ _ _ M1 Hb Hpl).
    + rewrite M12. unfold placedOk in *. now rewrite M1.
  - destruct (point_eqb head (food (state g))) eqn:Hate.
    + destruct M12 as [Hb [Hpl|(_ & Hpl & _)]]; [now left|right].
      rewrite M10, <- Hm. now apply hitsSnake_false.
    + rewrite M12. destruct Hfsn as [Hf|Hf]; [now left|right].
      intros Hin. apply Hsub in Hin as [Hin|Hin]; [|contradiction].
      assert (Ht : point_eqb head (food (state g)) = true)
        by (apply point_eqb_eq; congruence).
      congruence.
  - rewrite M7.
    destruct (point_eqb head (food (state g))); lia.
  - rewrite M7, M6. pose proof (itemScore_nonneg picked).
    destruct (point_eqb head (food (state g))); lia.
  - rewrite tick_slow in M8. destruct (0 <? slowEffectSteps (state g)) eqn:E.
    + apply Z.ltb_lt in E. destruct M8 as [-> | ->]; lia.
    + destruct M8 as [-> | ->]; lia.
  - rewrite tick_slow in M8. destruct (0 <? slowEffectSteps (state g)) eqn:E.
    + apply Z.ltb_lt in E. destruct M8 as [-> | ->]; lia.
    + destruct M8 as [-> | ->]; lia.
  - rewrite M5. lia.
  - rewrite M4, Hover, M5, M6. pose proof (itemScore_nonneg picked).
    destruct (point_eqb head (food (state g))); lia.
Qed.

Lemma death_gameInv (g : SnakeGame) :
  gameInv g -> isGameOver (state g) = false ->
  gameInv (mkGame (set_isGameOver true (tick (state g))) (wallMap g)).
Proof.
  intros (Hcache & (Hlen & Hnd & Hconn & Hfree) & (Hil & Hitems)
          & (Hpo & Hpp) & (Hfood & Hfsn) & (Hc1 & Hc2 & Hc3 & Hc4)) Hover.
  destruct (tick_fields (state g))
    as (T1 & T2 & T3 & T4 & T5 & T6 & T7 & T8 & T9 & T10 & T11).
  pose proof (tick_slow (state g)) as Tslow.
  rewrite Hover in Hc4.
  unfold gameInv, bodyOk, itemsOk, portalOk, goalOk, countersOk, cacheCurrent,
    freeCell, placedOk in *.
  cbn [state wallMap snake food specialItems walls score level
       itemsCollectedInLevel isGameOver steps slowEffectSteps portalOpen
       portalPoint set_isGameOver].
  rewrite T1, T2, T3, T4, T5, T7, T9, T10, T11, Tslow.
  destruct Hfood as [Hfood1 Hfood2].
  split_and!; try assumption; try lia.
  - eapply Forall_impl; [exact Hitems|]. intros it (I1 & I2 & I3 & I4).
    specialize (I4 Hover). unfold itemOk.
    cbn [steps isGameOver set_isGameOver]. rewrite T9.
    split_and!; try assumption; try lia; discriminate.
  - destruct (0 <? slowEffectSteps (state g)) eqn:E; [apply Z.ltb_lt in E|]; lia.
  - destruct (0 <? slowEffectSteps (state g)) eqn:E; [apply Z.ltb_lt in E|]; lia.
Qed.

Section InvariantFacts.

Variable Math_sin : Q -> Q.

(** A level that has just been set up: the body on its three spawn cells,
    no item, the portal closed. *)
Lemma fresh_gameInv (st : GameState) (wm : WallMap) (r : RNG) :
  clearWallMap wm = emptyBoard ->
  snake st = initialSnake ->
  walls st = getLevelWalls Math_sin (level st) ->
  specialItems st = [] ->
  portalOpen st = false -> portalPoint st = None ->
  itemsCollectedInLevel st = 0 -> steps st = 0 ->
  isGameOver st = false ->
  0 <= score st -> 0 <= slowEffectSteps st <= 20 ->
  gameInv (updateWallMap (mkGame st wm) r).1.
Proof.
  intros Hclear Hsn Hwalls Hitems Hpo Hpp Hcol Hsteps Hover Hscore Hslow.
  pose proof (updateWallMap_cache (mkGame st wm) r Hclear) as Hcache.
  destruct (updateWallMap_spec (mkGame st wm) r) as (Hwm & f & Hst & Hb & Hpl).
  set (g' := (updateWallMap (mkGame st wm) r).1) in *.
  cbn [state wallMap] in Hst, Hpl.
  assert (Hfree : forall p, In p initialSnake -> freeCell g' p).
  { intros p Hp. split.
    - unfold inBoard, GRID_SIZE.
      destruct Hp as [<-|[<-|[<-|[]]]]; cbn; lia.
    - destruct (wallAt (wallMap g') (p_x p) (p_y p)) eqn:E; [|reflexivity].
      destruct p as [x y]. cbn [p_x p_y] in E.
      apply (wallAt_cacheCurrent g' x y Hcache) in E as [_ E].
      rewrite Hst in E. cbn [walls set_food] in E. rewrite Hwalls in E.
      apply (getLevelWalls_cells Math_sin) in E as [_ E]. cbn [p_x p_y] in E.
      destruct Hp as [Hp|[Hp|[Hp|[]]]]; injection Hp as <- <-;
        discriminate E. }
  unfold gameInv, bodyOk, itemsOk, portalOk, goalOk, countersOk.
  rewrite Hst.
  cbn [snake food specialItems walls score level itemsCollectedInLevel
       isGameOver steps slowEffectSteps portalOpen portalPoint set_food].
  rewrite Hsn, Hitems, Hpo, Hpp, Hcol, Hsteps, Hover. rewrite Hsn in Hpl.
  split_and!; try assumption; try reflexivity; try (unfold maxSteps; lia);
    try (cbn; lia).
  - unfold initialSnake.
    repeat constructor; rewrite list_elem_of_In; cbn; intuition discriminate.
  - cbn. unfold adjacent, manhattan. cbn. lia.
  - apply Forall_forall. intros p Hp. apply Hfree. now apply list_elem_of_In.
  - constructor.
  - split; [exact Hb|]. destruct Hpl as [->|(Ho & _)]; [now left|now right].
  - destruct Hpl as [->|(_ & Hs & _)]; [now left|right].
    now apply hitsSnake_false.
Qed.

Lemma newSnakeGame_gameInv (lvl : Z) (r : RNG) :
  gameInv (newSnakeGame Math_sin lvl r).1.
Proof.
  unfold newSnakeGame. apply fresh_gameInv; try reflexivity; cbn; lia.
Qed.

Lemma advanceLevel_gameInv (g : SnakeGame) (r : RNG) :
  gameInv g -> isGameOver (state g) = false ->
  gameInv (advanceLevel Math_sin (mkGame (tick (state g)) (wallMap g)) r).1.
Proof.
  intros (Hcache & _ & _ & _ & _ & (Hc1 & Hc2 & _)) Hover.
  destruct (tick_fields (state g))
    as (T1 & T2 & T3 & T4 & T5 & T6 & T7 & T8 & T9 & T10 & T11).
  pose proof (tick_slow (state g)) as Tslow.
  unfold advanceLevel. cbn [state wallMap].
  apply fresh_gameInv; try reflexivity.
  - now apply cacheCurrent_clear.
  - cbn. congruence.
  - cbn. rewrite T5. lia.
  - cbn. rewrite Tslow.
    destruct (0 <? slowEffectSteps (state g)) eqn:E; [apply Z.ltb_lt in E|]; lia.
Qed.

Lemma step_gameInv (d : Direction) (g : SnakeGame) (r : RNG) :
  gameInv g ->
  match (step Math_sin d g r).1 with
  | Some (_, g') => gameInv g'
  | None => False
  end.
Proof.
  intros Hinv.
  pose proof Hinv as (_ & (Hlen & _) & _).
  destruct (snake (state g)) as [|h tl] eqn:Hsn; [cbn in Hlen; lia|].
  destruct (step_cases Math_sin d g r h tl Hsn)
    as [(Hover & ->)|[(Hover & Hdead & ->)|[(Hover & Hdead & Hportal & ->)
        |(Hover & Hdead & Hportal & ->)]]]; cbn [fst snd].
  - exact Hinv.
  - now apply death_gameInv.
  - now apply advanceLevel_gameInv.
  - now apply (moveOn_gameInv d g r h tl).
Qed.

Lemma observable_gameInv (g : SnakeGame) :
  observable Math_sin g -> gameInv g.
Proof.
  induction 1 as [lvl r|d g g' r r' rw Hreach IH Hstep].
  - apply newSnakeGame_gameInv.
  - pose proof (step_gameInv d g r IH) as H. now rewrite Hstep in H.
Qed.

Lemma reachable_observable (g : SnakeGame) (r : RNG) :
  reachable Math_sin g r -> observable Math_sin g.
Proof.
  induction 1 as [lvl r|d g g' r r' rw Hreach IH Hstep].
  - constructor.
  - econstructor; eassumption.
Qed.

End InvariantFacts.

(** ** The games a host can observe *)

Lemma notWall_cacheCurrent (g : SnakeGame) (p : Point) :
  cacheCurrent g -> inBoard p ->
  wallAt (wallMap g) (p_x p) (p_y p) = false <-> ~ In p (walls (state g)).
Proof.
  intros Hc Hb. destruct p as [x y]. cbn [p_x p_y].
  pose proof (wallAt_cacheCurrent g x y Hc) as H.
  destruct (wallAt (wallMap g) x y).
  - split; [discriminate|]. intros Hn. exfalso. apply Hn. now apply H.
  - split; [|reflexivity]. intros _ Hin.
    assert (false = true) by (apply H; split; assumption). discriminate.
Qed.

Section ReachableFacts.

Variable Math_sin : Q -> Q.

Lemma step_walls (d : Direction) (g : SnakeGame) (r : RNG) :
  walls (state g) = getLevelWalls Math_sin (level (state g)) ->
  match (step Math_sin d g r).1 with
  | Some (_, g') => walls (state g') = getLevelWalls Math_sin (level (state g'))
  | None => True
  end.
Proof.
  intros Hw.
  destruct (snake (state g)) as [|h tl] eqn:Hsn.
  { unfold step. destruct (isGameOver (state g)); [exact Hw|].
    destruct (tick_fields (state g)) as (T1 & _). now rewrite T1, Hsn. }
  destruct (tick_fields (state g))
    as (T1 & T2 & T3 & T4 & T5 & T6 & T7 & T8 & T9 & T10 & T11).
  destruct (step_cases Math_sin d g r h tl Hsn)
    as [(Hover & ->)|[(Hover & Hdead & ->)|[(Hover & Hdead & Hportal & ->)
        |(Hover & Hdead & Hportal & ->)]]]; cbn [fst snd].
  - exact Hw.
  - cbn. now rewrite T4, T6.
  - unfold advanceLevel.
    match goal with |- context [updateWallMap ?a ?b] =>
      destruct (updateWallMap_spec a b) as (_ & f & -> & _) end.
    reflexivity.
  - destruct (moveOn_spec g (moveHead d h) r h tl Hsn) as (_ & M2 & M3 & _).
    now rewrite M2, M3.
Qed.

Lemma observable_walls (g : SnakeGame) :
  observable Math_sin g ->
  walls (state g) = getLevelWalls Math_sin (level (state g)).
Proof.
  induction 1 as [lvl r|d g g' r r' rw Hreach IH Hstep].
  - unfold newSnakeGame.
    match goal with |- context [updateWallMap ?a ?b] =>
      destruct (updateWallMap_spec a b) as (_ & f & -> & _) end.
    reflexivity.
  - pose proof (step_walls d g r IH) as H. now rewrite Hstep in H.
Qed.

(** X1.  On every game a host can observe, [isPointWall] answers [true]
    exactly for the cells outside the board and for the cells of the
    obstacle list. *)
Theorem isPointWall_observable (g : SnakeGame) (x y : Z) :
  observable Math_sin g ->
  isPointWall g x y = true <->
  ~ inBoard (mkPoint x y) \/ In (mkPoint x y) (walls (state g)).
Proof.
  intros Hobs. apply observable_gameInv in Hobs as (Hcache & _).
  unfold isPointWall, inBoard, GRID_SIZE. cbn [p_x p_y].
  destruct ((x <? 0) || (30 <=? x) || (y <? 0) || (30 <=? y)) eqn:Hout.
  - split; [intros _|reflexivity]. left.
    repeat (apply orb_true_iff in Hout as [Hout|Hout]);
      first [apply Z.ltb_lt in Hout | apply Z.leb_le in Hout]; lia.
  - rewrite (wallAt_cacheCurrent g x y Hcache).
    rewrite !orb_false_iff in Hout. destruct Hout as (((H1 & H2) & H3) & H4).
    apply Z.ltb_ge in H1, H3. apply Z.leb_gt in H2, H4.
    unfold inBoard, GRID_SIZE. cbn [p_x p_y]. split; [tauto|].
    intros [Hn|Hin]; [exfalso; apply Hn; lia|]. split; [lia|exact Hin].
Qed.

(** X4.  In every game a host can observe the body has at least three
    segments, occupies no cell twice, is a chain of cells that share a side,
    and lies on cells of the board that are not obstacles. *)
Theorem observable_body (g : SnakeGame) :
  observable Math_sin g ->
  (3 <= length (snake (state g)))%nat /\
  NoDup (snake (state g)) /\
  connected (snake (state g)) /\
  forall p, In p (snake (state g)) -> inBoard p /\ ~ In p (walls (state g)).
Proof.
  intros Hreach.
  destruct (observable_gameInv Math_sin g Hreach)
    as (Hcache & (Hlen & Hnd & Hconn & Hfree) & _).
  split_and!; try assumption.
  intros p Hp. rewrite Forall_forall in Hfree.
  destruct (Hfree p ltac:(now apply list_elem_of_In)) as [Hb Hw].
  split; [exact Hb|]. now apply (notWall_cacheCurrent g p Hcache Hb).
Qed.

(** X5.  In every game a host can observe there are at most three items;
    each lies on the board, is of type GOLD, SCISSORS or ICE, and has an
    expiry step that is at most 150 steps ahead and, while the game is not
    over, still in the future. *)
Theorem observable_items (g : SnakeGame) :
  observable Math_sin g ->
  (length (specialItems (state g)) <= 3)%nat /\
  forall it, In it (specialItems (state g)) ->
    inBoard (point it) /\ type it <> FOOD /\
    steps (state g) <= expires it <= steps (state g) + 150 /\
    (isGameOver (state g) = false -> steps (state g) < expires it).
Proof.
  intros Hreach.
  destruct (observable_gameInv Math_sin g Hreach)
    as (_ & _ & (Hlen & Hitems) & _).
  split; [exact Hlen|]. intros it Hit. rewrite Forall_forall in Hitems.
  destruct (Hitems it ltac:(now apply list_elem_of_In)) as (I1 & I2 & I3 & I4).
  split; [exact I1|]. split; [|split; [exact I3|exact I4]].
  intros Hf. rewrite Hf in I2. cbn in I2. intuition discriminate.
Qed.

(** X6.  In every game a host can observe the portal is open exactly when
    the progress of the level has reached 10, and it has a cell exactly when
    it is open; that cell lies on the board and, unless it is the corner
    (0, 0), is not an obstacle. *)
Theorem observable_portal (g : SnakeGame) :
  observable Math_sin g ->
  (portalOpen (state g) = true <->
   LEVEL_GOAL <= itemsCollectedInLevel (state g)) /\
  (portalOpen (state g) = true <->
   exists pp, portalPoint (state g) = Some pp) /\
  forall pp, portalPoint (state g) = Some pp ->
    inBoard pp /\ (pp = mkPoint 0 0 \/ ~ In pp (walls (state g))).
Proof.
  intros Hreach.
  destruct (observable_gameInv Math_sin g Hreach)
    as (Hcache & _ & _ & (Hpo & Hpp) & _).
  split_and!.
  - rewrite Hpo. apply Z.leb_le.
  - destruct (portalPoint (state g)) as [pp|].
    + destruct Hpp as [-> _]. split; [eauto|reflexivity].
    + rewrite Hpp. split; [discriminate|]. intros (pp & Hpp'). discriminate.
  - intros pp Hsome. rewrite Hsome in Hpp. destruct Hpp as (_ & Hb & Hw).
    split; [exact Hb|]. destruct Hw as [->|Hw]; [now left|right].
    now apply (notWall_cacheCurrent g pp Hcache Hb).
Qed.

(** X7.  In every game a host can observe the goal cell lies on the board,
    and unless it is the corner (0, 0) of the exhausted search it is neither
    an obstacle nor under the body. *)
Theorem observable_goal (g : SnakeGame) :
  observable Math_sin g ->
  inBoard (food (state g)) /\
  (food (state g) = mkPoint 0 0 \/
   (~ In (food (state g)) (walls (state g)) /\
    ~ In (food (state g)) (snake (state g)))).
Proof.
  intros Hreach.
  destruct (observable_gameInv Math_sin g Hreach)
    as (Hcache & _ & _ & _ & ((Hb & Hw) & Hsn) & _).
  split; [exact Hb|].
  destruct Hw as [Hw|Hw]; [now left|]. destruct Hsn as [Hsn|Hsn]; [now left|].
  right. split; [|exact Hsn].
  now apply (notWall_cacheCurrent g _ Hcache Hb).
Qed.

(** X8.  In every game a host can observe the progress of the level lies
    between 0 and the score, the slow-down counter between 0 and 20, and the
    step counter between 0 and 3000 plus fifty times the score (plus one
    once the game is over); and the obstacle list is the one [getLevelWalls]
    gives for the current level. *)
Theorem observable_counters (g : SnakeGame) :
  observable Math_sin g ->
  0 <= itemsCollectedInLevel (state g) <= score (state g) /\
  0 <= slowEffectSteps (state g) <= 20 /\
  0 <= steps (state g)
    <= maxSteps + 50 * score (state g)
       + (if isGameOver (state g) then 1 else 0) /\
  walls (state g) = getLevelWalls Math_sin (level (state g)).
Proof.
  intros Hreach.
  destruct (observable_gameInv Math_sin g Hreach)
    as (_ & _ & _ & _ & _ & (Hc1 & Hc2 & Hc3 & Hc4)).
  split_and!; try assumption; try lia.
  now apply observable_walls.
Qed.

(** X9.  On every game a host can observe, [step] returns normally (it
    raises no [TypeError]) for every direction and whatever the random
    draws, and the game it leaves can be observed in turn, so that the next
    call returns normally again. *)
Theorem step_returns (g : SnakeGame) (d : Direction) (r : RNG) :
  observable Math_sin g ->
  exists rw g' r',
    step Math_sin d g r = (Some (rw, g'), r') /\ observable Math_sin g'.
Proof.
  intros Hobs. pose proof (observable_gameInv Math_sin g Hobs) as Hinv.
  pose proof (step_gameInv Math_sin d g r Hinv) as H.
  destruct (step Math_sin d g r) as [[[rw g']|] r'] eqn:E; [|destruct H].
  exists rw, g', r'. split; [reflexivity|].
  econstructor; eassumption.
Qed.

(** The four outcomes of a call of [step]. *)
Lemma step_outcome (d : Direction) (g g' : SnakeGame) (r r' : RNG) (rw : Q) :
  step Math_sin d g r = (Some (rw, g'), r') ->
  (rw = (-20)%Q /\ isGameOver (state g) = true /\ g' = g /\ r' = r) \/
  (isGameOver (state g) = false /\
   ((rw = (-100)%Q /\ isGameOver (state g') = true /\
     snake (state g') = snake (state g) /\ food (state g') = food (state g) /\
     specialItems (state g') = specialItems (state g) /\
     score (state g') = score (state g) /\
     level (state g') = level (state g) /\ r' = r) \/
    (rw = 250%Q /\ isGameOver (state g') = false /\
     level (state g') = level (state g) + 1 /\
     score (state g') = score (state g) /\
     snake (state g') = initialSnake /\ specialItems (state g') = [] /\
     steps (state g') = 0 /\ itemsCollectedInLevel (state g') = 0 /\
     portalOpen (state g') = false /\ portalPoint (state g') = None /\
     walls (state g') = getLevelWalls Math_sin (level (state g) + 1)) \/
    (In rw [(-0.05)%Q; 15%Q; 40%Q; 60%Q; 30%Q] /\
     isGameOver (state g') = false /\
     level (state g') = level (state g) /\
     walls (state g') = walls (state g) /\
     steps (state g') = steps (state g) + 1 /\
     score (state g) <= score (state g')))).
Proof.
  intros Hstep.
  destruct (snake (state g)) as [|h tl] eqn:Hsn.
  { unfold step in Hstep. destruct (isGameOver (state g)) eqn:Hover.
    - injection Hstep as <- <- <-. left. auto.
    - destruct (tick_fields (state g)) as (T1 & _).
      rewrite T1, Hsn in Hstep. discriminate. }
  destruct (tick_fields (state g))
    as (T1 & T2 & T3 & T4 & T5 & T6 & T7 & T8 & T9 & T10 & T11).
  destruct (step_cases Math_sin d g r h tl Hsn)
    as [(Hover & E)|[(Hover & Hdead & E)|[(Hover & Hdead & Hportal & E)
        |(Hover & Hdead & Hportal & E)]]];
    rewrite E in Hstep.
  - injection Hstep as <- <- <-. left. auto.
  - injection Hstep as <- <- <-.
    right. split; [exact Hover|]. left. cbn.
    rewrite Hsn in T1. split_and!; auto.
  - injection Hstep as <- <- <-.
    right. split; [exact Hover|]. right. left.
    unfold advanceLevel.
    match goal with |- context [updateWallMap ?a ?b] =>
      destruct (updateWallMap_spec a b) as (_ & f & -> & _) end.
    cbn. rewrite T8, T6, T5. split_and!; auto.
  - destruct (moveOn_spec g (moveHead d h) r h tl Hsn)
      as (_ & M2 & M3 & M4 & M5 & M6 & _ & _ & _ & _ & M11 & _).
    remember (moveOn g (moveHead d h) r) as res eqn:Hres.
    injection Hstep as <- <- <-.
    right. split; [exact Hover|]. right. right.
    rewrite M11, M2, M3, M4, M5, M6.
    pose proof (itemScore_nonneg
                  (pickedItem (specialItems (state g)) (moveHead d h))) as Hi.
    split_and!; auto.
    + destruct (point_eqb (moveHead d h) (food (state g))); [cbn; tauto|].
      unfold itemReward.
      destruct (pickedItem _ _) as [it|]; [|cbn; tauto].
      destruct (type it); cbn; tauto.
    + destruct (point_eqb (moveHead d h) (food (state g))); lia.
Qed.

(** X10.  What the reward of a call of [step] tells: -20 exactly when the
    game was already over; -100 when the call ends the game, and then body,
    goal, items, score and level are left as they were; 250 when the call
    enters the portal, and then the level is one higher, the body is back on
    the three spawn cells, items, step counter and progress are cleared, the
    portal is closed, and the score is kept; otherwise one of -0.05, 15, 40,
    60 and 30, the game goes on at the same level and the score has not
    dropped. *)
Theorem step_reward (d : Direction) (g g' : SnakeGame) (r r' : RNG) (rw : Q) :
  step Math_sin d g r = (Some (rw, g'), r') ->
  (rw = (-20)%Q /\ isGameOver (state g) = true /\ g' = g /\ r' = r) \/
  (isGameOver (state g) = false /\
   ((rw = (-100)%Q /\ isGameOver (state g') = true /\
     snake (state g') = snake (state g) /\ food (state g') = food (state g) /\
     specialItems (state g') = specialItems (state g) /\
     score (state g') = score (state g) /\
     level (state g') = level (state g) /\ r' = r) \/
    (rw = 250%Q /\ isGameOver (state g') = false /\
     level (state g') = level (state g) + 1 /\
     score (state g') = score (state g) /\
     snake (state g') = initialSnake /\ specialItems (state g') = [] /\
     steps (state g') = 0 /\ itemsCollectedInLevel (state g') = 0 /\
     portalOpen (state g') = false /\ portalPoint (state g') = None /\
     walls (state g') = getLevelWalls Math_sin (level (state g) + 1)) \/
    (In rw [(-0.05)%Q; 15%Q; 40%Q; 60%Q; 30%Q] /\
     isGameOver (state g') = false /\
     level (state g') = level (state g) /\
     walls (state g') = walls (state g) /\
     steps (state g') = steps (state g) + 1 /\
     score (state g) <= score (state g')))).
Proof. exact (step_outcome d g g' r r' rw). Qed.

Lemma isDeadly_true_iff (g : SnakeGame) (st : GameState) (p : Point) :
  isDeadly g st p = true <->
  (~ inBoard p \/ wallAt (wallMap g) (p_x p) (p_y p) = true \/
   In p (snake st) \/ maxSteps + score st * 50 < steps st).
Proof.
  unfold isDeadly, inBoard.
  rewrite !orb_true_iff, !Z.ltb_lt, !Z.leb_le, hitsSnake_true. split.
  - intros [[[[[[H|H]|H]|H]|H]|H]|H]; try tauto; left; lia.
  - intros [H|[H|[H|H]]]; try tauto.
    destruct (decide (p_x p < 0)); [tauto|].
    destruct (decide (GRID_SIZE <= p_x p)); [tauto|].
    destruct (decide (p_y p < 0)); [tauto|].
    destruct (decide (GRID_SIZE <= p_y p)); [tauto|].
    exfalso. apply H. lia.
Qed.

(** A call of [step] returns -100 exactly when the death test succeeds. *)
Lemma step_kills_iff (d : Direction) (g : SnakeGame) (r : RNG) (h : Point)
    (tl : list Point) :
  isGameOver (state g) = false ->
  snake (state g) = h :: tl ->
  (exists g', step Math_sin d g r = (Some ((-100)%Q, g'), r)) <->
  isDeadly g (tick (state g)) (moveHead d h) = true.
Proof.
  intros Hover Hsn.
  destruct (step_cases Math_sin d g r h tl Hsn)
    as [(Hover' & E)|[(_ & Hdead & E)|[(_ & Hdead & Hportal & E)
        |(_ & Hdead & Hportal & E)]]]; [congruence| | |].
  - split; [intros _; exact Hdead|]. intros _. eexists. exact E.
  - rewrite Hdead. split; [|discriminate].
    intros (g' & Hg'). rewrite E in Hg'. discriminate.
  - rewrite Hdead. split; [|discriminate].
    intros (g' & Hg'). rewrite E in Hg'. exfalso.
    destruct (moveOn_spec g (moveHead d h) r h tl Hsn)
      as (_ & _ & _ & _ & _ & _ & _ & _ & _ & _ & M11 & _).
    remember (moveOn g (moveHead d h) r) as res eqn:Hres.
    injection Hg' as Hrw _ _.
    rewrite M11 in Hrw.
    destruct (point_eqb (moveHead d h) (food (state g))); [discriminate|].
    unfold itemReward in Hrw.
    destruct (pickedItem _ _) as [it|]; [|discriminate].
    destruct (type it); discriminate.
Qed.

(** X11.  When [step] is called on a game a host can observe that is not
    over, it ends the game (reward -100) exactly when the cell in front of
    the head in the chosen direction is off the board, an obstacle, or under
    the body (the last segment included), or when the step counter has
    reached 3000 plus fifty times the score. *)
Theorem step_death_iff (d : Direction) (g : SnakeGame) (r : RNG) (h : Point)
    (tl : list Point) :
  observable Math_sin g ->
  isGameOver (state g) = false ->
  snake (state g) = h :: tl ->
  (exists g', step Math_sin d g r = (Some ((-100)%Q, g'), r)) <->
  (~ inBoard (moveHead d h) \/ In (moveHead d h) (walls (state g)) \/
   In (moveHead d h) (h :: tl) \/
   maxSteps + 50 * score (state g) <= steps (state g)).
Proof.
  intros Hobs Hover Hsn.
  pose proof (observable_gameInv Math_sin g Hobs) as (Hcache & _).
  destruct (tick_fields (state g))
    as (T1 & T2 & T3 & T4 & T5 & T6 & T7 & T8 & T9 & T10 & T11).
  rewrite (step_kills_iff d g r h tl Hover Hsn), isDeadly_true_iff.
  rewrite T1, T5, T9, Hsn.
  destruct (moveHead d h) as [x y]. cbn [p_x p_y].
  rewrite (wallAt_cacheCurrent g x y Hcache).
  split.
  - intros [H|[[_ H]|[H|H]]]; try tauto. right. right. right. lia.
  - intros [H|[H|[H|H]]]; try tauto.
    + destruct (decide (inBoard (mkPoint x y))); tauto.
    + right. right. right. lia.
Qed.

(** X12.  A plain move: when the game is not over, the step neither kills
    nor enters the portal, and the cell in front of the head holds neither
    the goal nor an item, [step] returns -0.05, the new body is the new head
    followed by the old body without its last segment, and goal, score,
    level, progress and portal are left as they were. *)
Theorem step_plain_move (d : Direction) (g : SnakeGame) (r : RNG) (h : Point)
    (tl : list Point) :
  isGameOver (state g) = false ->
  snake (state g) = h :: tl ->
  isDeadly g (tick (state g)) (moveHead d h) = false ->
  entersPortal (tick (state g)) (moveHead d h) = false ->
  moveHead d h <> food (state g) ->
  hitsItems (specialItems (state g)) (moveHead d h) = false ->
  exists g' r',
    step Math_sin d g r = (Some ((-0.05)%Q, g'), r') /\
    snake (state g') = moveHead d h :: removelast (h :: tl) /\
    length (snake (state g')) = length (snake (state g)) /\
    food (state g') = food (state g) /\
    score (state g') = score (state g) /\
    level (state g') = level (state g) /\
    itemsCollectedInLevel (state g') = itemsCollectedInLevel (state g) /\
    portalOpen (state g') = portalOpen (state g) /\
    portalPoint (state g') = portalPoint (state g).
Proof.
  intros Hover Hsn Hdead Hportal Hfood Hitems.
  rewrite (step_moveOn Math_sin d g r h tl Hover Hsn Hdead Hportal).
  destruct (moveOn_spec g (moveHead d h) r h tl Hsn)
    as (_ & _ & M3 & _ & _ & M6 & M7 & _ & _ & M10 & M11 & M12 & M13 & _).
  assert (Hate : point_eqb (moveHead d h) (food (state g)) = false).
  { destruct (point_eqb _ _) eqn:E; [|reflexivity].
    apply point_eqb_eq in E. contradiction. }
  assert (Hpick : pickedItem (specialItems (state g)) (moveHead d h) = None).
  { unfold pickedItem.
    destruct (findPicked _ _) as [i|] eqn:E; [|reflexivity].
    destruct (findPicked_spec _ _ _ E) as (x & Hx & Hp).
    exfalso. eapply (hitsItems_false_In _ _ x Hitems); [|exact Hp].
    apply list_elem_of_In. eapply list_elem_of_lookup_2. exact Hx. }
  rewrite Hate, Hpick in *. cbn [andb] in M13. destruct M13 as [M13 M13'].
  cbn [cutOf popN itemReward itemScore] in *.
  eexists _, _. split; [rewrite M11; reflexivity|].
  split_and!; try assumption; try lia.
  rewrite M10, Hsn. cbn [length].
  change (removelast (moveHead d h :: h :: tl))
    with (moveHead d h :: removelast (h :: tl)).
  cbn [length]. rewrite removelast_firstn_len, length_take. cbn [length]. lia.
Qed.

End ReachableFacts.

(** ** The vision rays *)

Lemma rayCell_next (h dir : Point) (k : Z) :
  mkPoint (p_x (rayCell h dir k) + p_x dir) (p_y (rayCell h dir k) + p_y dir)
  = rayCell h dir (k + 1).
Proof. unfold rayCell. cbn. f_equal; ring. Qed.

Lemma inGrid_inBoard (p : Point) : inGrid p = true <-> inBoard p.
Proof.
  unfold inGrid, inBoard. rewrite !andb_true_iff, !Z.leb_le, !Z.ltb_lt. tauto.
Qed.

Lemma isBlocking_cases (g : SnakeGame) (sn : list Point) (p : Point) :
  isBlocking g sn (p_x p) (p_y p)
  = negb (inGrid p) || wallAt (wallMap g) (p_x p) (p_y p) || hitsSnake sn p.
Proof.
  unfold isBlocking, isPointWall, inGrid. destruct p as [x y]. cbn [p_x p_y].
  destruct (x <? 0) eqn:E1; destruct (GRID_SIZE <=? x) eqn:E2;
    destruct (y <? 0) eqn:E3; destruct (GRID_SIZE <=? y) eqn:E4;
    cbn [orb];
    repeat match goal with
    | H : (_ <? _) = true |- _ => apply Z.ltb_lt in H
    | H : (_ <? _) = false |- _ => apply Z.ltb_ge in H
    | H : (_ <=? _) = true |- _ => apply Z.leb_le in H
    | H : (_ <=? _) = false |- _ => apply Z.leb_gt in H
    end;
    try (replace (0 <=? x) with false by (symmetry; apply Z.leb_gt; lia);
         reflexivity);
    try (replace (0 <=? x) with true by (symmetry; apply Z.leb_le; lia));
    try (replace (x <? GRID_SIZE) with false by (symmetry; apply Z.ltb_ge; lia);
         reflexivity);
    try (replace (x <? GRID_SIZE) with true by (symmetry; apply Z.ltb_lt; lia));
    try (replace (0 <=? y) with false by (symmetry; apply Z.leb_gt; lia);
         reflexivity);
    try (replace (0 <=? y) with true by (symmetry; apply Z.leb_le; lia));
    try (replace (y <? GRID_SIZE) with false by (symmetry; apply Z.ltb_ge; lia);
         reflexivity);
    try (replace (y <? GRID_SIZE) with true by (symmetry; apply Z.ltb_lt; lia));
    cbn; destruct (wallAt _ _ _); reflexivity.
Qed.

Lemma roundsLeft_inGrid (dir curr : Point) :
  In dir rayDirs -> inGrid curr = true -> 1 <= roundsLeft dir curr <= GRID_SIZE.
Proof.
  intros Hd Hg. apply inGrid_inBoard in Hg as [Hx Hy].
  unfold roundsLeft, GRID_SIZE in *.
  destruct Hd as [<-|[<-|[<-|[<-|[<-|[<-|[<-|[<-|[]]]]]]]]]; cbn; lia.
Qed.

Lemma roundsLeft_next (dir curr : Point) :
  In dir rayDirs ->
  roundsLeft dir (mkPoint (p_x curr + p_x dir) (p_y curr + p_y dir))
  = roundsLeft dir curr - 1.
Proof.
  intros Hd. unfold roundsLeft, GRID_SIZE.
  destruct Hd as [<-|[<-|[<-|[<-|[<-|[<-|[<-|[<-|[]]]]]]]]]; cbn; lia.
Qed.

(** Enough rounds: the loop has ended by itself. *)
Lemma castRay_fuel (g : SnakeGame) (target dir : Point) (n : nat) :
  In dir rayDirs ->
  forall curr v,
    (inGrid curr = true -> roundsLeft dir curr <= Z.of_nat n) ->
    castRay (S n) g target dir curr v = castRay n g target dir curr v.
Proof.
  intros Hd. induction n as [|n IH]; intros curr v Hr.
  - cbn [castRay]. destruct (inGrid curr) eqn:Hg; [|reflexivity].
    pose proof (roundsLeft_inGrid dir curr Hd Hg). specialize (Hr eq_refl). lia.
  - change (castRay (S (S n)) g target dir curr v)
      with (if inGrid curr then
              let v := look g target curr v in
              if hitsSnake (snake (state g)) curr then
                (curr,
                 mkVisionData (direction v) (dist v) (foodFound v) (itemFound v)
                   (itemDist v) true (wallFound v) (v_point v))
              else if wallAt (wallMap g) (p_x curr) (p_y curr) then
                (curr,
                 mkVisionData (direction v) (dist v) (foodFound v) (itemFound v)
                   (itemDist v) (bodyFound v) true (v_point v))
              else
                castRay (S n) g target dir
                  (mkPoint (p_x curr + p_x dir) (p_y curr + p_y dir))
                  (mkVisionData (direction v) (dist v + 1) (foodFound v)
                     (itemFound v) (itemDist v) (bodyFound v) (wallFound v)
                     (v_point v))
            else (curr, v)).
    cbn [castRay]. destruct (inGrid curr) eqn:Hg; [|reflexivity]. cbv zeta.
    destruct (hitsSnake _ curr); [reflexivity|].
    destruct (wallAt _ _ _); [reflexivity|].
    apply IH. intros _. rewrite (roundsLeft_next dir curr Hd).
    specialize (Hr eq_refl). lia.
Qed.

Lemma castRay_more (g : SnakeGame) (target dir : Point) (n m : nat) :
  In dir rayDirs ->
  forall curr v,
    (inGrid curr = true -> roundsLeft dir curr <= Z.of_nat n) -> (n <= m)%nat ->
    castRay m g target dir curr v = castRay n g target dir curr v.
Proof.
  intros Hd curr v Hr Hnm. induction Hnm as [|m Hnm IH]; [reflexivity|].
  rewrite castRay_fuel; [exact IH|exact Hd|].
  intros Hg. specialize (Hr Hg). lia.
Qed.

Lemma look_fields (g : SnakeGame) (target curr : Point) (v : VisionData) :
  direction (look g target curr v) = direction v /\
  dist (look g target curr v) = dist v /\
  bodyFound (look g target curr v) = bodyFound v /\
  wallFound (look g target curr v) = wallFound v /\
  v_point (look g target curr v) = curr /\
  foodFound (look g target curr v) = foodFound v || point_eqb curr target.
Proof.
  unfold look.
  destruct (findItem _ _) as [si|]; destruct (itemFound v); cbn;
    split_and!; try reflexivity;
    destruct (foodFound v); destruct (point_eqb curr target); reflexivity.
Qed.

Lemma look_item (g : SnakeGame) (target curr : Point) (v : VisionData) :
  match itemFound v with
  | Some t =>
      itemFound (look g target curr v) = Some t /\
      itemDist (look g target curr v) = itemDist v
  | None =>
      match findItem (specialItems (state g)) curr with
      | Some si =>
          itemFound (look g target curr v) = Some (type si) /\
          itemDist (look g target curr v) = Some (dist v)
      | None =>
          itemFound (look g target curr v) = None /\
          itemDist (look g target curr v) = itemDist v
      end
  end.
Proof.
  unfold look.
  destruct (findItem _ _) as [si|]; destruct (itemFound v); cbn;
    split; reflexivity.
Qed.

Lemma castRay_dist_le (g : SnakeGame) (target dir : Point) (n : nat)
    (curr : Point) (v : VisionData) :
  dist v <= dist (castRay n g target dir curr v).2.
Proof.
  revert curr v. induction n as [|n IH]; intros curr v; cbn [castRay].
  - cbn. lia.
  - destruct (inGrid curr); [|cbn; lia]. cbv zeta.
    destruct (look_fields g target curr v) as (_ & L2 & _).
    destruct (hitsSnake _ curr); [cbn; lia|].
    destruct (wallAt _ _ _); [cbn; lia|].
    etransitivity; [|apply IH]. cbn. lia.
Qed.

Section RayFacts.

Variables (g : SnakeGame) (target h dir : Point).
Hypothesis Hdir : In dir rayDirs.

Lemma blocked_outside (p : Point) :
  inGrid p = false ->
  isBlocking g (snake (state g)) (p_x p) (p_y p) = true.
Proof. intros H. rewrite isBlocking_cases, H. reflexivity. Qed.

Lemma castRay_geometry (n : nat) (curr : Point) (v : VisionData) :
  (inGrid curr = true -> roundsLeft dir curr <= Z.of_nat n) ->
  curr = rayCell h dir (dist v) ->
  bodyFound v = false -> wallFound v = false ->
  let res := castRay n g target dir curr v in
  dist v <= dist res.2 /\
  res.1 = rayCell h dir (dist res.2) /\
  direction res.2 = direction v /\
  isBlocking g (snake (state g)) (p_x res.1) (p_y res.1) = true /\
  (forall k, dist v <= k < dist res.2 ->
     isBlocking g (snake (state g))
       (p_x (rayCell h dir k)) (p_y (rayCell h dir k)) = false) /\
  bodyFound res.2 = inGrid res.1 && hitsSnake (snake (state g)) res.1 /\
  wallFound res.2 = inGrid res.1 && negb (hitsSnake (snake (state g)) res.1).
Proof.
  revert curr v. induction n as [|n IH]; intros curr v Hr Hc Hb Hw.
  - cbn [castRay fst snd]. cbv zeta.
    assert (Hg : inGrid curr = false).
    { destruct (inGrid curr) eqn:Hg; [|reflexivity].
      pose proof (roundsLeft_inGrid dir curr Hdir Hg). specialize (Hr eq_refl).
      lia. }
    rewrite Hg. split_and!; try assumption; try reflexivity; try lia.
    now apply blocked_outside.
  - cbn [castRay]. destruct (inGrid curr) eqn:Hg.
    2:{ cbn [fst snd]. cbv zeta. rewrite Hg.
        split_and!; try assumption; try reflexivity; try lia.
        now apply blocked_outside. }
    cbv zeta.
    destruct (look_fields g target curr v) as (L1 & L2 & L3 & L4 & L5 & L6).
    set (v1 := look g target curr v) in *.
    destruct (hitsSnake (snake (state g)) curr) eqn:Hs.
    { cbn [fst snd direction dist bodyFound wallFound]. rewrite Hg, Hs, L2.
      split_and!; cbn [andb negb]; try reflexivity; try lia; try congruence.
      rewrite isBlocking_cases, Hs. apply orb_true_r. }
    destruct (wallAt (wallMap g) (p_x curr) (p_y curr)) eqn:Hwall.
    { cbn [fst snd direction dist bodyFound wallFound]. rewrite Hg, Hs, L2.
      split_and!; cbn [andb negb]; try reflexivity; try lia; try congruence.
      rewrite isBlocking_cases, Hwall, orb_true_r. reflexivity. }
    match goal with |- context [castRay n g target dir ?c ?w] =>
      specialize (IH c w); set (res := castRay n g target dir c w) in * end.
    cbn [dist bodyFound wallFound direction] in IH.
    destruct IH as (I1 & I2 & I3 & I4 & I5 & I6 & I7).
    + intros _. rewrite (roundsLeft_next dir curr Hdir). specialize (Hr eq_refl).
      lia.
    + rewrite L2, Hc. apply rayCell_next.
    + congruence.
    + congruence.
    + split_and!; try assumption; try lia; try congruence.
      intros k Hk. destruct (decide (k = dist v)) as [->|Hne].
      * rewrite <- Hc, isBlocking_cases, Hg, Hs, Hwall. reflexivity.
      * apply I5. lia.
Qed.

Lemma castRay_food (n : nat) (curr : Point) (v : VisionData) :
  (inGrid curr = true -> roundsLeft dir curr <= Z.of_nat n) ->
  curr = rayCell h dir (dist v) ->
  let res := castRay n g target dir curr v in
  foodFound res.2 = true <->
  foodFound v = true \/
  exists k, dist v <= k <= dist res.2 /\ inGrid (rayCell h dir k) = true /\
            rayCell h dir k = target.
Proof.
  revert curr v. induction n as [|n IH]; intros curr v Hr Hc.
  - cbn [castRay fst snd]. cbv zeta.
    assert (Hg : inGrid curr = false).
    { destruct (inGrid curr) eqn:Hg; [|reflexivity].
      pose proof (roundsLeft_inGrid dir curr Hdir Hg). specialize (Hr eq_refl).
      lia. }
    split; [now left|]. intros [H|(k & Hk & Hin & _)]; [exact H|].
    replace k with (dist v) in Hin by lia. congruence.
  - cbn [castRay]. destruct (inGrid curr) eqn:Hg.
    2:{ cbn [fst snd]. cbv zeta.
        split; [now left|]. intros [H|(k & Hk & Hin & _)]; [exact H|].
        replace k with (dist v) in Hin by lia. congruence. }
    cbv zeta.
    destruct (look_fields g target curr v) as (L1 & L2 & L3 & L4 & L5 & L6).
    set (v1 := look g target curr v) in *.
    assert (Hhere : foodFound v1 = true <->
                    foodFound v = true \/ curr = target).
    { rewrite L6, orb_true_iff, point_eqb_eq. tauto. }
    destruct (hitsSnake (snake (state g)) curr) eqn:Hs.
    { cbn [fst snd foodFound dist]. rewrite Hhere, L2. split.
      - intros [H|H]; [now left|right]. exists (dist v).
        rewrite <- Hc. split_and!; try assumption; lia.
      - intros [H|(k & Hk & _ & Ht)]; [now left|right].
        replace k with (dist v) in Ht by lia. congruence. }
    destruct (wallAt (wallMap g) (p_x curr) (p_y curr)) eqn:Hwall.
    { cbn [fst snd foodFound dist]. rewrite Hhere, L2. split.
      - intros [H|H]; [now left|right]. exists (dist v).
        rewrite <- Hc. split_and!; try assumption; lia.
      - intros [H|(k & Hk & _ & Ht)]; [now left|right].
        replace k with (dist v) in Ht by lia. congruence. }
    match goal with |- context [castRay n g target dir ?c ?w] =>
      specialize (IH c w); set (res := castRay n g target dir c w) in * end.
    cbn [dist foodFound] in IH. rewrite IH, Hhere.
    2:{ intros _. rewrite (roundsLeft_next dir curr Hdir).
        specialize (Hr eq_refl). lia. }
    2:{ rewrite L2, Hc. apply rayCell_next. }
    rewrite L2. split.
    + intros [[H|H]|(k & Hk & Hin & Ht)].
      * now left.
      * right. exists (dist v). rewrite <- Hc.
        split_and!; try assumption; try lia.
        etransitivity; [|apply castRay_dist_le]. cbn. lia.
      * right. exists k. split_and!; try assumption; lia.
    + intros [H|(k & Hk & Hin & Ht)]; [now left; left|].
      destruct (decide (k = dist v)) as [->|Hne].
      * left. right. congruence.
      * right. exists k. split_and!; try assumption; lia.
Qed.


Lemma castRay_point (n : nat) (curr : Point) (v : VisionData) :
  (inGrid curr = true -> roundsLeft dir curr <= Z.of_nat n) ->
  curr = rayCell h dir (dist v) ->
  let res := castRay n g target dir curr v in
  v_point res.2
  = (if inGrid res.1 then res.1
     else if dist res.2 =? dist v then v_point v
     else rayCell h dir (dist res.2 - 1)).
Proof.
  revert curr v. induction n as [|n IH]; intros curr v Hr Hc.
  - cbn [castRay fst snd]. cbv zeta.
    assert (Hg : inGrid curr = false).
    { destruct (inGrid curr) eqn:Hg; [|reflexivity].
      pose proof (roundsLeft_inGrid dir curr Hdir Hg). specialize (Hr eq_refl).
      lia. }
    now rewrite Hg, Z.eqb_refl.
  - cbn [castRay]. destruct (inGrid curr) eqn:Hg.
    2:{ cbn [fst snd]. cbv zeta. now rewrite Hg, Z.eqb_refl. }
    cbv zeta.
    destruct (look_fields g target curr v) as (L1 & L2 & L3 & L4 & L5 & L6).
    set (v1 := look g target curr v) in *.
    destruct (hitsSnake (snake (state g)) curr) eqn:Hs.
    { cbn [fst snd v_point]. now rewrite Hg. }
    destruct (wallAt (wallMap g) (p_x curr) (p_y curr)) eqn:Hwall.
    { cbn [fst snd v_point]. now rewrite Hg. }
    match goal with |- context [castRay n g target dir ?c ?w] =>
      pose proof (castRay_dist_le g target dir n c w) as Hle;
      specialize (IH c w); set (res := castRay n g target dir c w) in * end.
    cbn [dist v_point] in IH, Hle. rewrite IH.
    2:{ intros _. rewrite (roundsLeft_next dir curr Hdir).
        specialize (Hr eq_refl). lia. }
    2:{ rewrite L2, Hc. apply rayCell_next. }
    destruct (inGrid res.1); [reflexivity|].
    replace (dist res.2 =? dist v) with false by (symmetry; apply Z.eqb_neq; lia).
    destruct (dist res.2 =? dist v1 + 1) eqn:E; [|reflexivity].
    apply Z.eqb_eq in E. rewrite L5, Hc, E, L2. f_equal. lia.
Qed.

Lemma castRay_item (n : nat) (curr : Point) (v : VisionData) :
  (inGrid curr = true -> roundsLeft dir curr <= Z.of_nat n) ->
  curr = rayCell h dir (dist v) ->
  let res := castRay n g target dir curr v in
  match itemFound v with
  | Some t => itemFound res.2 = Some t /\ itemDist res.2 = itemDist v
  | None =>
      (itemFound res.2 = None /\ itemDist res.2 = itemDist v /\
       forall k, dist v <= k <= dist res.2 -> inGrid (rayCell h dir k) = true ->
                 findItem (specialItems (state g)) (rayCell h dir k) = None) \/
      (exists k si,
         dist v <= k <= dist res.2 /\ inGrid (rayCell h dir k) = true /\
         findItem (specialItems (state g)) (rayCell h dir k) = Some si /\
         itemFound res.2 = Some (type si) /\ itemDist res.2 = Some k /\
         forall j, dist v <= j < k ->
                   findItem (specialItems (state g)) (rayCell h dir j) = None)
  end.
Proof.
  revert curr v. induction n as [|n IH]; intros curr v Hr Hc.
  - cbn [castRay fst snd]. cbv zeta.
    assert (Hg : inGrid curr = false).
    { destruct (inGrid curr) eqn:Hg; [|reflexivity].
      pose proof (roundsLeft_inGrid dir curr Hdir Hg). specialize (Hr eq_refl).
      lia. }
    destruct (itemFound v); [split; reflexivity|]. left.
    split_and!; try reflexivity. intros k Hk Hin.
    replace k with (dist v) in Hin by lia. congruence.
  - cbn [castRay]. destruct (inGrid curr) eqn:Hg.
    2:{ cbn [fst snd]. cbv zeta.
        destruct (itemFound v); [split; reflexivity|]. left.
        split_and!; try reflexivity. intros k Hk Hin.
        replace k with (dist v) in Hin by lia. congruence. }
    cbv zeta.
    destruct (look_fields g target curr v) as (L1 & L2 & L3 & L4 & L5 & L6).
    pose proof (look_item g target curr v) as LI.
    set (v1 := look g target curr v) in *.
    assert (Hstop : forall b w,
      match itemFound v with
      | Some t =>
          itemFound (mkVisionData (direction v1) (dist v1) (foodFound v1)
                       (itemFound v1) (itemDist v1) b w (v_point v1)) = Some t /\
          itemDist (mkVisionData (direction v1) (dist v1) (foodFound v1)
                      (itemFound v1) (itemDist v1) b w (v_point v1)) = itemDist v
      | None =>
          (itemFound v1 = None /\ itemDist v1 = itemDist v /\
           forall k, dist v <= k <= dist v1 -> inGrid (rayCell h dir k) = true ->
                     findItem (specialItems (state g)) (rayCell h dir k) = None) \/
          (exists k si,
             dist v <= k <= dist v1 /\ inGrid (rayCell h dir k) = true /\
             findItem (specialItems (state g)) (rayCell h dir k) = Some si /\
             itemFound v1 = Some (type si) /\ itemDist v1 = Some k /\
             forall j, dist v <= j < k ->
                       findItem (specialItems (state g)) (rayCell h dir j) = None)
      end).
    { intros b w. cbn [itemFound itemDist].
      destruct (itemFound v) as [t|]; [exact LI|].
      destruct (findItem (specialItems (state g)) curr) as [si|] eqn:Hf.
      - right. exists (dist v), si. rewrite <- Hc, L2.
        destruct LI as [LI1 LI2].
        split_and!; try assumption; try lia.
      - left. destruct LI as [LI1 LI2]. split_and!; try assumption.
        intros k Hk _. rewrite L2 in Hk.
        replace k with (dist v) by lia. now rewrite <- Hc. }
    destruct (hitsSnake (snake (state g)) curr) eqn:Hs.
    { cbn [fst snd]. apply Hstop. }
    destruct (wallAt (wallMap g) (p_x curr) (p_y curr)) eqn:Hwall.
    { cbn [fst snd]. apply Hstop. }
    match goal with |- context [castRay n g target dir ?c ?w] =>
      pose proof (castRay_dist_le g target dir n c w) as Hle;
      specialize (IH c w); set (res := castRay n g target dir c w) in * end.
    cbn [dist itemFound itemDist] in IH, Hle.
    assert (IH' := IH
      ltac:(intros _; rewrite (roundsLeft_next dir curr Hdir);
            specialize (Hr eq_refl); lia)
      ltac:(rewrite L2, Hc; apply rayCell_next)).
    clear IH. cbv zeta in IH'.
    destruct (itemFound v) as [t|] eqn:Hiv.
    { destruct LI as [LI1 LI2]. rewrite LI1 in IH'.
      destruct IH' as [I1 I2]. split; congruence. }
    destruct (findItem (specialItems (state g)) curr) as [si|] eqn:Hf.
    + destruct LI as [LI1 LI2]. rewrite LI1 in IH'. destruct IH' as [I1 I2].
      right. exists (dist v), si. rewrite <- Hc.
      split_and!; try assumption; try lia; congruence.
    + destruct LI as [LI1 LI2]. rewrite LI1 in IH'.
      destruct IH' as [(I1 & I2 & I3)|(k & si & I1 & I2 & I3 & I4 & I5 & I6)].
      * left. split_and!; try assumption; try congruence.
        intros k Hk Hin. destruct (decide (k = dist v)) as [->|Hne].
        -- now rewrite <- Hc.
        -- apply I3; [lia|exact Hin].
      * right. exists k, si. split_and!; try assumption; try lia.
        intros j Hj. destruct (decide (j = dist v)) as [->|Hne].
        -- now rewrite <- Hc.
        -- apply I6. lia.
Qed.

End RayFacts.

Lemma rayCell_first (h dir : Point) :
  mkPoint (p_x h + p_x dir) (p_y h + p_y dir) = rayCell h dir 1.
Proof. unfold rayCell. f_equal; lia. Qed.

Lemma findItem_None (items : list SpecialItem) (p : Point) :
  findItem items p = None <-> hitsItems items p = false.
Proof.
  unfold findItem, hitsItems. induction items as [|si items IH]; cbn.
  - tauto.
  - destruct (point_eqb (point si) p); cbn; [split; discriminate|exact IH].
Qed.

Lemma findItem_Some (items : list SpecialItem) (p : Point) (si : SpecialItem) :
  findItem items p = Some si -> In si items /\ point si = p.
Proof.
  unfold findItem. intros H. apply find_some in H as [Hin Hp].
  split; [exact Hin|]. now apply point_eqb_eq.
Qed.

Section RayTheorems.

Variables (g : SnakeGame) (head dir : Point) (n : nat).
Hypothesis Hdir : In dir rayDirs.
Hypothesis Hn : (Z.to_nat GRID_SIZE <= n)%nat.

Lemma ray_fuel_ok :
  inGrid (mkPoint (p_x head + p_x dir) (p_y head + p_y dir)) = true ->
  roundsLeft dir (mkPoint (p_x head + p_x dir) (p_y head + p_y dir))
  <= Z.of_nat n.
Proof.
  intros Hg. pose proof (roundsLeft_inGrid dir _ Hdir Hg) as H.
  unfold GRID_SIZE in *. lia.
Qed.

Lemma ray_spec :
  let v := ray n g head dir in
  let sn := snake (state g) in
  let cell := rayCell head dir in
  direction v = dir /\
  1 <= dist v /\
  isBlocking g sn (p_x (cell (dist v))) (p_y (cell (dist v))) = true /\
  (forall k, 1 <= k < dist v ->
     isBlocking g sn (p_x (cell k)) (p_y (cell k)) = false) /\
  bodyFound v = inGrid (cell (dist v)) && hitsSnake sn (cell (dist v)) /\
  wallFound v = negb (bodyFound v) /\
  (foodFound v = true <->
   exists k, 1 <= k <= dist v /\ inGrid (cell k) = true /\
             cell k = visionTarget (state g)) /\
  v_point v = (if inGrid (cell (dist v)) then cell (dist v)
               else if dist v =? 1 then cell 1 else cell (dist v - 1)) /\
  ((itemFound v = None /\ itemDist v = None /\
    forall k, 1 <= k <= dist v -> inGrid (cell k) = true ->
              findItem (specialItems (state g)) (cell k) = None) \/
   (exists k si,
      1 <= k <= dist v /\ inGrid (cell k) = true /\
      findItem (specialItems (state g)) (cell k) = Some si /\
      itemFound v = Some (type si) /\ itemDist v = Some k /\
      forall j, 1 <= j < k ->
                findItem (specialItems (state g)) (cell j) = None)).
Proof.
  cbv zeta. unfold ray.
  set (curr := mkPoint (p_x head + p_x dir) (p_y head + p_y dir)).
  set (v0 := mkVisionData dir 1 false None None false false curr).
  assert (Hc : curr = rayCell head dir (dist v0)) by apply rayCell_first.
  pose proof (castRay_geometry g (visionTarget (state g)) head dir Hdir n curr v0
                ray_fuel_ok Hc eq_refl eq_refl) as HG.
  pose proof (castRay_food g (visionTarget (state g)) head dir Hdir n curr v0
                ray_fuel_ok Hc) as HF.
  pose proof (castRay_point g (visionTarget (state g)) head dir Hdir n curr v0
                ray_fuel_ok Hc) as HP.
  pose proof (castRay_item g (visionTarget (state g)) head dir Hdir n curr v0
                ray_fuel_ok Hc) as HI.
  cbv zeta in HG, HF, HP, HI. subst v0.
  cbn [dist foodFound v_point itemFound itemDist direction] in HG, HF, HP, HI.
  destruct (castRay n g (visionTarget (state g)) dir curr _) as [c v].
  cbn [fst snd] in *.
  destruct HG as (G1 & G2 & G3 & G4 & G5 & G6 & G7).
  assert (Hfin : forall w,
    direction w = direction v -> dist w = dist v ->
    foodFound w = foodFound v -> itemFound w = itemFound v ->
    itemDist w = itemDist v -> bodyFound w = bodyFound v ->
    v_point w = v_point v ->
    wallFound w = negb (bodyFound v) ->
    direction w = dir /\
    1 <= dist w /\
    isBlocking g (snake (state g)) (p_x (rayCell head dir (dist w)))
      (p_y (rayCell head dir (dist w))) = true /\
    (forall k, 1 <= k < dist w ->
       isBlocking g (snake (state g)) (p_x (rayCell head dir k))
         (p_y (rayCell head dir k)) = false) /\
    bodyFound w = inGrid (rayCell head dir (dist w))
                  && hitsSnake (snake (state g)) (rayCell head dir (dist w)) /\
    wallFound w = negb (bodyFound w) /\
    (foodFound w = true <->
     exists k, 1 <= k <= dist w /\ inGrid (rayCell head dir k) = true /\
               rayCell head dir k = visionTarget (state g)) /\
    v_point w = (if inGrid (rayCell head dir (dist w))
                 then rayCell head dir (dist w)
                 else if dist w =? 1 then rayCell head dir 1
                 else rayCell head dir (dist w - 1)) /\
    ((itemFound w = None /\ itemDist w = None /\
      forall k, 1 <= k <= dist w -> inGrid (rayCell head dir k) = true ->
                findItem (specialItems (state g)) (rayCell head dir k) = None) \/
     (exists k si,
        1 <= k <= dist w /\ inGrid (rayCell head dir k) = true /\
        findItem (specialItems (state g)) (rayCell head dir k) = Some si /\
        itemFound w = Some (type si) /\ itemDist w = Some k /\
        forall j, 1 <= j < k ->
                  findItem (specialItems (state g)) (rayCell head dir j) = None))).
  { intros w W1 W2 W3 W4 W5 W6 W7 W8.
    rewrite W1, W2, W3, W4, W5, W6, W7, W8, <- G2.
    split_and!; try assumption; try reflexivity.
    - rewrite HF. split.
      + intros [H|H]; [discriminate|exact H].
      + intros H. now right.
    - rewrite HP. destruct (inGrid c); [reflexivity|].
      destruct (dist v =? 1); [|reflexivity]. now rewrite <- rayCell_first. }
  destruct (negb (wallFound v) && negb (inGrid c)) eqn:Hpost.
  - apply Hfin; try reflexivity. cbn [wallFound].
    apply andb_true_iff in Hpost as [_ Hout]. apply negb_true_iff in Hout.
    now rewrite G6, Hout.
  - apply Hfin; try reflexivity.
    rewrite G7, G6. rewrite G7 in Hpost.
    destruct (inGrid c); destruct (hitsSnake (snake (state g)) c);
      try reflexivity; discriminate.
Qed.

Lemma ray_more : ray n g head dir = ray (Z.to_nat GRID_SIZE) g head dir.
Proof.
  unfold ray. rewrite (castRay_more g _ dir (Z.to_nat GRID_SIZE) n Hdir);
    [reflexivity| |exact Hn].
  intros Hg. pose proof (roundsLeft_inGrid dir _ Hdir Hg) as H.
  unfold GRID_SIZE in *. lia.
Qed.

End RayTheorems.

Lemma getVisionExtended_In (g : SnakeGame) (head : Point) (tl : list Point)
    (vs : list VisionData) (v : VisionData) :
  snake (state g) = head :: tl ->
  getVisionExtended g = Some vs -> In v vs ->
  exists dir, In dir rayDirs /\ v = ray (Z.to_nat GRID_SIZE) g head dir.
Proof.
  unfold getVisionExtended. intros Hsn Hvs Hin. rewrite Hsn in Hvs.
  apply (inj Some) in Hvs. rewrite <- Hvs in Hin.
  apply in_map_iff in Hin as (dir & <- & Hd). eauto.
Qed.

(** X13.  [getVisionExtended] raises a [TypeError] on an empty body and
    otherwise returns eight rays, one for each direction of [rayDirs] and in
    that order; the loop of every ray has ended by itself within 30 rounds,
    so that allowing more rounds gives the same rays. *)
Theorem getVisionExtended_rays (g : SnakeGame) :
  match snake (state g) with
  | [] => getVisionExtended g = None
  | head :: _ =>
      exists vs,
        getVisionExtended g = Some vs /\ length vs = 8%nat /\
        map direction vs = rayDirs /\
        forall n, (Z.to_nat GRID_SIZE <= n)%nat ->
                  map (ray n g head) rayDirs = vs
  end.
Proof.
  unfold getVisionExtended. destruct (snake (state g)) as [|head tl];
    [reflexivity|].
  eexists. split; [reflexivity|]. split; [reflexivity|]. split.
  - rewrite map_map. rewrite <- (map_id rayDirs) at 2.
    apply map_ext_in. intros dir Hd.
    now destruct (ray_spec g head dir _ Hd (Nat.le_refl _)) as (H & _).
  - intros n Hn. apply map_ext_in. intros dir Hd. now apply ray_more.
Qed.

(** X14.  The distance of a ray is the number of steps from the head to the
    first cell in its direction that is off the board, an obstacle or under
    the body, the cells the fingerprint of the agent calls blocking: that
    cell is blocking and the cells before it are not.  Exactly one of
    [bodyFound] and [wallFound] is set; [bodyFound] is set when that cell is
    on the board and under the body.  From a head on the board the distance
    is at most 30. *)
Theorem ray_distance (g : SnakeGame) (head : Point) (tl : list Point)
    (vs : list VisionData) (v : VisionData) :
  snake (state g) = head :: tl ->
  getVisionExtended g = Some vs -> In v vs ->
  let cell := rayCell head (direction v) in
  1 <= dist v /\
  isBlocking g (head :: tl) (p_x (cell (dist v))) (p_y (cell (dist v))) = true /\
  (forall k, 1 <= k < dist v ->
     isBlocking g (head :: tl) (p_x (cell k)) (p_y (cell k)) = false) /\
  wallFound v = negb (bodyFound v) /\
  (bodyFound v = true <->
   inBoard (cell (dist v)) /\ In (cell (dist v)) (head :: tl)) /\
  (inBoard head -> dist v <= GRID_SIZE).
Proof.
  intros Hsn Hvs Hin.
  destruct (getVisionExtended_In g head tl vs v Hsn Hvs Hin) as (dir & Hd & ->).
  destruct (ray_spec g head dir _ Hd (Nat.le_refl _))
    as (S1 & S2 & S3 & S4 & S5 & S6 & _).
  cbv zeta. rewrite S1. rewrite Hsn in *.
  split_and!; try assumption.
  - rewrite S5, andb_true_iff, inGrid_inBoard, hitsSnake_true. reflexivity.
  - intros Hb.
    set (m := dist (ray (Z.to_nat GRID_SIZE) g head dir)) in *.
    destruct (decide (m <= 1)) as [Hle|Hgt]; [unfold GRID_SIZE; lia|].
    specialize (S4 (m - 1) ltac:(lia)).
    rewrite isBlocking_cases in S4.
    apply orb_false_iff in S4 as [S4 _]. apply orb_false_iff in S4 as [S4 _].
    apply negb_false_iff, inGrid_inBoard in S4.
    unfold inBoard, rayCell, GRID_SIZE in *. cbn [p_x p_y] in S4.
    destruct Hd as [<-|[<-|[<-|[<-|[<-|[<-|[<-|[<-|[]]]]]]]]];
      cbn [p_x p_y] in S4; lia.
Qed.

(** X15.  A ray reports the target (the portal cell when the portal is open
    and has a cell, the goal otherwise) exactly when the target is one of
    the board cells of the ray, from the cell next to the head up to and
    including the cell that stops the ray. *)
Theorem ray_foodFound (g : SnakeGame) (head : Point) (tl : list Point)
    (vs : list VisionData) (v : VisionData) :
  snake (state g) = head :: tl ->
  getVisionExtended g = Some vs -> In v vs ->
  foodFound v = true <->
  exists k, 1 <= k <= dist v /\
            inBoard (rayCell head (direction v) k) /\
            rayCell head (direction v) k = visionTarget (state g).
Proof.
  intros Hsn Hvs Hin.
  destruct (getVisionExtended_In g head tl vs v Hsn Hvs Hin) as (dir & Hd & ->).
  destruct (ray_spec g head dir _ Hd (Nat.le_refl _))
    as (S1 & _ & _ & _ & _ & _ & S7 & _).
  rewrite S1, S7. split; intros (k & Hk & Hb & Ht); exists k;
    (split; [exact Hk|split; [now apply inGrid_inBoard|exact Ht]]).
Qed.

(** X16.  The [point] of a ray is the last cell of the ray on the board: the
    cell that stops the ray when that cell is on the board, the cell before
    it otherwise; when the first cell in the direction is already off the
    board, it is that cell. *)
Theorem ray_point (g : SnakeGame) (head : Point) (tl : list Point)
    (vs : list VisionData) (v : VisionData) :
  snake (state g) = head :: tl ->
  getVisionExtended g = Some vs -> In v vs ->
  let cell := rayCell head (direction v) in
  (inBoard (cell (dist v)) -> v_point v = cell (dist v)) /\
  (~ inBoard (cell (dist v)) -> 1 < dist v ->
   v_point v = cell (dist v - 1) /\ inBoard (v_point v)) /\
  (~ inBoard (cell 1) -> dist v = 1 /\ v_point v = cell 1).
Proof.
  intros Hsn Hvs Hin.
  destruct (getVisionExtended_In g head tl vs v Hsn Hvs Hin) as (dir & Hd & ->).
  destruct (ray_spec g head dir _ Hd (Nat.le_refl _))
    as (S1 & S2 & S3 & S4 & _ & _ & _ & S8 & _).
  cbv zeta. rewrite S1.
  set (m := dist (ray (Z.to_nat GRID_SIZE) g head dir)) in *.
  split_and!.
  - intros Hb. apply inGrid_inBoard in Hb. now rewrite S8, Hb.
  - intros Hb Hm. rewrite <- inGrid_inBoard in Hb.
    apply not_true_is_false in Hb. rewrite S8, Hb.
    replace (m =? 1) with false by (symmetry; apply Z.eqb_neq; lia).
    split; [reflexivity|].
    specialize (S4 (m - 1) ltac:(lia)). rewrite isBlocking_cases in S4.
    apply orb_false_iff in S4 as [S4 _]. apply orb_false_iff in S4 as [S4 _].
    now apply negb_false_iff, inGrid_inBoard in S4.
  - intros Hb. rewrite <- inGrid_inBoard in Hb. apply not_true_is_false in Hb.
    assert (Hm : m = 1).
    { destruct (decide (m = 1)) as [E|E]; [exact E|]. exfalso.
      specialize (S4 1 ltac:(lia)). rewrite isBlocking_cases, Hb in S4.
      discriminate. }
    split; [exact Hm|]. rewrite S8, Hm, Hb. reflexivity.
Qed.

(** X17.  A ray reports the first item on its board cells, from the cell
    next to the head up to and including the cell that stops the ray: its
    type, and as [itemDist] the number of steps to it; when several items
    share that cell it is the first of the list; when no item lies on these
    cells both fields stay undefined. *)
Theorem ray_itemFound (g : SnakeGame) (head : Point) (tl : list Point)
    (vs : list VisionData) (v : VisionData) :
  snake (state g) = head :: tl ->
  getVisionExtended g = Some vs -> In v vs ->
  let cell := rayCell head (direction v) in
  let items := specialItems (state g) in
  (itemFound v = None /\ itemDist v = None /\
   forall k, 1 <= k <= dist v -> inBoard (cell k) ->
             hitsItems items (cell k) = false) \/
  (exists k si,
     1 <= k <= dist v /\ inBoard (cell k) /\
     findItem items (cell k) = Some si /\ In si items /\ point si = cell k /\
     itemFound v = Some (type si) /\ itemDist v = Some k /\
     forall j, 1 <= j < k -> hitsItems items (cell j) = false).
Proof.
  intros Hsn Hvs Hin.
  destruct (getVisionExtended_In g head tl vs v Hsn Hvs Hin) as (dir & Hd & ->).
  destruct (ray_spec g head dir _ Hd (Nat.le_refl _))
    as (S1 & _ & _ & _ & _ & _ & _ & _ & S9).
  cbv zeta. rewrite S1.
  destruct S9 as [(I1 & I2 & I3)|(k & si & I1 & I2 & I3 & I4 & I5 & I6)].
  - left. split_and!; try assumption. intros k Hk Hb.
    apply findItem_None. apply I3; [exact Hk|now apply inGrid_inBoard].
  - right. exists k, si. destruct (findItem_Some _ _ _ I3) as [F1 F2].
    split; [exact I1|]. split; [now apply inGrid_inBoard|].
    split_and!; try assumption.
    intros j Hj. apply findItem_None. now apply I6.
Qed.

(** ** The choice of an action *)

Lemma argmax_spec (q : QValues) :
  (forall d, qGet q d <= qGet q (directionOfIndex (argmax q)))%Q /\
  (forall j, 0 <= j < argmax q ->
     (qGet q (directionOfIndex j) < qGet q (directionOfIndex (argmax q)))%Q).
Proof.
  unfold argmax. destruct q as [a b c d]. cbn [q_0 q_1 q_2 q_3].
  destruct (Qltb a b) eqn:E1.
  - destruct (Qltb b c) eqn:E2.
    + destruct (Qltb c d) eqn:E3;
        rewrite ?Qltb_lt, ?Qltb_ge in *; split.
      * intros []; cbn; lra.
      * intros j Hj. assert (Hc : j = 0 \/ j = 1 \/ j = 2) by lia.
        destruct Hc as [->|[->| ->]]; cbn; lra.
      * intros []; cbn; lra.
      * intros j Hj. assert (Hc : j = 0 \/ j = 1) by lia.
        destruct Hc as [->| ->]; cbn; lra.
    + destruct (Qltb b d) eqn:E3;
        rewrite ?Qltb_lt, ?Qltb_ge in *; split.
      * intros []; cbn; lra.
      * intros j Hj. assert (Hc : j = 0 \/ j = 1 \/ j = 2) by lia.
        destruct Hc as [->|[->| ->]]; cbn; lra.
      * intros []; cbn; lra.
      * intros j Hj. assert (Hc : j = 0) by lia. subst. cbn. lra.
  - destruct (Qltb a c) eqn:E2.
    + destruct (Qltb c d) eqn:E3;
        rewrite ?Qltb_lt, ?Qltb_ge in *; split.
      * intros []; cbn; lra.
      * intros j Hj. assert (Hc : j = 0 \/ j = 1 \/ j = 2) by lia.
        destruct Hc as [->|[->| ->]]; cbn; lra.
      * intros []; cbn; lra.
      * intros j Hj. assert (Hc : j = 0 \/ j = 1) by lia.
        destruct Hc as [->| ->]; cbn; lra.
    + destruct (Qltb a d) eqn:E3;
        rewrite ?Qltb_lt, ?Qltb_ge in *; split.
      * intros []; cbn; lra.
      * intros j Hj. assert (Hc : j = 0 \/ j = 1 \/ j = 2) by lia.
        destruct Hc as [->|[->| ->]]; cbn; lra.
      * intros []; cbn; lra.
      * intros j Hj. lia.
Qed.

(** X18.  [chooseAction] draws one number; when it is below the exploration
    rate it draws a second one, returns an index from 0 to 3 and leaves the
    agent as it was; otherwise it reads the entry of the state (creating the
    all-zero entry when there is none) and returns the first index that
    holds the largest value of that entry: no value of the entry is larger,
    and every value at a lower index is smaller. *)
Theorem chooseAction_spec (s : string) (a : Agent) (r : RNG) :
  let u := u_val (tape r (pos r)) in
  let res := chooseAction s a r in
  tape res.2 = tape r /\
  if Qltb u (epsilon a) then
    res.1.2 = a /\ 0 <= res.1.1 < 4 /\ pos res.2 = S (S (pos r))
  else
    res.1.2 = (getQValues s a).2 /\ pos res.2 = S (pos r) /\
    (forall d,
       qGet (getQValues s a).1 d
       <= qGet (getQValues s a).1 (directionOfIndex res.1.1))%Q /\
    (forall j, 0 <= j < res.1.1 ->
       (qGet (getQValues s a).1 (directionOfIndex j)
        < qGet (getQValues s a).1 (directionOfIndex res.1.1))%Q).
Proof.
  cbv zeta. unfold chooseAction, Math_random.
  destruct (Qltb (u_val (tape r (pos r))) (epsilon a)).
  - pose proof (randomBelow_range 4 (mkRNG (tape r) (S (pos r))) ltac:(lia)) as Hk.
    pose proof (randomBelow_rng 4 (mkRNG (tape r) (S (pos r)))) as [Ht Hp].
    destruct (randomBelow 4 _) as [k r2]. cbn [fst snd] in *.
    cbn [tape pos] in Ht, Hp. split_and!; try assumption; try reflexivity; lia.
  - destruct (argmax_spec (getQValues s a).1) as [H1 H2].
    destruct (getQValues s a) as [q a1]. cbn [fst snd] in *.
    split_and!; try assumption; reflexivity.
Qed.

(** ** The value table *)

(** X19.  After [getQValues(s)] the table maps [s] to the vector returned,
    and every other key to what it was mapped to before; an entry that
    exists is returned and the agent is left untouched; a missing entry is
    created as the all-zero vector; asking again returns the same vector
    and changes nothing. *)
Theorem getQValues_lookup (s : string) (a : Agent) :
  let res := getQValues s a in
  qTable res.2 !! s = Some res.1 /\
  (forall k, k <> s -> qTable res.2 !! k = qTable a !! k) /\
  (forall q, qTable a !! s = Some q -> res = (q, a)) /\
  (qTable a !! s = None -> res.1 = zeroQValues) /\
  getQValues s res.2 = res.
Proof.
  cbv zeta. unfold getQValues.
  destruct (qTable a !! s) as [q|] eqn:E; cbn [fst snd].
  - split; [exact E|]. split; [reflexivity|].
    split; [intros q' [= <-]; reflexivity|].
    split; [discriminate|]. now rewrite E.
  - cbn [qTable set_qTable].
    split; [apply lookup_insert_eq|].
    split; [intros k Hk; now apply lookup_insert_ne|].
    split; [discriminate|]. split; [reflexivity|].
    now rewrite lookup_insert_eq.
Qed.

Lemma getQValues_table (s : string) (a : Agent) :
  qTable (getQValues s a).2 !! s
  = Some (default zeroQValues (qTable a !! s)) /\
  (getQValues s a).1 = default zeroQValues (qTable a !! s) /\
  (forall k, k <> s -> qTable (getQValues s a).2 !! k = qTable a !! k).
Proof.
  unfold getQValues. destruct (qTable a !! s) as [q|] eqn:E; cbn.
  - split_and!; try assumption; try reflexivity.
  - split_and!; try reflexivity.
    + apply lookup_insert_eq.
    + intros k Hk. now apply lookup_insert_ne.
Qed.

Lemma chooseAction_table (s : string) (a : Agent) (r : RNG) :
  forall k,
    default zeroQValues (qTable (chooseAction s a r).1.2 !! k)
    = default zeroQValues (qTable a !! k) /\
    (forall q, qTable a !! k = Some q ->
               qTable (chooseAction s a r).1.2 !! k = Some q) /\
    (k <> s -> qTable (chooseAction s a r).1.2 !! k = qTable a !! k).
Proof.
  intros k. unfold chooseAction. destruct (Math_random r) as [u r1].
  destruct (Qltb u (epsilon a)).
  - destruct (randomBelow 4 r1) as [j r2]. cbn. auto.
  - destruct (getQValues_table s a) as (G1 & G2 & G3).
    destruct (getQValues s a) as [q a1]. cbn [fst snd] in *.
    destruct (decide (k = s)) as [->|Hne].
    + rewrite G1. split_and!; try reflexivity; try congruence.
      intros q' Hq'. now rewrite Hq'.
    + rewrite (G3 k Hne). auto.
Qed.

Section TableFacts.

Variable Math_sin : Q -> Q.

(** The table after [learn]. *)
Lemma learn_table (s : string) (action : Z) (reward : Q) (a a' : Agent) :
  learn s action reward a = Some a' ->
  exists s' new,
    getStateString a = Some s' /\
    qTable a' !! s
    = Some (qSet (default zeroQValues (qTable a !! s))
              (directionOfIndex action) new) /\
    (new == qGet (default zeroQValues (qTable a !! s)) (directionOfIndex action)
            + alpha * (reward
                       + gamma * (if isGameOver (state (game a)) then 0
                                  else maxOf (default zeroQValues (qTable a !! s')))
                       - qGet (default zeroQValues (qTable a !! s))
                           (directionOfIndex action)))%Q /\
    (s' <> s ->
     qTable a' !! s' = Some (default zeroQValues (qTable a !! s'))) /\
    (forall k, k <> s -> k <> s' -> qTable a' !! k = qTable a !! k).
Proof.
  unfold learn.
  set (a0 := set_totalStepsEver _ _).
  assert (Hs0 : getStateString a0 = getStateString a)
    by (apply getStateString_game; reflexivity).
  rewrite Hs0.
  destruct (getStateString a) as [s'|]; [|discriminate].
  destruct (getQValues_table s' a0) as (N1 & N2 & N3).
  pose proof (getQValues_fields s' a0) as (_ & NG & _).
  destruct (getQValues s' a0) as [nq a1]. cbn [fst snd] in *.
  destruct (getQValues_table s a1) as (C1 & C2 & C3).
  pose proof (getQValues_fields s a1) as (_ & CG & _).
  destruct (getQValues s a1) as [cq a2]. cbn [fst snd] in *.
  intros [= <-]. cbn [qTable set_epsilon set_qTable].
  assert (Hcq : cq = default zeroQValues (qTable a !! s)).
  { rewrite C2. destruct (decide (s = s')) as [->|Hne].
    - rewrite N1. reflexivity.
    - now rewrite (N3 s Hne). }
  assert (Hnq : nq = default zeroQValues (qTable a !! s')) by exact N2.
  exists s'. eexists. split; [reflexivity|].
  split; [rewrite lookup_insert_eq, Hcq; reflexivity|].
  split.
  - rewrite CG, NG, Hnq. reflexivity.
  - split.
    + intros Hne. rewrite lookup_insert_ne by congruence.
      rewrite (C3 s' Hne), N1. reflexivity.
    + intros k Hk Hk'. rewrite lookup_insert_ne by congruence.
      now rewrite (C3 k Hk), (N3 k Hk').
Qed.

(** X20.  One decision changes the table at two keys at most: under the
    fingerprint of the state it acted in, only the value of the action taken
    changes (an entry that was missing counts as all zero); the fingerprint
    of the state it arrived in gets an all-zero entry when it had none; every
    other key is mapped to what it was mapped to before, so that no entry is
    ever removed. *)
Theorem update_table (a a' : Agent) (r r' : RNG) :
  isGameOver (state (game a)) = false ->
  update Math_sin a r = (Some a', r') ->
  exists s s' action q',
    getStateString a = Some s /\ getStateString a' = Some s' /\
    0 <= action < 4 /\
    qTable a' !! s = Some q' /\
    (forall d, d <> directionOfIndex action ->
               qGet q' d = qGet (default zeroQValues (qTable a !! s)) d) /\
    (s' <> s ->
     qTable a' !! s' = Some (default zeroQValues (qTable a !! s'))) /\
    (forall k, k <> s -> k <> s' -> qTable a' !! k = qTable a !! k).
Proof.
  intros Hover Hup.
  destruct (update_inv Math_sin a a' r r' Hover Hup)
    as (s & target & hb & tl & action & a1 & r1 & reward & g' & shaped
        & Hs & Ht & Hsn & Hch & Hstep & Hshape & Hlearn).
  pose proof (chooseAction_range s a r) as Hrange.
  pose proof (chooseAction_table s a r) as Htab.
  rewrite Hch in Hrange, Htab. cbn [fst snd] in Hrange, Htab.
  destruct (learn_table _ _ _ _ _ Hlearn)
    as (s' & new & L1 & L2 & _ & L4 & L5).
  destruct (learn_fields _ _ _ _ _ Hlearn) as (_ & Hg & _).
  cbn [qTable set_game] in L2, L4, L5.
  assert (Hs' : getStateString a' = Some s').
  { rewrite <- L1. apply getStateString_game. exact Hg. }
  exists s, s', action. eexists.
  split; [exact Hs|]. split; [exact Hs'|]. split; [exact Hrange|].
  split; [exact L2|]. split_and!.
  - intros d Hd. destruct (Htab s) as (T1 & _). rewrite T1.
    destruct (directionOfIndex action), d; try reflexivity; contradiction.
  - intros Hne. rewrite (L4 Hne). destruct (Htab s') as (T1 & _).
    now rewrite T1.
  - intros k Hk Hk'. rewrite (L5 k Hk Hk').
    destruct (Htab k) as (_ & _ & T3). now apply T3.
Qed.

End TableFacts.

(** ** The size of the action values *)

Lemma bounded_zero : boundedValues zeroQValues.
Proof. intros []; unfold valueBound; cbn; lra. Qed.

Lemma bounded_default (a : Agent) (k : string) :
  boundedTable a -> boundedValues (default zeroQValues (qTable a !! k)).
Proof.
  intros Hb. destruct (qTable a !! k) as [q|] eqn:E; cbn.
  - exact (Hb k q E).
  - apply bounded_zero.
Qed.

Lemma Math_max_cases (x y : Q) : Math_max x y = x \/ Math_max x y = y.
Proof. unfold Math_max. destruct (Qle_bool x y); auto. Qed.

Lemma maxOf_bounded (q : QValues) :
  boundedValues q -> (- valueBound <= maxOf q <= valueBound)%Q.
Proof.
  intros Hb. unfold maxOf.
  pose proof (Hb UP) as H0. pose proof (Hb DOWN) as H1.
  pose proof (Hb LEFT) as H2. pose proof (Hb RIGHT) as H3. cbn in H0, H1, H2, H3.
  destruct (Math_max_cases (q_0 q) (q_1 q)) as [-> | ->];
    destruct (Math_max_cases (q_0 q) (q_2 q)) as [E2|E2];
    destruct (Math_max_cases (q_1 q) (q_2 q)) as [E2'|E2'];
    rewrite ?E2, ?E2';
    destruct (Math_max_cases (q_0 q) (q_3 q)) as [E3|E3];
    destruct (Math_max_cases (q_1 q) (q_3 q)) as [E3'|E3'];
    destruct (Math_max_cases (q_2 q) (q_3 q)) as [E3''|E3''];
    rewrite ?E3, ?E3', ?E3''; assumption.
Qed.

Lemma learn_bounded (s : string) (action : Z) (reward : Q) (a a' : Agent) :
  (- (2508 # 10) <= reward <= 2508 # 10)%Q ->
  boundedTable a ->
  learn s action reward a = Some a' ->
  boundedTable a'.
Proof.
  intros Hr Hb Hl.
  destruct (learn_table s action reward a a' Hl)
    as (s' & new & L1 & L2 & L3 & L4 & L5).
  pose proof (bounded_default a s Hb) as Hold.
  pose proof (maxOf_bounded _ (bounded_default a s' Hb)) as Hfut.
  set (old := default zeroQValues (qTable a !! s)) in *.
  assert (Hnew : (- valueBound <= new <= valueBound)%Q).
  { pose proof (Hold (directionOfIndex action)) as Ho.
    unfold alpha, gamma, valueBound in *.
    destruct (isGameOver (state (game a))); lra. }
  intros k q Hk.
  destruct (decide (k = s)) as [->|Hne].
  - rewrite L2 in Hk. injection Hk as <-. intros d.
    pose proof (Hold d) as Hd.
    destruct (directionOfIndex action), d; cbn in *; assumption.
  - destruct (decide (k = s')) as [->|Hne'].
    + rewrite (L4 Hne) in Hk. injection Hk as <-. now apply bounded_default.
    + rewrite (L5 k Hne Hne') in Hk. exact (Hb k q Hk).
Qed.

Section BoundFacts.

Variable Math_sin : Q -> Q.

Lemma step_reward_range (d : Direction) (g g' : SnakeGame) (r r' : RNG)
    (rw : Q) :
  step Math_sin d g r = (Some (rw, g'), r') -> (-100 <= rw <= 250)%Q.
Proof.
  intros H.
  destruct (step_outcome Math_sin d g g' r r' rw H)
    as [(-> & _)|(_ & [(-> & _)|[(-> & _)|(Hin & _)]])]; try lra.
  cbn in Hin. destruct Hin as [<-|[<-|[<-|[<-|[<-|[]]]]]]; lra.
Qed.

Lemma shapeReward_range (reward : Q) (g : SnakeGame) (target : Point)
    (distBefore : Z) (shaped : Q) :
  shapeReward reward g target distBefore = Some shaped ->
  (reward - (8 # 10) <= shaped <= reward + (8 # 10))%Q.
Proof.
  unfold shapeReward. destruct (isGameOver (state g)).
  - intros [= <-]. lra.
  - destruct (snake (state g)) as [|ha tl]; [discriminate|].
    destruct (_ <? _); [intros [= <-]; lra|].
    destruct (_ <? _); intros [= <-]; lra.
Qed.

Lemma update_bounded (a a' : Agent) (r r' : RNG) :
  boundedTable a -> update Math_sin a r = (Some a', r') -> boundedTable a'.
Proof.
  intros Hb Hup.
  destruct (isGameOver (state (game a))) eqn:Hover.
  { rewrite (update_over Math_sin a r Hover) in Hup. now injection Hup as <- _. }
  destruct (update_inv Math_sin a a' r r' Hover Hup)
    as (s & target & hb & tl & action & a1 & r1 & reward & g' & shaped
        & Hs & Ht & Hsn & Hch & Hstep & Hshape & Hlearn).
  pose proof (step_reward_range _ _ _ _ _ _ Hstep) as Hrw.
  pose proof (shapeReward_range _ _ _ _ _ Hshape) as Hsh.
  pose proof (chooseAction_table s a r) as Htab.
  rewrite Hch in Htab. cbn [fst snd] in Htab.
  apply (learn_bounded s action shaped (set_game g' a1) a'); [lra| |exact Hlearn].
  intros k q Hk. cbn [qTable set_game] in Hk.
  destruct (Htab k) as (T1 & _). rewrite Hk in T1. cbn in T1. subst q.
  now apply bounded_default.
Qed.

(** X21.  The action values stay bounded: when every value of the table
    lies between -5016 and 5016 (as in the empty table of a new agent), so
    does every value after a decision, whatever the draws.  5016 is the
    largest shaped reward in absolute value, 250.8, over [1 - gamma]. *)
Theorem update_keeps_values_bounded (a a' : Agent) (r r' : RNG) :
  boundedTable a -> update Math_sin a r = (Some a', r') ->
  forall k q d, qTable a' !! k = Some q ->
                (-5016 <= qGet q d <= 5016)%Q.
Proof.
  intros Hb Hup k q d Hk.
  exact (update_bounded a a' r r' Hb Hup k q Hk d).
Qed.

Lemma decayEpsilon_floor (e : Q) :
  (epsilonMin * epsilonDecay <= e -> e <= 1 ->
   epsilonMin * epsilonDecay <= decayEpsilon e <= 1)%Q.
Proof.
  intros H1 H2. unfold decayEpsilon.
  destruct (Qltb epsilonMin e) eqn:E.
  - apply Qltb_lt in E. unfold epsilonMin, epsilonDecay in *. split.
    + apply Qmult_le_compat_r; lra.
    + assert (e * 0.999997 <= e)%Q; [|lra].
      rewrite <- (Qmult_1_r e) at 2. apply Qmult_le_l; lra.
  - split; assumption.
Qed.

Lemma newSnakeGame_state (lvl : Z) (r : RNG) :
  exists f,
    state (newSnakeGame Math_sin lvl r).1
    = set_food f (getInitialState Math_sin lvl).
Proof.
  unfold newSnakeGame.
  match goal with |- context [updateWallMap ?x ?y] =>
    destruct (updateWallMap_spec x y) as (_ & f & -> & _) end.
  exists f. reflexivity.
Qed.

Lemma newSnakeGame_level (lvl : Z) (r : RNG) :
  level (state (newSnakeGame Math_sin lvl r).1) = lvl.
Proof. destruct (newSnakeGame_state lvl r) as (f & ->). reflexivity. Qed.

Lemma hostRun_inv (r0 : RNG) (n : N) (a : Agent) (r : RNG) :
  hostRun Math_sin r0 n a r ->
  totalStepsEver a = Z.of_N n /\
  observable Math_sin (game a) /\
  boundedTable a /\
  1 <= level (state (game a)) /\
  (epsilonMin * epsilonDecay <= epsilon a <= 1)%Q.
Proof.
  induction 1 as [|n a r Hrun IH Hover|n a a' r r' Hrun IH Hover Hup].
  - unfold newAgent.
    pose proof (newSnakeGame_level 1 r0) as Hl.
    pose proof (observable_new Math_sin 1 r0) as Ho.
    destruct (newSnakeGame Math_sin 1 r0) as [g r1]. cbn [fst snd] in *.
    cbn [totalStepsEver game epsilon qTable].
    split_and!; try assumption; try reflexivity; try lia.
    + intros k q Hk. cbn [qTable] in Hk. now rewrite lookup_empty in Hk.
    + unfold epsilonMin, epsilonDecay. lra.
    + lra.
  - destruct IH as (I1 & I2 & I3 & I4 & I5). unfold reset.
    pose proof (newSnakeGame_level (level (state (game a))) r) as Hl.
    pose proof (observable_new Math_sin (level (state (game a))) r) as Ho.
    destruct (newSnakeGame Math_sin _ r) as [g r1]. cbn [fst snd] in *.
    cbn [totalStepsEver game epsilon qTable set_totalReward set_game].
    split_and!; try assumption; try apply I5; try lia.
  - destruct IH as (I1 & I2 & I3 & I4 & (I5 & I6)).
    pose proof (update_bounded a a' r r' I3 Hup) as Hb.
    pose proof (update_decays_once Math_sin a a' r r' Hover Hup) as He.
    destruct (update_inv Math_sin a a' r r' Hover Hup)
      as (s & target & hb & tl & action & a1 & r1 & reward & g' & shaped
          & Hs & Ht & Hsn & Hch & Hstep & Hshape & Hlearn).
    destruct (learn_fields _ _ _ _ _ Hlearn) as (_ & Hg & _ & Hst).
    pose proof (chooseAction_fields s a r) as (_ & _ & _ & Hst1).
    rewrite Hch in Hst1. cbn [fst snd] in Hst1.
    cbn [game totalStepsEver set_game] in Hg, Hst.
    destruct (decayEpsilon_floor (epsilon a) I5 I6) as [D1 D2].
    split_and!; try assumption.
    + rewrite Hst, Hst1, I1. lia.
    + rewrite Hg. econstructor; eassumption.
    + rewrite Hg.
      destruct (step_outcome Math_sin _ _ _ _ _ _ Hstep)
        as [(_ & _ & -> & _)|(_ & [(_ & _ & _ & _ & _ & _ & -> & _)
           |[(_ & _ & -> & _)|(_ & _ & -> & _)]])]; lia.
    + now rewrite He.
    + now rewrite He.
Qed.

Lemma decayEpsilon_ge (e : Q) :
  (epsilonMin * epsilonDecay <= e ->
   epsilonMin * epsilonDecay <= decayEpsilon e)%Q.
Proof.
  intros H. unfold decayEpsilon.
  destruct (Qltb epsilonMin e) eqn:E; [|exact H].
  apply Qltb_lt in E. unfold epsilonMin, epsilonDecay in *.
  apply Qmult_le_compat_r; lra.
Qed.

Lemma newAgent_restoredAgent (r : RNG) :
  newAgent Math_sin r = restoredAgent Math_sin ∅ 1 0 r.
Proof.
  unfold newAgent, restoredAgent.
  destruct (newSnakeGame Math_sin 1 r) as [g r1]. reflexivity.
Qed.

Lemma restoredAgent_fields (t : gmap string QValues) (e : Q) (n : Z)
    (r : RNG) :
  let a := (restoredAgent Math_sin t e n r).1 in
  qTable a = t /\ epsilon a = e /\ totalStepsEver a = n /\
  game a = (newSnakeGame Math_sin 1 r).1.
Proof.
  cbv zeta. unfold restoredAgent.
  destruct (newSnakeGame Math_sin 1 r) as [g r1]. cbn. auto.
Qed.

Lemma restoredAgent_observable (t : gmap string QValues) (e : Q) (n : Z)
    (r : RNG) :
  observable Math_sin (game (restoredAgent Math_sin t e n r).1).
Proof.
  destruct (restoredAgent_fields t e n r) as (_ & _ & _ & ->).
  apply observable_new.
Qed.

Lemma hostRun_trainedFrom (r0 : RNG) (n : N) (a : Agent) (r : RNG) :
  hostRun Math_sin r0 n a r ->
  trainedFrom Math_sin (newAgent Math_sin r0).1 (newAgent Math_sin r0).2 n a r.
Proof.
  induction 1; [apply trained_start|now apply trained_reset|].
  eapply trained_update; eassumption.
Qed.

Lemma trainedFrom_inv (a0 : Agent) (r0 : RNG) (n : N) (a : Agent) (r : RNG) :
  observable Math_sin (game a0) ->
  trainedFrom Math_sin a0 r0 n a r ->
  totalStepsEver a = totalStepsEver a0 + Z.of_N n /\
  observable Math_sin (game a) /\
  (boundedTable a0 -> boundedTable a) /\
  level (state (game a0)) <= level (state (game a))
    <= level (state (game a0)) + Z.of_N n /\
  (epsilon a <= epsilon a0)%Q /\
  (epsilonMin * epsilonDecay <= epsilon a0 ->
   epsilonMin * epsilonDecay <= epsilon a)%Q.
Proof.
  intros Hobs0.
  induction 1 as [|n a r Hrun IH Hover|n a a' r r' Hrun IH Hover Hup].
  - split_and!; try assumption; try lia; try apply Qle_refl; auto.
  - destruct IH as (I1 & I2 & I3 & I4 & I5 & I6). unfold reset.
    pose proof (newSnakeGame_level (level (state (game a))) r) as Hl.
    pose proof (observable_new Math_sin (level (state (game a))) r) as Ho.
    destruct (newSnakeGame Math_sin _ r) as [g r1]. cbn [fst snd] in *.
    cbn [totalStepsEver game epsilon set_totalReward set_game].
    split_and!; try assumption; try lia.
  - destruct IH as (I1 & I2 & I3 & I4 & I5 & I6).
    pose proof (update_decays_once Math_sin a a' r r' Hover Hup) as He.
    destruct (update_inv Math_sin a a' r r' Hover Hup)
      as (s & target & hb & tl & action & a1 & r1 & reward & g' & shaped
          & Hs & Ht & Hsn & Hch & Hstep & Hshape & Hlearn).
    destruct (learn_fields _ _ _ _ _ Hlearn) as (_ & Hg & _ & Hst).
    pose proof (chooseAction_fields s a r) as (_ & _ & _ & Hst1).
    rewrite Hch in Hst1. cbn [fst snd] in Hst1.
    cbn [game totalStepsEver set_game] in Hg, Hst.
    assert (Hlvl : level (state (game a)) <= level (state (game a'))
                   <= level (state (game a)) + 1).
    { rewrite Hg.
      destruct (step_outcome Math_sin _ _ _ _ _ _ Hstep)
        as [(_ & _ & -> & _)|(_ & [(_ & _ & _ & _ & _ & _ & -> & _)
           |[(_ & _ & -> & _)|(_ & _ & -> & _)]])]; lia. }
    split_and!.
    + rewrite Hst, Hst1, I1. lia.
    + rewrite Hg. econstructor; eassumption.
    + intros Hb. exact (update_bounded a a' r r' (I3 Hb) Hup).
    + lia.
    + lia.
    + rewrite He. eapply Qle_trans; [apply decayEpsilon_le|exact I5].
    + intros H0. rewrite He. apply decayEpsilon_ge. exact (I6 H0).
Qed.


(** What the training loop needs of [reset]. *)
Lemma reset_game (a : Agent) (r : RNG) :
  let a' := (reset Math_sin a r).1 in
  epsilon a' = epsilon a /\ totalStepsEver a' = totalStepsEver a /\
  level (state (game a')) = level (state (game a)) /\
  isGameOver (state (game a')) = false /\
  observable Math_sin (game a').
Proof.
  cbv zeta. unfold reset.
  pose proof (observable_new Math_sin (level (state (game a))) r) as Ho.
  destruct (newSnakeGame_state (level (state (game a))) r) as (f & Hst).
  destruct (newSnakeGame Math_sin (level (state (game a))) r) as [g r1].
  cbn [fst snd] in *.
  cbn [epsilon totalStepsEver game set_totalReward set_game].
  rewrite Hst. cbn [level isGameOver set_food getInitialState].
  repeat (split; [reflexivity|]). exact Ho.
Qed.

(** X24.  [reset] starts a new game on the level the agent had reached and
    clears the reward total; the value table, the exploration rate and the
    lifetime step counter are kept.  The new game is not over, has score 0,
    step counter 0, no item, a closed portal and the body on the three
    spawn cells. *)
Theorem reset_spec (a : Agent) (r : RNG) :
  let a' := (reset Math_sin a r).1 in
  qTable a' = qTable a /\ epsilon a' = epsilon a /\
  totalStepsEver a' = totalStepsEver a /\ totalReward a' = 0%Q /\
  level (state (game a')) = level (state (game a)) /\
  isGameOver (state (game a')) = false /\
  score (state (game a')) = 0 /\ steps (state (game a')) = 0 /\
  specialItems (state (game a')) = [] /\
  portalOpen (state (game a')) = false /\
  snake (state (game a')) = initialSnake /\
  walls (state (game a'))
  = getLevelWalls Math_sin (level (state (game a))) /\
  observable Math_sin (game a').
Proof.
  cbv zeta. unfold reset.
  pose proof (observable_new Math_sin (level (state (game a))) r) as Ho.
  destruct (newSnakeGame_state (level (state (game a))) r) as (f & Hst).
  destruct (newSnakeGame Math_sin (level (state (game a))) r) as [g r1].
  cbn [fst snd] in *.
  cbn [qTable epsilon totalStepsEver totalReward game set_totalReward set_game].
  rewrite Hst.
  cbn [level isGameOver score steps specialItems portalOpen snake walls
       set_food getInitialState].
  repeat (split; [reflexivity|]). exact Ho.
Qed.

End BoundFacts.

(** ** The fingerprint and the death test *)

Lemma flag_app (b : bool) (rest : string) :
  flag b +:+ rest = String (if b then "1"%char else "0"%char) rest.
Proof. destruct b; reflexivity. Qed.

Lemma headingOf_length (sn : list Point) : String.length (headingOf sn) = 1%nat.
Proof.
  unfold headingOf. destruct sn as [|hd [|neck tl]]; try reflexivity.
  repeat (match goal with |- context [if ?c then _ else _] => destruct c end;
          try reflexivity).
Qed.

Lemma isBlocking_true_iff (g : SnakeGame) (sn : list Point) (p : Point) :
  isBlocking g sn (p_x p) (p_y p) = true <->
  (~ inBoard p \/ wallAt (wallMap g) (p_x p) (p_y p) = true \/ In p sn).
Proof.
  rewrite isBlocking_cases, !orb_true_iff, negb_true_iff, hitsSnake_true.
  rewrite <- inGrid_inBoard.
  destruct (inGrid p); intuition congruence.
Qed.

(** The text of the fingerprint. *)
Lemma getStateString_text (a : Agent) (s : string) (h : Point)
    (tl : list Point) :
  snake (state (game a)) = h :: tl ->
  getStateString a = Some s ->
  exists cX cY,
    s = String cX (String cY
          (String (if isBlocking (game a) (h :: tl) (p_x h) (p_y h - 1)
                   then "1" else "0")%char
          (String (if isBlocking (game a) (h :: tl) (p_x h) (p_y h + 1)
                   then "1" else "0")%char
          (String (if isBlocking (game a) (h :: tl) (p_x h - 1) (p_y h)
                   then "1" else "0")%char
          (String (if isBlocking (game a) (h :: tl) (p_x h + 1) (p_y h)
                   then "1" else "0")%char
          (String (if isBlocking (game a) (h :: tl) (p_x h) (p_y h - 2)
                   then "1" else "0")%char
          (String (if isBlocking (game a) (h :: tl) (p_x h) (p_y h + 2)
                   then "1" else "0")%char
          (String (if isBlocking (game a) (h :: tl) (p_x h - 2) (p_y h)
                   then "1" else "0")%char
          (String (if isBlocking (game a) (h :: tl) (p_x h + 2) (p_y h)
                   then "1" else "0")%char
          (headingOf (h :: tl))))))))))).
Proof.
  intros Hsn. unfold getStateString. rewrite Hsn.
  destruct (activeTarget (state (game a))) as [target|]; [|discriminate].
  intros [= <-]. rewrite !flag_app.
  destruct (p_x target <? p_x h); [|destruct (p_x h <? p_x target)];
    (destruct (p_y target <? p_y h); [|destruct (p_y h <? p_y target)]);
    eexists _, _; reflexivity.
Qed.

Section FingerprintFacts.

Variable Math_sin : Q -> Q.

(** X23.  The fingerprint has eleven characters.  Its third to sixth
    characters are the one-step flags for UP, DOWN, LEFT and RIGHT, in the
    order of the action indices: a direction flagged "1" always ends the
    game when it is taken (reward -100); a direction flagged "0" ends the
    game only when the step counter has reached 3000 plus fifty times the
    score. *)
Theorem fingerprint_flags (a : Agent) (s : string) (h : Point)
    (tl : list Point) (k : Z) (r : RNG) :
  isGameOver (state (game a)) = false ->
  snake (state (game a)) = h :: tl ->
  getStateString a = Some s ->
  0 <= k < 4 ->
  String.length s = 11%nat /\
  ((String.get (Z.to_nat (2 + k)) s = Some "1"%char /\
    exists g', step Math_sin (directionOfIndex k) (game a) r
               = (Some ((-100)%Q, g'), r)) \/
   (String.get (Z.to_nat (2 + k)) s = Some "0"%char /\
    ((exists g', step Math_sin (directionOfIndex k) (game a) r
                 = (Some ((-100)%Q, g'), r)) <->
     maxSteps + 50 * score (state (game a)) <= steps (state (game a))))).
Proof.
  intros Hover Hsn Hs Hk.
  destruct (getStateString_text a s h tl Hsn Hs) as (cX & cY & ->).
  split; [cbn [String.length]; now rewrite headingOf_length|].
  destruct (tick_fields (state (game a)))
    as (T1 & T2 & T3 & T4 & T5 & T6 & T7 & T8 & T9 & T10 & T11).
  assert (Hflag : forall d x y,
    moveHead d h = mkPoint x y ->
    (isBlocking (game a) (h :: tl) x y = true /\
     exists g', step Math_sin d (game a) r = (Some ((-100)%Q, g'), r)) \/
    (isBlocking (game a) (h :: tl) x y = false /\
     ((exists g', step Math_sin d (game a) r = (Some ((-100)%Q, g'), r)) <->
      maxSteps + 50 * score (state (game a)) <= steps (state (game a))))).
  { intros d x y Hm.
    rewrite (step_kills_iff Math_sin d (game a) r h tl Hover Hsn).
    rewrite isDeadly_true_iff, T1, T5, T9, Hsn, Hm.
    pose proof (isBlocking_true_iff (game a) (h :: tl) (mkPoint x y)) as Hb.
    cbn [p_x p_y] in *.
    destruct (isBlocking (game a) (h :: tl) x y).
    - left. split; [reflexivity|]. destruct Hb as [Hb _].
      destruct (Hb eq_refl) as [H|[H|H]]; tauto.
    - right. split; [reflexivity|]. split.
      + intros [H|[H|[H|H]]]; [| | |lia];
          exfalso; assert (false = true) by (apply Hb; tauto); discriminate.
      + intros H. right. right. right. lia. }
  assert (Hc : k = 0 \/ k = 1 \/ k = 2 \/ k = 3) by lia.
  destruct Hc as [->|[->|[->| ->]]]; cbn [Z.add Z.to_nat Pos.to_nat
    Pos.iter_op Nat.add String.get directionOfIndex Z.eqb Pos.eqb].
  - destruct (Hflag UP (p_x h) (p_y h - 1) eq_refl) as [[-> H]|[-> H]];
      [left|right]; (split; [reflexivity|exact H]).
  - destruct (Hflag DOWN (p_x h) (p_y h + 1) eq_refl) as [[-> H]|[-> H]];
      [left|right]; (split; [reflexivity|exact H]).
  - destruct (Hflag LEFT (p_x h - 1) (p_y h) eq_refl) as [[-> H]|[-> H]];
      [left|right]; (split; [reflexivity|exact H]).
  - destruct (Hflag RIGHT (p_x h + 1) (p_y h) eq_refl) as [[-> H]|[-> H]];
      [left|right]; (split; [reflexivity|exact H]).
Qed.

End FingerprintFacts.

(** ** The training loop *)

Lemma pushCapped_length {A : Type} (x : A) (h : list A) :
  length (pushCapped x h)
  = (if 500 <=? Z.of_nat (length h) then length h else S (length h)).
Proof.
  unfold pushCapped. cbv zeta. rewrite length_app. cbn [length].
  destruct (500 <? Z.of_nat (length h + 1)) eqn:E.
  - apply Z.ltb_lt in E.
    replace (500 <=? Z.of_nat (length h)) with true
      by (symmetry; apply Z.leb_le; lia).
    destruct h as [|y h]; cbn [app tail length] in *; [lia|].
    rewrite length_app. cbn. lia.
  - apply Z.ltb_ge in E.
    replace (500 <=? Z.of_nat (length h)) with false
      by (symmetry; apply Z.leb_gt; lia).
    rewrite length_app. cbn. lia.
Qed.

Lemma pushCapped_last {A : Type} (x : A) (h : list A) :
  exists front, pushCapped x h = front ++ [x] /\
                (length h < 500 -> front = h)%nat /\
                (500 <= length h -> front = tail h)%nat.
Proof.
  unfold pushCapped. cbv zeta. rewrite length_app. cbn [length].
  destruct (500 <? Z.of_nat (length h + 1)) eqn:E.
  - apply Z.ltb_lt in E. destruct h as [|y h]; [cbn [length] in E; lia|].
    exists h. cbn [length] in *. split; [reflexivity|].
    split; [lia|reflexivity].
  - apply Z.ltb_ge in E. exists h. split; [reflexivity|].
    split; [reflexivity|lia].
Qed.

(** X26.  The bookkeeping of a finished episode appends the score to the
    score history and drops the oldest entry once there are more than 500,
    so that a history of at most 500 entries stays within 500; the
    exploration rate is recorded only when the new length of the score
    history is a multiple of 8, hence never again once the score history
    holds 500 entries. *)
Theorem recordEpisode_histories (t : Host) :
  (length (localScoreHistory t) <= 500)%nat ->
  (length (localEpsilonHistory t) <= 500)%nat ->
  let t' := recordEpisode t in
  (length (localScoreHistory t') <= 500)%nat /\
  (length (localEpsilonHistory t') <= 500)%nat /\
  (exists front,
     localScoreHistory t' = front ++ [score (state (game (qAgent t)))] /\
     ((length (localScoreHistory t) < 500)%nat ->
      front = localScoreHistory t) /\
     (length (localScoreHistory t) = 500%nat ->
      front = tail (localScoreHistory t))) /\
  (length (localScoreHistory t) = 500%nat ->
   localEpsilonHistory t' = localEpsilonHistory t) /\
  (Z.rem (Z.of_nat (length (localScoreHistory t'))) 8 <> 0 ->
   localEpsilonHistory t' = localEpsilonHistory t) /\
  batchEpisodes t' = batchEpisodes t + 1 /\
  qAgent t' = qAgent t /\ levelClears t' = levelClears t.
Proof.
  intros Hs He. cbv zeta. unfold recordEpisode.
  cbn [localScoreHistory localEpsilonHistory batchEpisodes qAgent levelClears].
  pose proof (pushCapped_length (score (state (game (qAgent t))))
                (localScoreHistory t)) as Hl.
  destruct (pushCapped_last (score (state (game (qAgent t))))
              (localScoreHistory t)) as (front & Hf & Hf1 & Hf2).
  split_and!; try reflexivity.
  - rewrite Hl.
    destruct (500 <=? Z.of_nat (length (localScoreHistory t))) eqn:E;
      [exact Hs|]. apply Z.leb_gt in E. lia.
  - destruct (Z.rem _ 8 =? 0); [|exact He].
    rewrite pushCapped_length.
    destruct (500 <=? Z.of_nat (length (localEpsilonHistory t))) eqn:E;
      [exact He|]. apply Z.leb_gt in E. lia.
  - exists front. split; [exact Hf|]. split; [exact Hf1|].
    intros H. apply Hf2. lia.
  - intros H. rewrite Hl, H. reflexivity.
  - intros H. destruct (Z.rem _ 8 =? 0) eqn:E; [|reflexivity].
    apply Z.eqb_eq in E. contradiction.
Qed.

Section HostFacts.

Variable Math_sin : Q -> Q.

Lemma gameInv_wellFormed (g : SnakeGame) : gameInv g -> wellFormed g.
Proof.
  intros (_ & (Hlen & _) & _ & (_ & Hpp) & _). split.
  - destruct (snake (state g)); [cbn in Hlen; lia|discriminate].
  - intros Ho. destruct (portalPoint (state g)); [discriminate|congruence].
Qed.

(** A decision on a game a host can observe that is not over. *)
Lemma update_decides (a : Agent) (r : RNG) :
  observable Math_sin (game a) ->
  isGameOver (state (game a)) = false ->
  exists a' r',
    update Math_sin a r = (Some a', r') /\
    totalStepsEver a' = totalStepsEver a + 1 /\
    epsilon a' = decayEpsilon (epsilon a) /\
    observable Math_sin (game a') /\
    level (state (game a)) <= level (state (game a'))
      <= level (state (game a)) + 1.
Proof.
  intros Hobs Hover.
  pose proof (gameInv_wellFormed _ (observable_gameInv Math_sin _ Hobs)) as Hwf.
  destruct (update_progress Math_sin a r Hwf) as (a' & Hup & _).
  destruct (update Math_sin a r) as [o r'] eqn:E. cbn [fst] in Hup. subst o.
  exists a', r'. split; [reflexivity|].
  pose proof (update_decays_once Math_sin a a' r r' Hover E) as He.
  destruct (update_inv Math_sin a a' r r' Hover E)
    as (s & target & hb & tl & action & a1 & r1 & reward & g' & shaped
        & Hs & Ht & Hsn & Hch & Hstep & Hshape & Hlearn).
  destruct (learn_fields _ _ _ _ _ Hlearn) as (_ & Hg & _ & Hst).
  pose proof (chooseAction_fields s a r) as (_ & _ & _ & Hst1).
  rewrite Hch in Hst1. cbn [fst snd] in Hst1.
  cbn [game totalStepsEver set_game] in Hg, Hst.
  split_and!; try assumption.
  - rewrite Hst, Hst1. reflexivity.
  - rewrite Hg. econstructor; eassumption.
  - rewrite Hg.
    destruct (step_outcome Math_sin _ _ _ _ _ _ Hstep)
      as [(_ & _ & -> & _)|(_ & [(_ & _ & _ & _ & _ & _ & -> & _)
         |[(_ & _ & -> & _)|(_ & _ & -> & _)]])]; lia.
  - rewrite Hg.
    destruct (step_outcome Math_sin _ _ _ _ _ _ Hstep)
      as [(_ & _ & -> & _)|(_ & [(_ & _ & _ & _ & _ & _ & -> & _)
         |[(_ & _ & -> & _)|(_ & _ & -> & _)]])]; lia.
Qed.

(** A round of the loop returns normally. *)
Lemma iteration_returns (t : Host) (r : RNG) :
  observable Math_sin (game (qAgent t)) ->
  exists t' r', iteration Math_sin t r = (Some t', r').
Proof.
  intros Hobs. unfold iteration.
  destruct (isGameOver (state (game (qAgent t)))) eqn:Hover.
  - pose proof (reset_game Math_sin (qAgent t) r) as HR. cbv zeta in HR.
    destruct HR as (_ & _ & _ & R6 & R13).
    unfold recordEpisode at 1. cbn [qAgent].
    destruct (reset Math_sin (qAgent t) r) as [a0 r0]. cbn [fst snd] in *.
    cbn [qAgent].
    destruct (update_decides a0 r0 R13 R6) as (a' & r' & Hup & _).
    rewrite Hup. eexists _, r'. reflexivity.
  - destruct (update_decides (qAgent t) r Hobs Hover) as (a' & r' & Hup & _).
    rewrite Hup. eexists _, r'. reflexivity.
Qed.

(** X25.  Every round of the training loop makes exactly one decision,
    also when it starts on a finished game: it returns normally, the
    lifetime step counter grows by 1 and the exploration rate takes one
    decay step; a finished game is first recorded (one more episode) and
    replaced by a new game on the same level; the count of cleared levels
    grows by one exactly when the decision raised the level, which it does
    by one at most. *)
Theorem iteration_decides (t : Host) (r : RNG) :
  observable Math_sin (game (qAgent t)) ->
  exists t' r',
    iteration Math_sin t r = (Some t', r') /\
    totalStepsEver (qAgent t') = totalStepsEver (qAgent t) + 1 /\
    epsilon (qAgent t') = decayEpsilon (epsilon (qAgent t)) /\
    observable Math_sin (game (qAgent t')) /\
    batchEpisodes t'
    = batchEpisodes t
      + (if isGameOver (state (game (qAgent t))) then 1 else 0) /\
    level (state (game (qAgent t))) <= level (state (game (qAgent t')))
      <= level (state (game (qAgent t))) + 1 /\
    levelClears t'
    = levelClears t
      + (level (state (game (qAgent t'))) - level (state (game (qAgent t)))) /\
    (isGameOver (state (game (qAgent t))) = false ->
     localScoreHistory t' = localScoreHistory t /\
     localEpsilonHistory t' = localEpsilonHistory t) /\
    (isGameOver (state (game (qAgent t))) = true ->
     localScoreHistory t' = localScoreHistory (recordEpisode t) /\
     localEpsilonHistory t' = localEpsilonHistory (recordEpisode t)).
Proof.
  intros Hobs. unfold iteration.
  destruct (isGameOver (state (game (qAgent t)))) eqn:Hover.
  - pose proof (reset_game Math_sin (qAgent t) r) as HR. cbv zeta in HR.
    destruct HR as (R2 & R3 & R5 & R6 & R13).
    unfold recordEpisode at 1. cbn [qAgent].
    destruct (reset Math_sin (qAgent t) r) as [a0 r0]. cbn [fst snd] in *.
    cbn [qAgent].
    destruct (update_decides a0 r0 R13 R6) as (a' & r' & Hup & U1 & U2 & U3 & U4).
    rewrite Hup. eexists _, r'. split; [reflexivity|].
    cbn [qAgent batchEpisodes levelClears localScoreHistory localEpsilonHistory
         recordEpisode].
    rewrite R5 in U4. rewrite U1, U2, R2, R3, R5.
    split_and!; try assumption; try reflexivity; try lia.
    + destruct (_ <? _) eqn:E; [apply Z.ltb_lt in E|apply Z.ltb_ge in E]; lia.
    + intros _. split; reflexivity.
  - destruct (update_decides (qAgent t) r Hobs Hover)
      as (a' & r' & Hup & U1 & U2 & U3 & U4).
    rewrite Hup. eexists _, r'. split; [reflexivity|].
    cbn [qAgent batchEpisodes levelClears localScoreHistory localEpsilonHistory].
    split_and!; try assumption; try reflexivity; try lia.
    + destruct (_ <? _) eqn:E; [apply Z.ltb_lt in E|apply Z.ltb_ge in E]; lia.
    + intros _. split; reflexivity.
Qed.

Lemma iteration_trainedFrom (a0 : Agent) (r0 : RNG) (n : N) (t t' : Host)
    (r r' : RNG) :
  trainedFrom Math_sin a0 r0 n (qAgent t) r ->
  iteration Math_sin t r = (Some t', r') ->
  trainedFrom Math_sin a0 r0 (N.succ n) (qAgent t') r'.
Proof.
  intros Hrun. unfold iteration.
  destruct (isGameOver (state (game (qAgent t)))) eqn:Hover.
  - pose proof (trained_reset Math_sin a0 r0 n (qAgent t) r Hrun Hover)
      as Hrun'.
    pose proof (reset_game Math_sin (qAgent t) r) as HR. cbv zeta in HR.
    destruct HR as (_ & _ & _ & R6 & _).
    unfold recordEpisode at 1. cbn [qAgent].
    destruct (reset Math_sin (qAgent t) r) as [a1 r1]. cbn [fst snd] in *.
    cbn [qAgent].
    destruct (update Math_sin a1 r1) as [[a'|] r2] eqn:E; [|discriminate].
    intros [= <- <-]. cbn [qAgent].
    eapply trained_update; eassumption.
  - destruct (update Math_sin (qAgent t) r) as [[a'|] r2] eqn:E; [|discriminate].
    intros [= <- <-]. cbn [qAgent].
    eapply trained_update; eassumption.
Qed.


End HostFacts.

(** ** Saving and restoring *)

Lemma digitOf_pretty_N_char (d : N) :
  (d < 10)%N -> Persist.digitOf (pretty_N_char d) = Some (Z.of_N d).
Proof.
  intros Hd.
  assert (H : (d = 0 \/ d = 1 \/ d = 2 \/ d = 3 \/ d = 4 \/ d = 5 \/ d = 6 \/
               d = 7 \/ d = 8 \/ d = 9)%N) by lia.
  destruct H as [->|[->|[->|[->|[->|[->|[->|[->|[->| ->]]]]]]]]]; reflexivity.
Qed.

Lemma plain_pretty_N_char (d : N) :
  (d < 10)%N ->
  Persist.isWhiteSpace (pretty_N_char d) = false /\
  forall s, Persist.readSign (String (pretty_N_char d) s)
            = (false, String (pretty_N_char d) s).
Proof.
  intros Hd.
  assert (H : (d = 0 \/ d = 1 \/ d = 2 \/ d = 3 \/ d = 4 \/ d = 5 \/ d = 6 \/
               d = 7 \/ d = 8 \/ d = 9)%N) by lia.
  destruct H as [->|[->|[->|[->|[->|[->|[->|[->|[->| ->]]]]]]]]];
    split; reflexivity.
Qed.

(** Reading the digits [pretty_N_go] writes. *)
Lemma readDigits_pretty_N_go (x : N) :
  exists k : nat,
    ((0 < x)%N -> (1 <= k)%nat) /\
    forall s acc m,
      Persist.readDigits (pretty_N_go x s) acc m
      = Persist.readDigits s (acc * 10 ^ Z.of_nat k + Z.of_N x) (m + k)%nat.
Proof.
  induction (N.lt_wf_0 x) as [x _ IH].
  destruct (decide (x = 0%N)) as [->|Hx].
  - exists O. split; [lia|]. intros s acc m. rewrite pretty_N_go_0.
    f_equal; [cbn; lia|lia].
  - assert (Hpos : (0 < x)%N) by lia.
    destruct (IH (x `div` 10)%N ltac:(now apply N.div_lt)) as (k & _ & Hk).
    exists (S k). split; [lia|]. intros s acc m.
    rewrite (pretty_N_go_step x s Hpos), Hk.
    cbn [Persist.readDigits].
    rewrite (digitOf_pretty_N_char (x `mod` 10)) by (apply N.mod_lt; lia).
    f_equal; [|lia].
    rewrite Nat2Z.inj_succ, Z.pow_succ_r by lia.
    rewrite (N.div_mod x 10) at 3 by lia.
    rewrite N2Z.inj_add, N2Z.inj_mul. cbn [Z.of_N]. ring.
Qed.

Lemma pretty_N_go_first (x : N) (s : string) :
  (0 < x)%N ->
  exists d rest, (d < 10)%N /\ pretty_N_go x s = String (pretty_N_char d) rest.
Proof.
  revert s. induction (N.lt_wf_0 x) as [x _ IH]. intros s Hpos.
  rewrite (pretty_N_go_step x s Hpos).
  destruct (decide (x `div` 10 = 0)%N) as [E|E].
  - rewrite E, pretty_N_go_0. exists (x `mod` 10)%N, s.
    split; [apply N.mod_lt; lia|reflexivity].
  - apply IH; [now apply N.div_lt|now apply N.neq_0_lt_0].
Qed.

Lemma parseInt10_pretty (n : Z) :
  0 <= n -> Persist.parseInt10 (pretty n) = Persist.Finite (inject_Z n).
Proof.
  intros Hn. destruct n as [|p|p]; [reflexivity| |lia].
  change (pretty (Z.pos p)) with (pretty (N.pos p)).
  unfold pretty, pretty_N. destruct (decide (N.pos p = 0%N)); [discriminate|].
  destruct (pretty_N_go_first (N.pos p) "" ltac:(lia)) as (d & rest & Hd & Hs).
  destruct (plain_pretty_N_char d Hd) as [Hw Hsign].
  destruct (readDigits_pretty_N_go (N.pos p)) as (k & Hk & Hread).
  specialize (Hk ltac:(lia)).
  unfold Persist.parseInt10.
  assert (Htrim : Persist.trimStart (pretty_N_go (N.pos p) "")
                  = pretty_N_go (N.pos p) "").
  { rewrite Hs. cbn [Persist.trimStart]. now rewrite Hw. }
  rewrite Htrim. rewrite Hs, Hsign, <- Hs. rewrite Hread.
  cbn [Persist.readDigits Nat.add].
  destruct k as [|k]; [lia|]. cbn [Nat.eqb Persist.signed].
  f_equal.
Qed.

Section SaveFacts.

Variable JSON_stringify : gmap string QValues -> string.
Variable Number_toString : Q -> string.
Variable JSON_parse : string -> option Persist.JSON.

(** X28.  [loadFromStorage] lets no exception escape, whatever the store
    holds and whatever [JSON.parse] does.  A key that is absent, or whose
    text is empty, leaves its field as it was.  The only message it can log
    is the one of a table text that could not be turned into a table, and
    then the table is left as it was. *)
Theorem loadFromStorage_edges (store : gmap string string)
    (a : Persist.Restored) :
  exists a',
    Persist.loadFromStorage JSON_parse store a = Some a' /\
    (Persist.truthy (store !! "qs_v6_qtable") = None ->
     Persist.r_qTable a' = Persist.r_qTable a /\
     Persist.console a' = Persist.console a) /\
    (Persist.truthy (store !! "qs_v6_epsilon") = None ->
     Persist.r_epsilon a' = Persist.r_epsilon a) /\
    (Persist.truthy (store !! "qs_v6_steps") = None ->
     Persist.r_totalStepsEver a' = Persist.r_totalStepsEver a) /\
    (Persist.console a' = Persist.console a \/
     (Persist.console a' = Persist.console a ++ ["Failed to load QTable"] /\
      Persist.r_qTable a' = Persist.r_qTable a)).
Proof.
  unfold Persist.loadFromStorage.
  destruct (Persist.truthy (store !! "qs_v6_qtable")) as [t|];
    cbn [mbind option_bind].
  - unfold Persist.tryCatch.
    destruct (JSON_parse t) as [obj|]; cbn [mbind option_bind].
    + destruct (Persist.Object_entries obj) as [es|]; cbn [mbind option_bind];
        eexists; (split; [reflexivity|]);
        destruct (Persist.truthy (store !! "qs_v6_epsilon"));
        destruct (Persist.truthy (store !! "qs_v6_steps"));
        cbn; split_and!; try discriminate; auto.
    + eexists; (split; [reflexivity|]);
        destruct (Persist.truthy (store !! "qs_v6_epsilon"));
        destruct (Persist.truthy (store !! "qs_v6_steps"));
        cbn; split_and!; try discriminate; auto.
  - eexists; (split; [reflexivity|]);
      destruct (Persist.truthy (store !! "qs_v6_epsilon"));
      destruct (Persist.truthy (store !! "qs_v6_steps"));
      cbn; split_and!; try discriminate; auto.
Qed.

(** X29.  The lifetime step count survives saving and restoring: after
    [saveToStorage] on an agent whose count is a non-negative integer below
    [2^53], [loadFromStorage] returns normally and sets the count to that
    integer, whatever the rest of the store, the platform's number and JSON
    formatting, and the fields before. *)
Theorem save_load_steps (a : Agent) (store : gmap string string)
    (init : Persist.Restored) :
  0 <= totalStepsEver a < 2 ^ 53 ->
  exists res,
    Persist.loadFromStorage JSON_parse
      (saveToStorage JSON_stringify Number_toString a store) init
    = Some res /\
    Persist.r_totalStepsEver res
    = Persist.Finite (inject_Z (totalStepsEver a)).
Proof.
  intros [Hn _].
  assert (Hlook : saveToStorage JSON_stringify Number_toString a store
                  !! "qs_v6_steps" = Some (pretty (totalStepsEver a))).
  { unfold saveToStorage. cbv zeta. apply lookup_insert_eq. }
  assert (Htruthy : Persist.truthy (Some (pretty (totalStepsEver a)))
                    = Some (pretty (totalStepsEver a))).
  { destruct (pretty (totalStepsEver a)) eqn:E; [|reflexivity].
    pose proof (parseInt10_pretty _ Hn) as H. rewrite E in H. discriminate. }
  unfold Persist.loadFromStorage. rewrite Hlook, Htruthy.
  rewrite (parseInt10_pretty _ Hn).
  destruct (Persist.truthy (_ !! "qs_v6_qtable")) as [t|];
    cbn [mbind option_bind].
  - unfold Persist.tryCatch.
    destruct (JSON_parse t) as [obj|]; cbn [mbind option_bind];
      [destruct (Persist.Object_entries obj) as [es|]; cbn [mbind option_bind]|];
      eexists; split; reflexivity.
  - eexists; split; reflexivity.
Qed.

End SaveFacts.

(** ** Instances *)

Lemma goldOnGoal_observable : observable sineUnused goldOnGoal.
Proof.
  exact (reachable_observable sineUnused _ _ goldOnGoal_reachable).
Qed.

Lemma scissorsAhead_observable : observable sineUnused scissorsAhead.
Proof.
  exact (reachable_observable sineUnused _ _ scissorsAhead_reachable).
Qed.

Lemma ringGame_observable : observable sineUnused ringGame.
Proof. exact (observable_new sineUnused 2 sixths). Qed.

Lemma freshAgent_observable : observable sineUnused (game freshAgent).
Proof.
  destruct (hostRun_inv sineUnused sixths 0 _ _ (host_new sineUnused sixths))
    as (_ & H & _).
  exact H.
Qed.

Lemma goldOnGoal_vision :
  getVisionExtended goldOnGoal
  = Some (map (ray 30 goldOnGoal (mkPoint 5 6)) rayDirs).
Proof. reflexivity. Qed.

Lemma goldOnGoalUp_ray :
  In goldOnGoalUp (map (ray 30 goldOnGoal (mkPoint 5 6)) rayDirs).
Proof. left. vm_compute. reflexivity. Qed.

Lemma goldOnGoalDown_ray :
  In goldOnGoalDown (map (ray 30 goldOnGoal (mkPoint 5 6)) rayDirs).
Proof. right. left. vm_compute. reflexivity. Qed.

Lemma shapingAgent_bounded : boundedTable shapingAgent.
Proof.
  intros k q Hk. exfalso. revert Hk. vm_compute. discriminate.
Qed.

Lemma portalOpened_run :
  afterRun sineUnused 1 (mkRNG portalTape 0) (repeat UP 10)
  = Some (portalOpened, portalOpenedRNG).
Proof. vm_compute. reflexivity. Qed.

Lemma portalOpened_observable : observable sineUnused portalOpened.
Proof.
  exact (reachable_observable sineUnused _ _
           (reachable_afterRun _ _ _ _ _ _ portalOpened_run)).
Qed.

Lemma restoredStart_observable : observable sineUnused (game restoredStart).
Proof. apply restoredAgent_observable. Qed.

Lemma restoredStart_update :
  update sineUnused restoredStart restoredStartRNG
  = (Some restoredAfter, restoredAfterRNG).
Proof. vm_compute. reflexivity. Qed.

Lemma restoredStart_trained :
  trainedFrom sineUnused restoredStart restoredStartRNG 1 restoredAfter
    restoredAfterRNG.
Proof.
  apply (trained_update sineUnused restoredStart restoredStartRNG 0
           restoredStart restoredAfter restoredStartRNG restoredAfterRNG).
  - apply trained_start.
  - vm_compute. reflexivity.
  - exact restoredStart_update.
Qed.

Lemma restoredStart_values (k : string) (q : QValues) (d : Direction) :
  qTable restoredStart !! k = Some q -> (-5016 <= qGet q d <= 5016)%Q.
Proof.
  destruct (restoredAgent_fields sineUnused
              (<["CU01000100U" := mkQValues 1 2 3 4]> ∅) 0.5 1000
              (mkRNG shapingTape 0)) as (Ht & _).
  unfold restoredStart. rewrite Ht. intros Hk.
  apply lookup_insert_Some in Hk as [[_ <-]|[_ Hk]];
    [|now rewrite lookup_empty in Hk].
  destruct d; cbn; lra.
Qed.

(** An instance: the cell (10, 10) of the ring of level 2. *)
Lemma isPointWall_observable_witness :
  observable sineUnused ringGame /\
  (isPointWall ringGame 10 10 = true <->
   ~ inBoard (mkPoint 10 10) \/ In (mkPoint 10 10) (walls (state ringGame))).
Proof.
  split; [exact ringGame_observable|].
  exact (isPointWall_observable sineUnused ringGame 10 10 ringGame_observable).
Defined.

(** An instance: the body of five of [scissorsAhead]. *)
Lemma observable_body_witness :
  observable sineUnused scissorsAhead /\
  (3 <= length (snake (state scissorsAhead)))%nat /\
  NoDup (snake (state scissorsAhead)) /\
  connected (snake (state scissorsAhead)) /\
  forall p, In p (snake (state scissorsAhead)) ->
            inBoard p /\ ~ In p (walls (state scissorsAhead)).
Proof.
  split; [exact scissorsAhead_observable|].
  exact (observable_body sineUnused scissorsAhead scissorsAhead_observable).
Defined.

(** An instance: the one item of [goldOnGoal]. *)
Lemma observable_items_witness :
  observable sineUnused goldOnGoal /\
  (length (specialItems (state goldOnGoal)) <= 3)%nat /\
  forall it, In it (specialItems (state goldOnGoal)) ->
    inBoard (point it) /\ type it <> FOOD /\
    steps (state goldOnGoal) <= expires it <= steps (state goldOnGoal) + 150 /\
    (isGameOver (state goldOnGoal) = false ->
     steps (state goldOnGoal) < expires it).
Proof.
  split; [exact goldOnGoal_observable|].
  exact (observable_items sineUnused goldOnGoal goldOnGoal_observable).
Defined.

(** An instance: [portalOpened], whose tenth goal has opened the portal on
    (27, 27). *)
Lemma observable_portal_witness :
  observable sineUnused portalOpened /\
  portalOpen (state portalOpened) = true /\
  itemsCollectedInLevel (state portalOpened) = 10 /\
  portalPoint (state portalOpened) = Some (mkPoint 27 27) /\
  (portalOpen (state portalOpened) = true <->
   LEVEL_GOAL <= itemsCollectedInLevel (state portalOpened)) /\
  (portalOpen (state portalOpened) = true <->
   exists pp, portalPoint (state portalOpened) = Some pp) /\
  forall pp, portalPoint (state portalOpened) = Some pp ->
    inBoard pp /\ (pp = mkPoint 0 0 \/ ~ In pp (walls (state portalOpened))).
Proof.
  split; [exact portalOpened_observable|]. split; [reflexivity|].
  split; [reflexivity|]. split; [reflexivity|].
  exact (observable_portal sineUnused portalOpened portalOpened_observable).
Defined.

(** An instance: the goal of a new game on level 2. *)
Lemma observable_goal_witness :
  observable sineUnused ringGame /\
  inBoard (food (state ringGame)) /\
  (food (state ringGame) = mkPoint 0 0 \/
   (~ In (food (state ringGame)) (walls (state ringGame)) /\
    ~ In (food (state ringGame)) (snake (state ringGame)))).
Proof.
  split; [exact ringGame_observable|].
  exact (observable_goal sineUnused ringGame ringGame_observable).
Defined.

(** An instance: [scissorsAhead], two goals eaten. *)
Lemma observable_counters_witness :
  observable sineUnused scissorsAhead /\
  0 <= itemsCollectedInLevel (state scissorsAhead)
    <= score (state scissorsAhead) /\
  0 <= slowEffectSteps (state scissorsAhead) <= 20 /\
  0 <= steps (state scissorsAhead)
    <= maxSteps + 50 * score (state scissorsAhead)
       + (if isGameOver (state scissorsAhead) then 1 else 0) /\
  walls (state scissorsAhead)
  = getLevelWalls sineUnused (level (state scissorsAhead)).
Proof.
  split; [exact scissorsAhead_observable|].
  exact (observable_counters sineUnused scissorsAhead scissorsAhead_observable).
Defined.

(** An instance: [goldOnGoal], stepping [DOWN] into the body. *)
Lemma step_returns_witness :
  observable sineUnused goldOnGoal /\
  exists rw g' r',
    step sineUnused DOWN goldOnGoal goldOnGoalRNG = (Some (rw, g'), r') /\
    observable sineUnused g'.
Proof.
  split; [exact goldOnGoal_observable|].
  exact (step_returns sineUnused goldOnGoal DOWN goldOnGoalRNG
           goldOnGoal_observable).
Defined.

(** An instance: [goldOnGoal], stepping [UP] onto item and goal. *)
Lemma step_reward_witness :
  step sineUnused UP goldOnGoal goldOnGoalRNG
  = (Some (30%Q, goldEaten), goldEatenRNG) /\
  isGameOver (state goldOnGoal) = false /\
  In 30%Q [(-0.05)%Q; 15%Q; 40%Q; 60%Q; 30%Q] /\
  isGameOver (state goldEaten) = false /\
  level (state goldEaten) = level (state goldOnGoal) /\
  walls (state goldEaten) = walls (state goldOnGoal) /\
  steps (state goldEaten) = steps (state goldOnGoal) + 1 /\
  score (state goldOnGoal) <= score (state goldEaten).
Proof.
  split; [exact goldEaten_step|].
  destruct (step_reward sineUnused UP goldOnGoal goldEaten goldOnGoalRNG
              goldEatenRNG 30 goldEaten_step)
    as [(H & _)|(Hover & [(H & _)|[(H & _)|H]])];
    [discriminate H| |discriminate H|exact (conj Hover H)].
  exfalso. discriminate H.
Defined.

(** An instance: [goldOnGoal], stepping [DOWN] into the body. *)
Lemma step_death_iff_witness :
  observable sineUnused goldOnGoal /\
  isGameOver (state goldOnGoal) = false /\
  snake (state goldOnGoal) = [mkPoint 5 6; mkPoint 5 7; mkPoint 5 8] /\
  ((exists g', step sineUnused DOWN goldOnGoal goldOnGoalRNG
               = (Some ((-100)%Q, g'), goldOnGoalRNG)) <->
   (~ inBoard (moveHead DOWN (mkPoint 5 6)) \/
    In (moveHead DOWN (mkPoint 5 6)) (walls (state goldOnGoal)) \/
    In (moveHead DOWN (mkPoint 5 6)) [mkPoint 5 6; mkPoint 5 7; mkPoint 5 8] \/
    maxSteps + 50 * score (state goldOnGoal) <= steps (state goldOnGoal))).
Proof.
  split; [exact goldOnGoal_observable|]. split; [reflexivity|].
  split; [reflexivity|].
  exact (step_death_iff sineUnused DOWN goldOnGoal goldOnGoalRNG (mkPoint 5 6)
           [mkPoint 5 7; mkPoint 5 8] goldOnGoal_observable eq_refl eq_refl).
Defined.

(** An instance: [goldOnGoal], stepping [LEFT]. *)
Lemma step_plain_move_witness :
  isGameOver (state goldOnGoal) = false /\
  snake (state goldOnGoal) = [mkPoint 5 6; mkPoint 5 7; mkPoint 5 8] /\
  isDeadly goldOnGoal (tick (state goldOnGoal)) (moveHead LEFT (mkPoint 5 6))
  = false /\
  entersPortal (tick (state goldOnGoal)) (moveHead LEFT (mkPoint 5 6))
  = false /\
  moveHead LEFT (mkPoint 5 6) <> food (state goldOnGoal) /\
  hitsItems (specialItems (state goldOnGoal)) (moveHead LEFT (mkPoint 5 6))
  = false /\
  exists g' r',
    step sineUnused LEFT goldOnGoal goldOnGoalRNG
    = (Some ((-0.05)%Q, g'), r') /\
    snake (state g') = [mkPoint 4 6; mkPoint 5 6; mkPoint 5 7] /\
    food (state g') = food (state goldOnGoal) /\
    score (state g') = score (state goldOnGoal).
Proof.
  assert (Hfood : moveHead LEFT (mkPoint 5 6) <> food (state goldOnGoal))
    by discriminate.
  split; [reflexivity|]. split; [reflexivity|]. split; [reflexivity|].
  split; [reflexivity|]. split; [exact Hfood|]. split; [reflexivity|].
  destruct (step_plain_move sineUnused LEFT goldOnGoal goldOnGoalRNG
              (mkPoint 5 6) [mkPoint 5 7; mkPoint 5 8]
              eq_refl eq_refl eq_refl eq_refl Hfood eq_refl)
    as (g' & r' & H1 & H2 & _ & H4 & H5 & _).
  exists g', r'. split; [exact H1|]. split; [exact H2|].
  split; [exact H4|exact H5].
Defined.

(** An instance: the ray of [goldOnGoal] that looks [DOWN]. *)
Lemma ray_distance_witness :
  snake (state goldOnGoal) = [mkPoint 5 6; mkPoint 5 7; mkPoint 5 8] /\
  getVisionExtended goldOnGoal
  = Some (map (ray 30 goldOnGoal (mkPoint 5 6)) rayDirs) /\
  In goldOnGoalDown (map (ray 30 goldOnGoal (mkPoint 5 6)) rayDirs) /\
  1 <= dist goldOnGoalDown /\
  isBlocking goldOnGoal [mkPoint 5 6; mkPoint 5 7; mkPoint 5 8]
    (p_x (rayCell (mkPoint 5 6) (direction goldOnGoalDown)
            (dist goldOnGoalDown)))
    (p_y (rayCell (mkPoint 5 6) (direction goldOnGoalDown)
            (dist goldOnGoalDown))) = true /\
  wallFound goldOnGoalDown = negb (bodyFound goldOnGoalDown).
Proof.
  split; [reflexivity|]. split; [exact goldOnGoal_vision|].
  split; [exact goldOnGoalDown_ray|].
  destruct (ray_distance goldOnGoal (mkPoint 5 6) [mkPoint 5 7; mkPoint 5 8]
              _ goldOnGoalDown eq_refl goldOnGoal_vision goldOnGoalDown_ray)
    as (H1 & H2 & _ & H4 & _).
  split; [exact H1|]. split; [exact H2|exact H4].
Defined.

(** An instance: the ray of [goldOnGoal] that looks [UP]. *)
Lemma ray_foodFound_witness :
  snake (state goldOnGoal) = [mkPoint 5 6; mkPoint 5 7; mkPoint 5 8] /\
  getVisionExtended goldOnGoal
  = Some (map (ray 30 goldOnGoal (mkPoint 5 6)) rayDirs) /\
  In goldOnGoalUp (map (ray 30 goldOnGoal (mkPoint 5 6)) rayDirs) /\
  (foodFound goldOnGoalUp = true <->
   exists k, 1 <= k <= dist goldOnGoalUp /\
             inBoard (rayCell (mkPoint 5 6) (direction goldOnGoalUp) k) /\
             rayCell (mkPoint 5 6) (direction goldOnGoalUp) k
             = visionTarget (state goldOnGoal)).
Proof.
  split; [reflexivity|]. split; [exact goldOnGoal_vision|].
  split; [exact goldOnGoalUp_ray|].
  exact (ray_foodFound goldOnGoal (mkPoint 5 6) [mkPoint 5 7; mkPoint 5 8]
           _ goldOnGoalUp eq_refl goldOnGoal_vision goldOnGoalUp_ray).
Defined.

(** An instance: the ray of [goldOnGoal] that looks [UP] ends off
    the board, and its [point] is the last cell before the edge. *)
Lemma ray_point_witness :
  snake (state goldOnGoal) = [mkPoint 5 6; mkPoint 5 7; mkPoint 5 8] /\
  getVisionExtended goldOnGoal
  = Some (map (ray 30 goldOnGoal (mkPoint 5 6)) rayDirs) /\
  In goldOnGoalUp (map (ray 30 goldOnGoal (mkPoint 5 6)) rayDirs) /\
  (~ inBoard (rayCell (mkPoint 5 6) (direction goldOnGoalUp)
                (dist goldOnGoalUp)) ->
   1 < dist goldOnGoalUp ->
   v_point goldOnGoalUp
   = rayCell (mkPoint 5 6) (direction goldOnGoalUp) (dist goldOnGoalUp - 1) /\
   inBoard (v_point goldOnGoalUp)).
Proof.
  split; [reflexivity|]. split; [exact goldOnGoal_vision|].
  split; [exact goldOnGoalUp_ray|].
  destruct (ray_point goldOnGoal (mkPoint 5 6) [mkPoint 5 7; mkPoint 5 8]
              _ goldOnGoalUp eq_refl goldOnGoal_vision goldOnGoalUp_ray)
    as (_ & H & _).
  exact H.
Defined.

(** An instance: the ray of [goldOnGoal] that looks [UP]. *)
Lemma ray_itemFound_witness :
  snake (state goldOnGoal) = [mkPoint 5 6; mkPoint 5 7; mkPoint 5 8] /\
  getVisionExtended goldOnGoal
  = Some (map (ray 30 goldOnGoal (mkPoint 5 6)) rayDirs) /\
  In goldOnGoalUp (map (ray 30 goldOnGoal (mkPoint 5 6)) rayDirs) /\
  ((itemFound goldOnGoalUp = None /\ itemDist goldOnGoalUp = None /\
    forall k, 1 <= k <= dist goldOnGoalUp ->
      inBoard (rayCell (mkPoint 5 6) (direction goldOnGoalUp) k) ->
      hitsItems (specialItems (state goldOnGoal))
        (rayCell (mkPoint 5 6) (direction goldOnGoalUp) k) = false) \/
   (exists k si,
      1 <= k <= dist goldOnGoalUp /\
      inBoard (rayCell (mkPoint 5 6) (direction goldOnGoalUp) k) /\
      findItem (specialItems (state goldOnGoal))
        (rayCell (mkPoint 5 6) (direction goldOnGoalUp) k) = Some si /\
      In si (specialItems (state goldOnGoal)) /\
      point si = rayCell (mkPoint 5 6) (direction goldOnGoalUp) k /\
      itemFound goldOnGoalUp = Some (type si) /\
      itemDist goldOnGoalUp = Some k /\
      forall j, 1 <= j < k ->
        hitsItems (specialItems (state goldOnGoal))
          (rayCell (mkPoint 5 6) (direction goldOnGoalUp) j) = false)).
Proof.
  split; [reflexivity|]. split; [exact goldOnGoal_vision|].
  split; [exact goldOnGoalUp_ray|].
  exact (ray_itemFound goldOnGoal (mkPoint 5 6) [mkPoint 5 7; mkPoint 5 8]
           _ goldOnGoalUp eq_refl goldOnGoal_vision goldOnGoalUp_ray).
Defined.

(** An instance: the decision of [shapingAgent]. *)
Lemma update_table_witness :
  isGameOver (state (game shapingAgent)) = false /\
  update sineUnused shapingAgent shapingRNG
  = (Some shapingAgentAfter, shapingRNGAfter) /\
  exists s s' action q',
    getStateString shapingAgent = Some s /\
    getStateString shapingAgentAfter = Some s' /\
    0 <= action < 4 /\
    qTable shapingAgentAfter !! s = Some q' /\
    (forall d, d <> directionOfIndex action ->
       qGet q' d = qGet (default zeroQValues (qTable shapingAgent !! s)) d) /\
    (s' <> s ->
     qTable shapingAgentAfter !! s'
     = Some (default zeroQValues (qTable shapingAgent !! s'))) /\
    (forall k, k <> s -> k <> s' ->
       qTable shapingAgentAfter !! k = qTable shapingAgent !! k).
Proof.
  assert (Hover : isGameOver (state (game shapingAgent)) = false)
    by (vm_compute; reflexivity).
  split; [exact Hover|]. split; [exact shapingAgent_update|].
  exact (update_table sineUnused shapingAgent shapingAgentAfter shapingRNG
           shapingRNGAfter Hover shapingAgent_update).
Defined.

(** An instance: the decision of [shapingAgent], from the empty
    table. *)
Lemma update_keeps_values_bounded_witness :
  boundedTable shapingAgent /\
  update sineUnused shapingAgent shapingRNG
  = (Some shapingAgentAfter, shapingRNGAfter) /\
  forall k q d, qTable shapingAgentAfter !! k = Some q ->
                (-5016 <= qGet q d <= 5016)%Q.
Proof.
  split; [exact shapingAgent_bounded|]. split; [exact shapingAgent_update|].
  exact (update_keeps_values_bounded sineUnused shapingAgent shapingAgentAfter
           shapingRNG shapingRNGAfter shapingAgent_bounded
           shapingAgent_update).
Defined.


(** An instance: [freshAgent] and the direction [DOWN], which leads
    into the body. *)
Lemma fingerprint_flags_witness :
  isGameOver (state (game freshAgent)) = false /\
  snake (state (game freshAgent)) = initialSnake /\
  getStateString freshAgent = Some "LU01000100U" /\
  0 <= 1 < 4 /\
  String.length "LU01000100U" = 11%nat /\
  ((String.get (Z.to_nat (2 + 1)) "LU01000100U" = Some "1"%char /\
    exists g', step sineUnused (directionOfIndex 1) (game freshAgent)
                 freshAgentRNG
               = (Some ((-100)%Q, g'), freshAgentRNG)) \/
   (String.get (Z.to_nat (2 + 1)) "LU01000100U" = Some "0"%char /\
    ((exists g', step sineUnused (directionOfIndex 1) (game freshAgent)
                   freshAgentRNG
                 = (Some ((-100)%Q, g'), freshAgentRNG)) <->
     maxSteps + 50 * score (state (game freshAgent))
     <= steps (state (game freshAgent))))).
Proof.
  assert (Hover : isGameOver (state (game freshAgent)) = false)
    by (vm_compute; reflexivity).
  assert (Hsn : snake (state (game freshAgent))
                = mkPoint 15 15 :: [mkPoint 15 16; mkPoint 15 17])
    by (vm_compute; reflexivity).
  assert (Hs : getStateString freshAgent = Some "LU01000100U")
    by (vm_compute; reflexivity).
  assert (Hk : 0 <= 1 < 4) by lia.
  split; [exact Hover|]. split; [exact Hsn|]. split; [exact Hs|].
  split; [exact Hk|].
  exact (fingerprint_flags sineUnused freshAgent "LU01000100U" (mkPoint 15 15)
           [mkPoint 15 16; mkPoint 15 17] 1 freshAgentRNG Hover Hsn Hs Hk).
Defined.

(** An instance: the first round of a host that has just been set
    up. *)
Lemma iteration_decides_witness :
  observable sineUnused (game (qAgent freshHost)) /\
  exists t' r',
    iteration sineUnused freshHost freshAgentRNG = (Some t', r') /\
    totalStepsEver (qAgent t') = totalStepsEver (qAgent freshHost) + 1 /\
    epsilon (qAgent t') = decayEpsilon (epsilon (qAgent freshHost)) /\
    observable sineUnused (game (qAgent t')).
Proof.
  split; [exact freshAgent_observable|].
  destruct (iteration_decides sineUnused freshHost freshAgentRNG
              freshAgent_observable)
    as (t' & r' & H1 & H2 & H3 & H4 & _).
  exists t', r'. split; [exact H1|]. split; [exact H2|].
  split; [exact H3|exact H4].
Defined.


(** An instance: the end of the first episode. *)
Lemma recordEpisode_histories_witness :
  (length (localScoreHistory firstEpisodeHost) <= 500)%nat /\
  (length (localEpsilonHistory firstEpisodeHost) <= 500)%nat /\
  (length (localScoreHistory (recordEpisode firstEpisodeHost)) <= 500)%nat /\
  (length (localEpsilonHistory (recordEpisode firstEpisodeHost)) <= 500)%nat /\
  batchEpisodes (recordEpisode firstEpisodeHost)
  = batchEpisodes firstEpisodeHost + 1.
Proof.
  assert (Hs : (length (localScoreHistory firstEpisodeHost) <= 500)%nat)
    by (simpl; lia).
  assert (He : (length (localEpsilonHistory firstEpisodeHost) <= 500)%nat)
    by (simpl; lia).
  split; [exact Hs|]. split; [exact He|].
  destruct (recordEpisode_histories firstEpisodeHost Hs He)
    as (H1 & H2 & _ & _ & _ & H6 & _).
  split; [exact H1|]. split; [exact H2|exact H6].
Defined.

(** An instance: an agent that has taken 1000 steps. *)
Lemma save_load_steps_witness :
  0 <= totalStepsEver freshAgentLater < 2 ^ 53 /\
  exists res,
    Persist.loadFromStorage parsePair
      (saveToStorage stringifyConst toStringConst freshAgentLater ∅)
      Persist.initialFields
    = Some res /\
    Persist.r_totalStepsEver res
    = Persist.Finite (inject_Z (totalStepsEver freshAgentLater)).
Proof.
  assert (H : 0 <= totalStepsEver freshAgentLater < 2 ^ 53)
    by (simpl; lia).
  split; [exact H|].
  exact (save_load_steps stringifyConst toStringConst parsePair freshAgentLater
           ∅ Persist.initialFields H).
Defined.
